(** * lisafs RPC handlers (pkg/lisafs/handlers.go)

    A shallow embedding of the server-side handlers of the lisafs
    protocol: the handlers are state transformers over the connection,
    the descriptor table, the communicator's payload buffer and the
    backend, and they record the calls they make in a trace.

    Embedded from handlers.go: checkSafeName and the handlers of Error,
    Mount, FStat, SetStat, Walk, WalkStat, OpenAt, OpenCreateAt, Close,
    FSync (with fsyncFD), PWrite, PRead, MkdirAt, MknodAt, SymlinkAt,
    LinkAt, FStatFS, FAllocate, ReadLinkAt, Flush, Connect, UnlinkAt,
    RenameAt (with renameRecursiveLocked), Getdents64, FGetXattr,
    FSetXattr, FListXattr and FRemoveXattr; ChannelHandler, which starts a
    goroutine and duplicates file descriptors, is not. The connection, the
    descriptor table, the messages and the communicator are in other files
    of the package; what the handlers use of them is modelled from the
    specification, and the backend is an interface, taken as a parameter.
    Logging is left out.

    The definitions come first: the data, the state, a concrete codec and
    backend to run the handlers, and the handlers; the properties follow. *)

From Stdlib Require Import ZArith Lia Bool Ascii String.
From stdpp Require Import base tactics option list strings gmap.

Local Open Scope string_scope.
Local Open Scope list_scope.
Local Open Scope Z_scope.

Abbreviation byte := Init.Byte.byte.

(** ** Errors

    A Go [error] returned by a handler is either [nil] or a Linux errno. *)

Definition Errno := Z.
Definition error := option Errno.
Abbreviation nil_err := (@None Errno).

Definition EPERM : Errno := 1.
Definition EIO : Errno := 5.
Definition EBADF : Errno := 9.
Definition EBUSY : Errno := 16.
Definition ENOTDIR : Errno := 20.
Definition EISDIR : Errno := 21.
Definition EINVAL : Errno := 22.
Definition EROFS : Errno := 30.
Definition ENOTSOCK : Errno := 88.

(** ** Strings (package strings of the Go library) *)

Module Strings.

(** [strings.HasPrefix(s, prefix)]. *)
Fixpoint HasPrefix (s prefix : string) {struct prefix} : bool :=
  match prefix, s with
  | EmptyString, _ => true
  | String _ _, EmptyString => false
  | String p prefix', String c s' => Ascii.eqb c p && HasPrefix s' prefix'
  end.

(** [strings.Contains(s, substr)]: [substr] occurs somewhere in [s]. *)
Fixpoint Contains (s substr : string) : bool :=
  HasPrefix s substr ||
  match s with
  | EmptyString => false
  | String _ s' => Contains s' substr
  end.

End Strings.

(** ** checkSafeName *)

(** [checkSafeName] validates the name and returns nil or returns an error. *)
Definition checkSafeName (name : string) : error :=
  if negb (String.eqb name "")
     && negb (Strings.Contains name "/")
     && negb (String.eqb name ".")
     && negb (String.eqb name "..")
  then nil_err
  else Some EINVAL.

(** The names the protocol refuses as a path component. *)
Definition unsafe_name (name : string) : Prop :=
  name = "" \/ name = "." \/ name = ".." \/
  In "/"%char (String.list_ascii_of_string name).

(** A name that is not ASCII: the UTF-8 bytes of U+00E9 U+4E2D. *)
Definition unicode_name : string :=
  String (Ascii.ascii_of_nat 195) (String (Ascii.ascii_of_nat 169)
    (String (Ascii.ascii_of_nat 228) (String (Ascii.ascii_of_nat 184)
      (String (Ascii.ascii_of_nat 173) EmptyString)))).

(** ** Fixed-width integers *)

Definition uint32 (z : Z) : Z := z mod 2 ^ 32.

Definition uint64 (z : Z) : Z := z mod 2 ^ 64.

(** Conversion to [int32]: the low 32 bits, read in two's complement. *)
Definition int32 (z : Z) : Z := (z + 2 ^ 31) mod 2 ^ 32 - 2 ^ 31.

Definition MaxUint32 : Z := 2 ^ 32 - 1.

(** ** Constants of package unix and linux *)

Definition O_RDONLY : Z := 0.
Definition O_WRONLY : Z := 1.
Definition O_RDWR : Z := 2.
Definition O_ACCMODE : Z := 3.
Definition O_TRUNC : Z := 512.

Definition STATX_MODE : Z := 2.
Definition STATX_UID : Z := 8.
Definition STATX_GID : Z := 16.
Definition STATX_ATIME : Z := 32.
Definition STATX_MTIME : Z := 64.
Definition STATX_SIZE : Z := 512.

Definition SizeOfStatx : Z := 256.

Definition allowedOpenFlags : Z := Z.lor O_ACCMODE O_TRUNC.

Definition setStatSupportedMask : Z :=
  Z.lor (Z.lor (Z.lor (Z.lor (Z.lor STATX_MODE STATX_UID) STATX_GID)
    STATX_SIZE) STATX_ATIME) STATX_MTIME.

(** ** Data model *)

(** Modelled from the spec: a descriptor identifier is an opaque integer;
    zero is reserved as "none". *)
Definition FDID := Z.

(** Modelled from the spec: the kind of node a control handle stands for,
    a tag on the handle for the kind checks. *)
Inductive Kind := Directory | SymbolicLink | SocketFile | RegularFile | SpecialFile.

Definition Kind_eqb (a b : Kind) : bool :=
  match a, b with
  | Directory, Directory | SymbolicLink, SymbolicLink
  | SocketFile, SocketFile | RegularFile, RegularFile
  | SpecialFile, SpecialFile => true
  | _, _ => false
  end.

(** Modelled from the spec: a control handle is a node of the tree of a
    connection, with a refcount, a kind, a name (a single path component),
    a parent (none for a mount root) and the list of its children. The
    parent and the children are handles of the same table, named by their
    identifier. *)
Record ControlFD := mkControlFD {
  cfd_refs : Z;
  ftype : Kind;
  name : string;
  parent : option FDID;
  children : list FDID
}.

(** Modelled from the spec: an open handle has a refcount, a
    back-reference to the control handle under it and the readable and
    writable flags derived from the open flags. The back-reference is a
    pointer, held whether or not the control handle is still in the table:
    [controlFD] is the identifier of that handle and [controlFD_ftype] its
    kind, which is fixed when a handle is made. *)
Record OpenFD := mkOpenFD {
  ofd_refs : Z;
  controlFD : FDID;
  controlFD_ftype : Kind;
  readable : bool;
  writable : bool
}.

(** Modelled from the spec: the table maps an identifier to a tagged
    handle. *)
Inductive genericFD :=
| IsControl (fd : ControlFD)
| IsOpen (fd : OpenFD).

Record Statx := mkStatx {
  stx_mask : Z;
  stx_mode : Z;
  stx_ino : Z;
  stx_size : Z
}.

(** Wire-level inode: the control descriptor and its metadata. *)
Record Inode := mkInode {
  ino_ControlFD : FDID;
  ino_Stat : Statx
}.

Record Dirent64 := mkDirent64 {
  d_ino : Z;
  d_off : Z;
  d_type : Z;
  d_name : string
}.

(** ** Requests and responses

    The message structures are declared in another file of the package;
    the fields here are the ones the handlers read and write. *)

Module MountReq.
Record t := mk { MountPath : string }.
End MountReq.

Module MountResp.
Record t := mk { Root : Inode; SupportedMs : list Z; MaxMessageSize : Z }.
End MountResp.

Module SetStatReq.
Record t := mk { FD : FDID; Mask : Z; Mode : Z; UID : Z; GID : Z;
                 Size : Z; Atime : Z; Mtime : Z }.
End SetStatReq.

Module SetStatResp.
Record t := mk { FailureMask : Z; FailureErrNo : Z }.
End SetStatResp.

Module WalkReq.
Record t := mk { DirFD : FDID; Path : list string }.
End WalkReq.

Module OpenAtReq.
Record t := mk { FD : FDID; Flags : Z }.
End OpenAtReq.

Module OpenAtResp.
Record t := mk { OpenFD : FDID }.
End OpenAtResp.

Module OpenCreateAtReq.
Record t := mk { DirFD : FDID; Mode : Z; UID : Z; GID : Z;
                 Name : string; Flags : Z }.
End OpenCreateAtReq.

Module OpenCreateAtResp.
Record t := mk { Child : Inode; NewFD : FDID }.
End OpenCreateAtResp.

Module FsyncReq.
Record t := mk { FDs : list FDID }.
End FsyncReq.

Module PWriteReq.
Record t := mk { FD : FDID; Offset : Z; Buf : list byte }.
End PWriteReq.

Module PWriteResp.
Record t := mk { Count : Z }.
End PWriteResp.

Module MkdirAtReq.
Record t := mk { DirFD : FDID; Mode : Z; UID : Z; GID : Z; Name : string }.
End MkdirAtReq.

Module MkdirAtResp.
Record t := mk { ChildDir : Inode }.
End MkdirAtResp.

Module MknodAtReq.
Record t := mk { DirFD : FDID; Mode : Z; UID : Z; GID : Z; Name : string;
                 Minor : Z; Major : Z }.
End MknodAtReq.

Module MknodAtResp.
Record t := mk { Child : Inode }.
End MknodAtResp.

Module SymlinkAtReq.
Record t := mk { DirFD : FDID; Name : string; Target : string;
                 UID : Z; GID : Z }.
End SymlinkAtReq.

Module SymlinkAtResp.
Record t := mk { Symlink : Inode }.
End SymlinkAtResp.

Module LinkAtReq.
Record t := mk { DirFD : FDID; Target : FDID; Name : string }.
End LinkAtReq.

Module LinkAtResp.
Record t := mk { Link : Inode }.
End LinkAtResp.

Module FAllocateReq.
Record t := mk { FD : FDID; Mode : Z; Offset : Z; Length : Z }.
End FAllocateReq.

Module FlushReq.
Record t := mk { FD : FDID }.
End FlushReq.

Module UnlinkAtReq.
Record t := mk { DirFD : FDID; Name : string; Flags : Z }.
End UnlinkAtReq.

Module RenameAtReq.
Record t := mk { Renamed : FDID; NewDir : FDID; NewName : string }.
End RenameAtReq.

Module Getdents64Req.
Record t := mk { DirFD : FDID; Count : Z }.
End Getdents64Req.

Module FSetXattrReq.
Record t := mk { FD : FDID; Name : string; Value : string; Flags : Z }.
End FSetXattrReq.

Module FRemoveXattrReq.
Record t := mk { FD : FDID; Name : string }.
End FRemoveXattrReq.

(** The wire codec: a request type can be decoded from the payload, with
    its length checked against the layout; a response type has a size and
    an encoding. *)
Class Unmarshal (R : Type) := CheckedUnmarshal : list byte -> option R.

Class Marshal (R : Type) := {
  SizeBytes : R -> Z;
  MarshalBytes : R -> list byte
}.

(** ** Requests and responses of the reading RPCs

    As above: the fields are the ones the handlers read and write. *)

Module StatReq.
Record t := mk { FD : FDID }.
End StatReq.

Module CloseReq.
Record t := mk { FDs : list FDID }.
End CloseReq.

Module PReadReq.
Record t := mk { FD : FDID; Offset : Z; Count : Z }.
End PReadReq.

Module FStatFSReq.
Record t := mk { FD : FDID }.
End FStatFSReq.

Record StatFS := mkStatFS {
  sfs_Type : Z;
  sfs_BlockSize : Z;
  sfs_Blocks : Z;
  sfs_Files : Z
}.

Module ReadLinkAtReq.
Record t := mk { FD : FDID }.
End ReadLinkAtReq.

Module ConnectReq.
Record t := mk { FD : FDID; SockType : Z }.
End ConnectReq.

Module FGetXattrReq.
Record t := mk { FD : FDID; Name : string; BufSize : Z }.
End FGetXattrReq.

Module FListXattrReq.
Record t := mk { FD : FDID; Size : Z }.
End FListXattrReq.

(** A handle as [lookupFD] returns it: of either variant. *)
Inductive FDRef :=
| ControlRef (id : FDID)
| OpenRef (id : FDID).

Definition ref_id (r : FDRef) : FDID :=
  match r with
  | ControlRef id => id
  | OpenRef id => id
  end.

(** The Go runtime panic of a slice expression whose bounds are out of
    range. *)
Inductive Panicked := SliceBoundsOutOfRange.

(** ** Traces

    A handler records the calls it makes on the communicator, on the
    descriptor table, on the rename lock and on the backend. *)

Inductive Call :=
| CallMount (mountPath : string)
| CallSetStat (fd : FDID) (req : SetStatReq.t)
| CallWalkStat (fd : FDID) (path : list string)
| CallOpen (fd : FDID) (flags : Z)
| CallOpenCreate (fd : FDID) (mode uid gid : Z) (name : string) (flags : Z)
| CallSync (fd : FDID)
| CallWrite (fd : FDID) (buf : list byte) (offset : Z)
| CallMkdir (fd : FDID) (mode uid gid : Z) (name : string)
| CallMknod (fd : FDID) (mode uid gid : Z) (name : string) (minor major : Z)
| CallSymlink (fd : FDID) (name target : string) (uid gid : Z)
| CallLink (target dir : FDID) (name : string)
| CallAllocate (fd : FDID) (mode offset length : Z)
| CallFlush (fd : FDID)
| CallUnlink (fd : FDID) (name : string) (flags : Z)
| CallRenameLocked (renamed newDir : FDID) (newName : string)
| CallUpdateControlFD (fd : FDID)
| CallCleanUp
| CallGetdent64 (fd : FDID) (count : Z) (seek0 : bool)
| CallSetXattr (fd : FDID) (name value : string) (flags : Z)
| CallRemoveXattr (fd : FDID) (name : string)
| CallClose (fd : FDID).

Inductive Event :=
| EvPayloadBuf (size : Z)
| EvLookup (id : FDID) (found : bool)
| EvDecRef (id : FDID)
| EvLock
| EvUnlock
| EvImpl (c : Call).

Definition is_impl (e : Event) : bool :=
  match e with EvImpl _ => true | _ => false end.

Definition is_lookup_of (id : FDID) (e : Event) : bool :=
  match e with EvLookup i true => Z.eqb i id | _ => false end.

Definition is_decref_of (id : FDID) (e : Event) : bool :=
  match e with EvDecRef i => Z.eqb i id | _ => false end.

(** The references a trace took on [id] and the ones it gave back. *)
Definition lookups (id : FDID) (t : list Event) : nat :=
  length (List.filter (is_lookup_of id) t).

Definition releases (id : FDID) (t : list Event) : nat :=
  length (List.filter (is_decref_of id) t).

(** The backend calls of a trace, in order. *)
Fixpoint impl_calls (t : list Event) : list Call :=
  match t with
  | [] => []
  | EvImpl c :: t' => c :: impl_calls t'
  | _ :: t' => impl_calls t'
  end.

(** ** Helpers on bytes, lists and handles *)

Definition zero_byte : byte := Byte.x00.

Definition refs (fd : genericFD) : Z :=
  match fd with
  | IsControl c => cfd_refs c
  | IsOpen o => ofd_refs o
  end.

Definition set_refs (n : Z) (fd : genericFD) : genericFD :=
  match fd with
  | IsControl c =>
      IsControl (mkControlFD n (ftype c) (name c) (parent c) (children c))
  | IsOpen o =>
      IsOpen (mkOpenFD n (controlFD o) (controlFD_ftype o) (readable o)
                (writable o))
  end.

Definition IncRef (fd : genericFD) : genericFD := set_refs (refs fd + 1) fd.

Definition set_children (l : list FDID) (c : ControlFD) : ControlFD :=
  mkControlFD (cfd_refs c) (ftype c) (name c) (parent c) l.

Definition set_parent (p : option FDID) (c : ControlFD) : ControlFD :=
  mkControlFD (cfd_refs c) (ftype c) (name c) p (children c).

Definition set_name (n : string) (c : ControlFD) : ControlFD :=
  mkControlFD (cfd_refs c) (ftype c) n (parent c) (children c).

(** Little-endian encoding of the low [n] bytes of [z] (the marshalling of
    [primitive.Uint32] is [le_bytes 4]). *)
Definition byte_of_Z (z : Z) : byte :=
  match Byte.of_N (Z.to_N (z mod 256)) with
  | Some b => b
  | None => zero_byte
  end.

Fixpoint le_bytes (n : nat) (z : Z) : list byte :=
  match n with
  | O => []
  | S n' => byte_of_Z z :: le_bytes n' (z / 256)
  end.

Definition len {A} (l : list A) : Z := Z.of_nat (length l).

(** ** The state

    The state a handler works on, for a backend whose state is [B]. *)

Section State.

(** The state of the backend filesystem. *)
Context {B : Type}.

(** Modelled from the spec: the descriptor table of a connection, a
    mapping from identifiers to tagged handles; with it, the state of the
    backend. *)
Record Heap := mkHeap {
  fds : gmap FDID genericFD;
  impl_state : B
}.

(** Modelled from the spec: what a handler has at hand. Of the connection
    [c], the read-only flag (set by configuration), the mounted flag
    (initially false) and the descriptor table; of its server, the
    mount-point roots; of the communicator [comm], the payload buffer;
    and the trace of the calls made so far. *)
Record World := mkWorld {
  readonly : bool;
  mounted : bool;
  mountPoints : list FDID;
  heap : Heap;
  payload : list byte;
  trace : list Event
}.

Definition set_fds (f : gmap FDID genericFD) (h : Heap) : Heap :=
  mkHeap f (impl_state h).

Definition set_impl_state (b : B) (h : Heap) : Heap :=
  mkHeap (fds h) b.

Definition set_heap (h : Heap) (w : World) : World :=
  mkWorld (readonly w) (mounted w) (mountPoints w) h (payload w) (trace w).

Definition set_payload (p : list byte) (w : World) : World :=
  mkWorld (readonly w) (mounted w) (mountPoints w) (heap w) p (trace w).

Definition set_trace (t : list Event) (w : World) : World :=
  mkWorld (readonly w) (mounted w) (mountPoints w) (heap w) (payload w) t.

Definition set_mounted (m : bool) (w : World) : World :=
  mkWorld (readonly w) m (mountPoints w) (heap w) (payload w) (trace w).


Definition set_mountPoints (l : list FDID) (w : World) : World :=
  mkWorld (readonly w) (mounted w) l (heap w) (payload w) (trace w).

Definition table (w : World) : gmap FDID genericFD := fds (heap w).

Definition log (e : Event) (w : World) : World :=
  set_trace (trace w ++ [e]) w.

(** Modelled from the spec: the backend capabilities, which are the
    operations the handlers invoke on the server implementation and on the
    implementation objects of the handles; a handle's object is named by
    the handle's identifier. A capability that returns descriptors works
    on the handles too, the others on the backend state only. A callback
    the handler passes is run by the handler on what the capability
    produced; the donation of host descriptors through [comm] is the
    backend's business and is left out. A Go result [(x, err)] of which
    the handlers read [x] only when [err] is nil is a sum. *)
Record ServerImpl := mkServerImpl {
  Mount : string -> Heap -> (Errno + FDID * Inode) * Heap;
  SupportedMessages : list Z;
  MaxMessageSize : Z;
  (* ControlFDImpl *)
  SetStat : FDID -> SetStatReq.t -> B -> (Z * error) * B;
  WalkStat : FDID -> list string -> B -> (list Statx * error) * B;
  Open : FDID -> Z -> Heap -> (Errno + FDID) * Heap;
  OpenCreate : FDID -> Z -> Z -> Z -> string -> Z -> Heap ->
               (Errno + Inode * FDID) * Heap;
  Mkdir : FDID -> Z -> Z -> Z -> string -> Heap -> (Errno + Inode) * Heap;
  Mknod : FDID -> Z -> Z -> Z -> string -> Z -> Z -> Heap ->
          (Errno + Inode) * Heap;
  Symlink : FDID -> string -> string -> Z -> Z -> Heap ->
            (Errno + Inode) * Heap;
  Link : FDID -> FDID -> string -> Heap -> (Errno + Inode) * Heap;
  Unlink : FDID -> string -> Z -> B -> error * B;
  RenameLocked : FDID -> FDID -> string -> B ->
    (Errno + option (FDID -> B -> B) * option (B -> B)) * B;
  SetXattr : FDID -> string -> string -> Z -> B -> error * B;
  RemoveXattr : FDID -> string -> B -> error * B;
  Close : FDID -> B -> B;
  (* OpenFDImpl *)
  Sync : FDID -> B -> error * B;
  Write : FDID -> list byte -> Z -> B -> (Errno + Z) * B;
  Allocate : FDID -> Z -> Z -> Z -> B -> error * B;
  Flush : FDID -> B -> error * B;
  Getdent64 : FDID -> Z -> bool -> B -> (list Dirent64 * error) * B
}.

End State.

(** ** Capabilities of the reading RPCs *)

Module Reading.
Section Impl.

Context {B : Type}.

(** Modelled from the spec: the capabilities the handlers of FStat, Walk,
    PRead, FStatFS, ReadLinkAt, Connect, FGetXattr and FListXattr invoke.
    [Walk] makes handles, the others work on the backend state only. What
    a capability hands to a callback or writes into the slice it is given
    is part of its result: the inodes of [Walk], the bytes of [Read] and
    of [GetXattr], and for [Readlink] the lengths it asks its callback a
    buffer for, one after the other, with the text it wrote into the
    buffer or the error. *)
Record Impl := mkImpl {
  ControlStat : FDID -> B -> (Errno + Statx) * B;
  OpenStat : FDID -> B -> (Errno + Statx) * B;
  Walk : FDID -> list string -> @Heap B ->
         (Z * list Inode * error) * @Heap B;
  StatFS : FDID -> B -> (Errno + StatFS) * B;
  Readlink : FDID -> B -> (list Z * (Errno + list byte)) * B;
  Connect : FDID -> Z -> B -> error * B;
  GetXattr : FDID -> string -> Z -> B -> (Errno + list byte) * B;
  ListXattr : FDID -> Z -> B -> (Z * error) * B;
  Read : FDID -> Z -> Z -> B -> (Errno + list byte) * B
}.

End Impl.
End Reading.

(** * A concrete wire format and backend

    An instance of the codec and of the backend, to run the handlers on
    concrete requests: integers are little-endian, a string or a list is
    preceded by its length on four bytes, and the backend keeps the list
    of the open descriptors whose sync fails. *)

Module Sample.

Definition byte_to_Z (b : byte) : Z := Z.of_N (Byte.to_N b).

Fixpoint le_Z (bs : list byte) : Z :=
  match bs with
  | [] => 0
  | b :: bs' => byte_to_Z b + 256 * le_Z bs'
  end.

Definition get_uint (n : nat) (bs : list byte) : option (Z * list byte) :=
  if (length bs <? n)%nat then None
  else Some (le_Z (take n bs), drop n bs).

Definition get_u32 := get_uint 4.
Definition get_u64 := get_uint 8.

Definition get_i32 (bs : list byte) : option (Z * list byte) :=
  '(z, rest) ← get_u32 bs; Some (int32 z, rest).

Definition get_bytes (bs : list byte) : option (list byte * list byte) :=
  '(n, rest) ← get_u32 bs;
  if (length rest <? Z.to_nat n)%nat then None
  else Some (take (Z.to_nat n) rest, drop (Z.to_nat n) rest).

Definition get_str (bs : list byte) : option (string * list byte) :=
  '(s, rest) ← get_bytes bs; Some (string_of_list_byte s, rest).

Fixpoint get_many {A} (get : list byte -> option (A * list byte))
    (n : nat) (bs : list byte) : option (list A * list byte) :=
  match n with
  | O => Some ([], bs)
  | S n' =>
      '(a, rest) ← get bs;
      '(l, rest') ← get_many get n' rest;
      Some (a :: l, rest')
  end.

Definition get_list {A} (get : list byte -> option (A * list byte))
    (bs : list byte) : option (list A * list byte) :=
  '(n, rest) ← get_u32 bs; get_many get (Z.to_nat n) rest.

(** The check of the length: nothing may be left over. *)
Definition checked {A} (r : option (A * list byte)) : option A :=
  '(a, rest) ← r; match rest with [] => Some a | _ => None end.

Definition put_u32 (z : Z) : list byte := le_bytes 4 z.
Definition put_u64 (z : Z) : list byte := le_bytes 8 z.

Definition put_bytes (bs : list byte) : list byte :=
  put_u32 (len bs) ++ bs.

Definition put_str (s : string) : list byte :=
  put_bytes (list_byte_of_string s).

Definition put_list {A} (put : A -> list byte) (l : list A) : list byte :=
  put_u32 (len l) ++ concat (map put l).

#[export] Instance dec_MountReq : Unmarshal MountReq.t := fun bs =>
  checked ('(p, r) ← get_str bs; Some (MountReq.mk p, r)).

#[export] Instance dec_SetStatReq : Unmarshal SetStatReq.t := fun bs =>
  checked ('(fd, r) ← get_u32 bs; '(mask, r) ← get_u32 r;
           '(mode, r) ← get_u32 r; '(uid, r) ← get_u32 r;
           '(gid, r) ← get_u32 r; '(size, r) ← get_u64 r;
           '(atime, r) ← get_u64 r; '(mtime, r) ← get_u64 r;
           Some (SetStatReq.mk fd mask mode uid gid size atime mtime, r)).

#[export] Instance dec_WalkReq : Unmarshal WalkReq.t := fun bs =>
  checked ('(fd, r) ← get_u32 bs; '(path, r) ← get_list get_str r;
           Some (WalkReq.mk fd path, r)).

#[export] Instance dec_OpenAtReq : Unmarshal OpenAtReq.t := fun bs =>
  checked ('(fd, r) ← get_u32 bs; '(flags, r) ← get_u32 r;
           Some (OpenAtReq.mk fd flags, r)).

#[export] Instance dec_OpenCreateAtReq : Unmarshal OpenCreateAtReq.t := fun bs =>
  checked ('(fd, r) ← get_u32 bs; '(mode, r) ← get_u32 r;
           '(uid, r) ← get_u32 r; '(gid, r) ← get_u32 r;
           '(name, r) ← get_str r; '(flags, r) ← get_u32 r;
           Some (OpenCreateAtReq.mk fd mode uid gid name flags, r)).

#[export] Instance dec_FsyncReq : Unmarshal FsyncReq.t := fun bs =>
  checked ('(fds, r) ← get_list get_u32 bs; Some (FsyncReq.mk fds, r)).

#[export] Instance dec_PWriteReq : Unmarshal PWriteReq.t := fun bs =>
  checked ('(fd, r) ← get_u32 bs; '(off, r) ← get_u64 r;
           '(buf, r) ← get_bytes r; Some (PWriteReq.mk fd off buf, r)).

#[export] Instance dec_MkdirAtReq : Unmarshal MkdirAtReq.t := fun bs =>
  checked ('(fd, r) ← get_u32 bs; '(mode, r) ← get_u32 r;
           '(uid, r) ← get_u32 r; '(gid, r) ← get_u32 r;
           '(name, r) ← get_str r;
           Some (MkdirAtReq.mk fd mode uid gid name, r)).

#[export] Instance dec_MknodAtReq : Unmarshal MknodAtReq.t := fun bs =>
  checked ('(fd, r) ← get_u32 bs; '(mode, r) ← get_u32 r;
           '(uid, r) ← get_u32 r; '(gid, r) ← get_u32 r;
           '(name, r) ← get_str r; '(minor, r) ← get_u32 r;
           '(major, r) ← get_u32 r;
           Some (MknodAtReq.mk fd mode uid gid name minor major, r)).

#[export] Instance dec_SymlinkAtReq : Unmarshal SymlinkAtReq.t := fun bs =>
  checked ('(fd, r) ← get_u32 bs; '(name, r) ← get_str r;
           '(target, r) ← get_str r; '(uid, r) ← get_u32 r;
           '(gid, r) ← get_u32 r;
           Some (SymlinkAtReq.mk fd name target uid gid, r)).

#[export] Instance dec_LinkAtReq : Unmarshal LinkAtReq.t := fun bs =>
  checked ('(fd, r) ← get_u32 bs; '(target, r) ← get_u32 r;
           '(name, r) ← get_str r; Some (LinkAtReq.mk fd target name, r)).

#[export] Instance dec_FAllocateReq : Unmarshal FAllocateReq.t := fun bs =>
  checked ('(fd, r) ← get_u32 bs; '(mode, r) ← get_u64 r;
           '(off, r) ← get_u64 r; '(length, r) ← get_u64 r;
           Some (FAllocateReq.mk fd mode off length, r)).

#[export] Instance dec_FlushReq : Unmarshal FlushReq.t := fun bs =>
  checked ('(fd, r) ← get_u32 bs; Some (FlushReq.mk fd, r)).

#[export] Instance dec_UnlinkAtReq : Unmarshal UnlinkAtReq.t := fun bs =>
  checked ('(fd, r) ← get_u32 bs; '(name, r) ← get_str r;
           '(flags, r) ← get_u32 r; Some (UnlinkAtReq.mk fd name flags, r)).

#[export] Instance dec_RenameAtReq : Unmarshal RenameAtReq.t := fun bs =>
  checked ('(renamed, r) ← get_u32 bs; '(newDir, r) ← get_u32 r;
           '(newName, r) ← get_str r;
           Some (RenameAtReq.mk renamed newDir newName, r)).

#[export] Instance dec_Getdents64Req : Unmarshal Getdents64Req.t := fun bs =>
  checked ('(fd, r) ← get_u32 bs; '(count, r) ← get_i32 r;
           Some (Getdents64Req.mk fd count, r)).

#[export] Instance dec_FSetXattrReq : Unmarshal FSetXattrReq.t := fun bs =>
  checked ('(fd, r) ← get_u32 bs; '(name, r) ← get_str r;
           '(value, r) ← get_str r; '(flags, r) ← get_u32 r;
           Some (FSetXattrReq.mk fd name value flags, r)).

#[export] Instance dec_FRemoveXattrReq : Unmarshal FRemoveXattrReq.t := fun bs =>
  checked ('(fd, r) ← get_u32 bs; '(name, r) ← get_str r;
           Some (FRemoveXattrReq.mk fd name, r)).

Definition put_statx (s : Statx) : list byte :=
  let fields := put_u64 (stx_mask s) ++ put_u64 (stx_mode s) ++
                put_u64 (stx_ino s) ++ put_u64 (stx_size s) in
  fields ++ replicate (Z.to_nat SizeOfStatx - length fields) zero_byte.

Definition put_inode (i : Inode) : list byte :=
  put_u32 (ino_ControlFD i) ++ put_statx (ino_Stat i).

Definition marshal_with {R} (put : R -> list byte) : Marshal R :=
  {| SizeBytes := fun r => len (put r); MarshalBytes := put |}.

#[export] Instance enc_Statx : Marshal Statx := marshal_with put_statx.

#[export] Instance enc_Dirent64 : Marshal Dirent64 :=
  marshal_with (fun d => put_u64 (d_ino d) ++ put_u64 (d_off d) ++
                         put_u32 (d_type d) ++ put_str (d_name d)).

#[export] Instance enc_MountResp : Marshal MountResp.t :=
  marshal_with (fun r => put_inode (MountResp.Root r) ++
                         put_list put_u32 (MountResp.SupportedMs r) ++
                         put_u32 (MountResp.MaxMessageSize r)).

#[export] Instance enc_SetStatResp : Marshal SetStatResp.t :=
  marshal_with (fun r => put_u32 (SetStatResp.FailureMask r) ++
                         put_u32 (SetStatResp.FailureErrNo r)).

#[export] Instance enc_OpenAtResp : Marshal OpenAtResp.t :=
  marshal_with (fun r => put_u32 (OpenAtResp.OpenFD r)).

#[export] Instance enc_OpenCreateAtResp : Marshal OpenCreateAtResp.t :=
  marshal_with (fun r => put_inode (OpenCreateAtResp.Child r) ++
                         put_u32 (OpenCreateAtResp.NewFD r)).

#[export] Instance enc_PWriteResp : Marshal PWriteResp.t :=
  marshal_with (fun r => put_u64 (PWriteResp.Count r)).

#[export] Instance enc_MkdirAtResp : Marshal MkdirAtResp.t :=
  marshal_with (fun r => put_inode (MkdirAtResp.ChildDir r)).

#[export] Instance enc_MknodAtResp : Marshal MknodAtResp.t :=
  marshal_with (fun r => put_inode (MknodAtResp.Child r)).

#[export] Instance enc_SymlinkAtResp : Marshal SymlinkAtResp.t :=
  marshal_with (fun r => put_inode (SymlinkAtResp.Symlink r)).

#[export] Instance enc_LinkAtResp : Marshal LinkAtResp.t :=
  marshal_with (fun r => put_inode (LinkAtResp.Link r)).

(** The backend: its state is the list of the open descriptors whose
    sync fails with EIO; it hands out fresh descriptors for the handles it
    creates. *)
Definition Disk := list FDID.

Definition fresh (h : @Heap Disk) : FDID :=
  map_fold (fun k _ acc => Z.max k acc) 0 (fds h) + 1.

Definition statx0 : Statx := mkStatx 0 0 0 0.

Definition addChild (dir child : FDID) (t : gmap FDID genericFD)
    : gmap FDID genericFD :=
  match t !! dir with
  | Some (IsControl c) =>
      <[dir := IsControl (set_children (children c ++ [child]) c)]> t
  | _ => t
  end.

(** A new control handle of kind [k] named [n] under [dir]. *)
Definition create (k : Kind) (dir : FDID) (n : string) (h : @Heap Disk)
    : (Errno + Inode) * @Heap Disk :=
  let id := fresh h in
  let c := mkControlFD 1 k n (Some dir) [] in
  (inr (mkInode id statx0),
   set_fds (addChild dir id (<[id := IsControl c]> (fds h))) h).

Definition openHandle (cfd : FDID) (flags : Z) (h : @Heap Disk)
    : FDID * @Heap Disk :=
  let id := fresh h in
  let acc := Z.land flags O_ACCMODE in
  let k := match fds h !! cfd with
           | Some (IsControl c) => ftype c
           | _ => RegularFile
           end in
  let o := mkOpenFD 1 cfd k (negb (acc =? O_WRONLY))
             (negb (acc =? O_RDONLY)) in
  (id, set_fds (<[id := IsOpen o]> (fds h)) h).

Definition impl : @ServerImpl Disk := {|
  Mount := fun mountPath h =>
    let id := fresh h in
    let c := mkControlFD 1 Directory mountPath None [] in
    (inr (id, mkInode id statx0), set_fds (<[id := IsControl c]> (fds h)) h);
  SupportedMessages := [1; 2; 3];
  MaxMessageSize := 1048576;
  SetStat := fun _ _ b => ((0, nil_err), b);
  WalkStat := fun _ path b => ((map (fun _ => statx0) path, nil_err), b);
  Open := fun fd flags h =>
    let (id, h') := openHandle fd flags h in (inr id, h');
  OpenCreate := fun fd _ _ _ name flags h =>
    match create RegularFile fd name h with
    | (inr ino, h1) =>
        let (id, h2) := openHandle (ino_ControlFD ino) flags h1 in
        (inr (ino, id), h2)
    | (inl e, h1) => (inl e, h1)
    end;
  Mkdir := fun fd _ _ _ name h => create Directory fd name h;
  Mknod := fun fd _ _ _ name _ _ h => create SpecialFile fd name h;
  Symlink := fun fd name _ _ _ h => create SymbolicLink fd name h;
  Link := fun _ dir name h => create RegularFile dir name h;
  Unlink := fun _ _ _ b => (nil_err, b);
  RenameLocked := fun _ _ _ b => (inr (None, None), b);
  SetXattr := fun _ _ _ _ b => (nil_err, b);
  RemoveXattr := fun _ _ b => (nil_err, b);
  Close := fun _ b => b;
  Sync := fun fd b =>
    (if existsb (Z.eqb fd) b then Some EIO else nil_err, b);
  Write := fun _ buf _ b => (inr (len buf), b);
  Allocate := fun _ _ _ _ b => (nil_err, b);
  Flush := fun _ b => (nil_err, b);
  Getdent64 := fun _ _ _ b => (([mkDirent64 1 1 8 "hosts"], nil_err), b)
|}.

(** A mounted connection: the root /srv (1) with the file hosts (2) and
    the directory etc (3) under it; 4 and 6 are open descriptors of the
    file, 5 of the directory, 7 of the file, read-only. The sync of 6
    fails. *)
Definition handles : gmap FDID genericFD :=
  list_to_map
    [ (1, IsControl (mkControlFD 1 Directory "/srv" None [2; 3]));
      (2, IsControl (mkControlFD 1 RegularFile "hosts" (Some 1) []));
      (3, IsControl (mkControlFD 1 Directory "etc" (Some 1) []));
      (4, IsOpen (mkOpenFD 1 2 RegularFile true true));
      (5, IsOpen (mkOpenFD 1 3 Directory true false));
      (6, IsOpen (mkOpenFD 1 2 RegularFile true true));
      (7, IsOpen (mkOpenFD 1 2 RegularFile true false)) ].

(** The connection with a request in the payload buffer. *)
Definition conn (ro : bool) (request : list byte) : @World Disk :=
  mkWorld ro true [1] (mkHeap handles [6]) request [].

Definition unmounted (request : list byte) : @World Disk :=
  mkWorld false false [] (mkHeap ∅ []) request [].

Definition refcount (id : FDID) (w : @World Disk) : option Z :=
  refs <$> table w !! id.

(** Requests. *)
Definition mountReq : list byte := put_str "/srv".
Definition fsyncReq : list byte := put_list put_u32 [4; 6; 7].
Definition pwriteReq : list byte :=
  put_u32 4 ++ put_u64 0 ++ put_bytes (list_byte_of_string "data").
Definition linkReq : list byte := put_u32 3 ++ put_u32 2 ++ put_str "alias".
Definition fallocateReq : list byte :=
  put_u32 4 ++ put_u64 0 ++ put_u64 0 ++ put_u64 16.
Definition mkdirReq : list byte :=
  put_u32 1 ++ put_u32 493 ++ put_u32 0 ++ put_u32 0 ++ put_str "new".
Definition openReq (fd flags : Z) : list byte := put_u32 fd ++ put_u32 flags.
Definition walkReq (fd : Z) (path : list string) : list byte :=
  put_u32 fd ++ put_list put_str path.
Definition getdentsReq (fd count : Z) : list byte :=
  put_u32 fd ++ put_u32 count.
Definition renameReq (renamed newDir : Z) (newName : string) : list byte :=
  put_u32 renamed ++ put_u32 newDir ++ put_str newName.

End Sample.

(** * A concrete codec and backend for the reading RPCs *)

Module ReadingSample.

Import Sample.

#[export] Instance dec_StatReq : Unmarshal StatReq.t := fun bs =>
  checked ('(fd, r) ← get_u32 bs; Some (StatReq.mk fd, r)).

#[export] Instance dec_CloseReq : Unmarshal CloseReq.t := fun bs =>
  checked ('(fds, r) ← get_list get_u32 bs; Some (CloseReq.mk fds, r)).

#[export] Instance dec_PReadReq : Unmarshal PReadReq.t := fun bs =>
  checked ('(fd, r) ← get_u32 bs; '(off, r) ← get_u64 r;
           '(count, r) ← get_u32 r; Some (PReadReq.mk fd off count, r)).

#[export] Instance dec_FStatFSReq : Unmarshal FStatFSReq.t := fun bs =>
  checked ('(fd, r) ← get_u32 bs; Some (FStatFSReq.mk fd, r)).

#[export] Instance dec_ReadLinkAtReq : Unmarshal ReadLinkAtReq.t := fun bs =>
  checked ('(fd, r) ← get_u32 bs; Some (ReadLinkAtReq.mk fd, r)).

#[export] Instance dec_ConnectReq : Unmarshal ConnectReq.t := fun bs =>
  checked ('(fd, r) ← get_u32 bs; '(sockType, r) ← get_u32 r;
           Some (ConnectReq.mk fd sockType, r)).

#[export] Instance dec_FGetXattrReq : Unmarshal FGetXattrReq.t := fun bs =>
  checked ('(fd, r) ← get_u32 bs; '(name, r) ← get_str r;
           '(bufSize, r) ← get_u32 r;
           Some (FGetXattrReq.mk fd name bufSize, r)).

#[export] Instance dec_FListXattrReq : Unmarshal FListXattrReq.t := fun bs =>
  checked ('(fd, r) ← get_u32 bs; '(size, r) ← get_u64 r;
           Some (FListXattrReq.mk fd size, r)).

#[export] Instance enc_StatFS : Marshal StatFS :=
  marshal_with (fun r => put_u64 (sfs_Type r) ++ put_u64 (sfs_BlockSize r) ++
                         put_u64 (sfs_Blocks r) ++ put_u64 (sfs_Files r)).

#[export] Instance enc_Inode : Marshal Inode := marshal_with put_inode.

(** The sizes of a marshalled walk status and inode in this format. *)
Definition walkStatusSize : Z := 1.
Definition inodeSize : Z := 4 + SizeOfStatx.

Definition childNamed (t : gmap FDID genericFD) (dir : FDID) (n : string)
    : option FDID :=
  match t !! dir with
  | Some (IsControl c) =>
      List.find (fun child =>
                   match t !! child with
                   | Some (IsControl cc) => String.eqb (name cc) n
                   | _ => false
                   end) (children c)
  | _ => None
  end.

(** A walk over the handles there are: the status is 0 when every
    component was found and 1 when one was not. *)
Fixpoint walkPath (t : gmap FDID genericFD) (cur : FDID) (path : list string)
    : Z * list Inode :=
  match path with
  | [] => (0, [])
  | n :: rest =>
      match childNamed t cur n with
      | Some child =>
          let (status, inodes) := walkPath t child rest in
          (status, mkInode child statx0 :: inodes)
      | None => (1, [])
      end
  end.

(** The backend of the reading RPCs: a read of descriptor 7 fails with
    EIO, every other read gives the bytes of "localhost", cut to the
    length asked for. *)
Definition reading : @Reading.Impl Disk := {|
  Reading.ControlStat := fun fd b => (inr (mkStatx 1 0 fd 0), b);
  Reading.OpenStat := fun fd b => (inr (mkStatx 2 0 fd 9), b);
  Reading.Walk := fun fd path h => (walkPath (fds h) fd path, nil_err, h);
  Reading.StatFS := fun _ b => (inr (mkStatFS 61267 4096 1024 64), b);
  Reading.Readlink := fun _ b =>
    (([128], inr (list_byte_of_string "hosts")), b);
  Reading.Connect := fun _ _ b => (nil_err, b);
  Reading.GetXattr := fun _ _ n b =>
    (inr (take (Z.to_nat n) (list_byte_of_string "value")), b);
  Reading.ListXattr := fun _ _ b => ((0, nil_err), b);
  Reading.Read := fun fd _ n b =>
    (if fd =? 7 then inl EIO
     else inr (take (Z.to_nat n) (list_byte_of_string "localhost")), b)
|}.

(** The control handles of [handles]. *)
Definition srv : ControlFD := mkControlFD 1 Directory "/srv" None [2; 3].
Definition hosts : ControlFD := mkControlFD 1 RegularFile "hosts" (Some 1) [].
Definition etc : ControlFD := mkControlFD 1 Directory "etc" (Some 1) [].

(** A backend as [impl] that refuses every rename with EPERM. *)
Definition refusing : @ServerImpl Disk := {|
  Mount := Mount impl;
  SupportedMessages := SupportedMessages impl;
  MaxMessageSize := MaxMessageSize impl;
  SetStat := SetStat impl;
  WalkStat := WalkStat impl;
  Open := Open impl;
  OpenCreate := OpenCreate impl;
  Mkdir := Mkdir impl;
  Mknod := Mknod impl;
  Symlink := Symlink impl;
  Link := Link impl;
  Unlink := Unlink impl;
  RenameLocked := fun _ _ _ b => (inl EPERM, b);
  SetXattr := SetXattr impl;
  RemoveXattr := RemoveXattr impl;
  Close := Close impl;
  Sync := Sync impl;
  Write := Write impl;
  Allocate := Allocate impl;
  Flush := Flush impl;
  Getdent64 := Getdent64 impl
|}.

(** Requests. *)
Definition statReq (fd : Z) : list byte := put_u32 fd.
Definition flushReq (fd : Z) : list byte := put_u32 fd.
Definition fallocateOn (fd : Z) : list byte :=
  put_u32 fd ++ put_u64 0 ++ put_u64 0 ++ put_u64 16.
Definition closeReq (fds : list Z) : list byte := put_list put_u32 fds.
Definition preadReq (fd off count : Z) : list byte :=
  put_u32 fd ++ put_u64 off ++ put_u32 count.
Definition connectReq (fd sockType : Z) : list byte :=
  put_u32 fd ++ put_u32 sockType.
Definition fgetxattrReq (fd : Z) (n : string) (bufSize : Z) : list byte :=
  put_u32 fd ++ put_str n ++ put_u32 bufSize.
Definition flistxattrReq (fd size : Z) : list byte :=
  put_u32 fd ++ put_u64 size.
Definition setStatReq (fd mask : Z) : list byte :=
  put_u32 fd ++ put_u32 mask ++ put_u32 420 ++ put_u32 0 ++ put_u32 0 ++
  put_u64 0 ++ put_u64 0 ++ put_u64 0.
Definition mkdirAtReq (fd : Z) (n : string) : list byte :=
  put_u32 fd ++ put_u32 493 ++ put_u32 0 ++ put_u32 0 ++ put_str n.

End ReadingSample.

(** * The handlers *)

Section Lisafs.

Context {B : Type} (impl : @ServerImpl B).

Local Abbreviation Heap := (@Heap B).
Local Abbreviation World := (@World B).

(** ** The handler monad

    A statement either falls through to the next one with a value or
    returns from the handler with a length and an error. *)

Inductive Outcome (A : Type) :=
| Continue (a : A)
| Return (n : Z) (err : error).
Arguments Continue {A} a.
Arguments Return {A} n err.

(** A call that comes back with a value, and a statement of a handler. *)
Definition M (A : Type) := World -> A * World.

Definition Go (A : Type) := World -> Outcome A * World.

Definition ret {A} (a : A) : Go A := fun w => (Continue a, w).

Definition bind {A C} (m : Go A) (k : A -> Go C) : Go C :=
  fun w =>
    match m w with
    | (Continue a, w') => k a w'
    | (Return n err, w') => (Return n err, w')
    end.

Definition return_ {A} (n : Z) (err : error) : Go A :=
  fun w => (Return n err, w).

Definition lift {A} (m : M A) : Go A :=
  fun w => let (a, w') := m w in (Continue a, w').

(** [x, err := m; if err != nil { return 0, err }]. *)
Definition orReturn {A} (m : M (Errno + A)) : Go A :=
  fun w =>
    match m w with
    | (inl e, w') => (Return 0 (Some e), w')
    | (inr a, w') => (Continue a, w')
    end.

(** [if cond { return n, err }]. *)
Definition returnIf (cond : bool) (n : Z) (err : error) : Go unit :=
  if cond then return_ n err else ret tt.

(** [defer cleanup()] followed by the rest of the function. *)
Definition defer {A} (cleanup : World -> World) (body : Go A) : Go A :=
  fun w => let (o, w') := body w in (o, cleanup w').

Definition read {A} (f : World -> A) : Go A := fun w => (Continue (f w), w).

Definition modify (f : World -> World) : Go unit :=
  fun w => (Continue tt, f w).

(** A handler: the payload length comes in, a length and an error go out. *)
Definition RPCHandler := Z -> World -> (Z * error) * World.

Definition run (body : Go Empty_set) : World -> (Z * error) * World :=
  fun w =>
    match body w with
    | (Continue a, _) => match a with end
    | (Return n err, w') => ((n, err), w')
    end.

Declare Scope go_scope.
Delimit Scope go_scope with go.
Notation "x <- m ;; k" := (bind m (fun x => k))
  (at level 100, m at next level, right associativity) : go_scope.
Notation "m ;; k" := (bind m (fun _ => k))
  (at level 100, right associativity) : go_scope.
Local Open Scope go_scope.

(** ** The communicator *)

Definition grow (size : nat) (buf : list byte) : list byte :=
  buf ++ replicate (size - length buf) zero_byte.

(** Modelled from the spec: the transport is not part of this package;
    [PayloadBuf(n)] gives the first [n] bytes of the reusable per-message
    buffer, which grows (with zero bytes) when it is shorter. A slice
    written by a handler aliases the buffer. *)
Definition PayloadBuf (size : Z) : M (list byte) :=
  fun w =>
    let buf := grow (Z.to_nat size) (payload w) in
    (take (Z.to_nat size) buf, log (EvPayloadBuf size) (set_payload buf w)).

(** Copy [bs] over the buffer from position [pos] on (a marshalling into
    the slice [payloadBuf[pos:]]). *)
Definition store (pos : Z) (bs : list byte) (w : World) : World :=
  let buf := payload w in
  let p := Z.to_nat pos in
  set_payload (take p buf ++ bs ++ drop (p + length bs) buf) w.

(** [req.CheckedUnmarshal(comm.PayloadBuf(payloadLen))], with the return of
    EIO when the layout does not match. *)
Definition unmarshal {R} `{Unmarshal R} (payloadLen : Z) : Go R :=
  fun w =>
    let (buf, w') := PayloadBuf payloadLen w in
    match CheckedUnmarshal buf with
    | Some req => (Continue req, w')
    | None => (Return 0 (Some EIO), w')
    end.

(** [respLen := uint32(resp.SizeBytes());
     resp.MarshalUnsafe(comm.PayloadBuf(respLen)); return respLen, nil]. *)
Definition respond {A R} `{Marshal R} (resp : R) : Go A :=
  let respLen := uint32 (SizeBytes resp) in
  _ <- lift (PayloadBuf respLen) ;;
  modify (store 0 (MarshalBytes resp)) ;;
  return_ respLen nil_err.

(** ** The descriptor table *)

Definition set_table (t : gmap FDID genericFD) (w : World) : World :=
  set_heap (set_fds t (heap w)) w.

Definition control (id : FDID) (w : World) : option ControlFD :=
  match table w !! id with
  | Some (IsControl fd) => Some fd
  | _ => None
  end.

Definition opened (id : FDID) (w : World) : option OpenFD :=
  match table w !! id with
  | Some (IsOpen fd) => Some fd
  | _ => None
  end.

(** Modelled from the spec: [LookupControlFD(id)] fails with bad-FD if
    [id] is absent or refers to an open handle, and increments the
    refcount otherwise (connection.go is not among the sources). *)
Definition LookupControlFD (id : FDID) : M (Errno + FDID) :=
  fun w =>
    match table w !! id with
    | Some (IsControl fd) =>
        (inr id, log (EvLookup id true)
                   (set_table (<[id := IncRef (IsControl fd)]> (table w)) w))
    | _ => (inl EBADF, log (EvLookup id false) w)
    end.

(** Modelled from the spec: [LookupOpenFD(id)] is symmetric for open
    handles. *)
Definition LookupOpenFD (id : FDID) : M (Errno + FDID) :=
  fun w =>
    match table w !! id with
    | Some (IsOpen fd) =>
        (inr id, log (EvLookup id true)
                   (set_table (<[id := IncRef (IsOpen fd)]> (table w)) w))
    | _ => (inl EBADF, log (EvLookup id false) w)
    end.

(** Remove [id] from the children of [p]. *)
Definition removeChild (id : FDID) (p : option FDID)
    (t : gmap FDID genericFD) : gmap FDID genericFD :=
  match p with
  | None => t
  | Some pid =>
      match t !! pid with
      | Some (IsControl pfd) =>
          <[pid := IsControl
             (set_children (filter (fun c => c <> id) (children pfd)) pfd)]> t
      | _ => t
      end
  end.

(** Modelled from the spec: when its refcount drops to zero a handle is
    unregistered, a control handle is removed from its parent's children,
    and the backend resources are released. *)
Definition destroy (id : FDID) (fd : genericFD) (w : World) : World :=
  let t := delete id (table w) in
  let t' := match fd with
            | IsControl c => removeChild id (parent c) t
            | IsOpen _ => t
            end in
  let w' := log (EvImpl (CallClose id)) (set_table t' w) in
  set_heap (set_impl_state (Close impl id (impl_state (heap w'))) (heap w')) w'.

(** Modelled from the spec: [DecRef] releases a lookup reference. *)
Definition DecRef (id : FDID) (w : World) : World :=
  let w := log (EvDecRef id) w in
  match table w !! id with
  | Some fd =>
      if refs fd - 1 <=? 0 then destroy id fd w
      else set_table (<[id := set_refs (refs fd - 1) fd]> (table w)) w
  | None => w
  end.

(** Modelled from the spec: the kind check of a control handle; like the
    reads of fields below it is made on the handle as the table has it. *)
Definition IsDir (fd : FDID) (w : World) : bool :=
  match control fd w with
  | Some c => Kind_eqb (ftype c) Directory
  | None => false
  end.

Definition fd_parent (fd : FDID) (w : World) : option FDID :=
  match control fd w with
  | Some c => parent c
  | None => None
  end.

Definition fd_name (fd : FDID) (w : World) : string :=
  match control fd w with
  | Some c => name c
  | None => ""
  end.

Definition fd_children (fd : FDID) (w : World) : list FDID :=
  match control fd w with
  | Some c => children c
  | None => []
  end.

Definition fd_writable (fd : FDID) (w : World) : bool :=
  match opened fd w with
  | Some o => writable o
  | None => false
  end.

Definition fd_readable (fd : FDID) (w : World) : bool :=
  match opened fd w with
  | Some o => readable o
  | None => false
  end.

(** [fd.controlFD.IsDir()]: the kind check of the control handle an open
    handle points to, read through the pointer. *)
Definition controlFD_IsDir (fd : FDID) (w : World) : bool :=
  match opened fd w with
  | Some o => Kind_eqb (controlFD_ftype o) Directory
  | None => false
  end.

(** Modelled from the spec: a handle's path is computed by walking the
    parent pointers; the path of a handle is its parent's path, "/" and
    its name, and a mount root's path is its name. *)
Fixpoint filePath (fuel : nat) (t : gmap FDID genericFD) (id : FDID) : string :=
  match t !! id with
  | Some (IsControl fd) =>
      match parent fd, fuel with
      | Some p, S fuel' => filePath fuel' t p +:+ "/" +:+ name fd
      | _, _ => name fd
      end
  | _ => ""
  end.

Definition FilePathLocked (fd : FDID) (w : World) : string :=
  filePath (size (table w)) (table w) fd.

(** ** Calls into the backend

    A call is recorded in the trace, then made: [callB] for a capability
    on the backend state, [callH] for one that works on the handles too. *)

Definition callB {R} (c : Call) (op : B -> R * B) : M R :=
  fun w =>
    let w' := log (EvImpl c) w in
    let (r, b) := op (impl_state (heap w')) in
    (r, set_heap (set_impl_state b (heap w')) w').

Definition callH {R} (c : Call) (op : Heap -> R * Heap) : M R :=
  fun w =>
    let w' := log (EvImpl c) w in
    let (r, h) := op (heap w') in
    (r, set_heap h w').

(** An error result of the backend returned as it is: [return 0, err]. *)
Definition return0 {A} (m : M error) : Go A :=
  fun w => let (err, w') := m w in (Return 0 err, w').

(** [if err := checkSafeName(name); err != nil { return 0, err }]. *)
Definition checkName (name : string) : Go unit :=
  match checkSafeName name with
  | Some e => return_ 0 (Some e)
  | None => ret tt
  end.

(** ** Paths (packages path, path/filepath and fspath) *)

(** The pieces of [s] between the occurrences of '/'. *)
Fixpoint splitSlash (s : string) : list string :=
  match s with
  | EmptyString => [""]
  | String c s' =>
      if Ascii.eqb c "/"%char then "" :: splitSlash s'
      else match splitSlash s' with
           | [] => [String c ""]
           | x :: xs => String c x :: xs
           end
  end.

Fixpoint joinSlash (l : list string) : string :=
  match l with
  | [] => ""
  | [x] => x
  | x :: l' => x +:+ "/" +:+ joinSlash l'
  end.

(** One element of a path seen by [path.Clean]; [out] holds the elements
    kept so far, the last one first. *)
Definition cleanStep (rooted : bool) (out : list string) (elem : string)
    : list string :=
  if String.eqb elem "" || String.eqb elem "." then out
  else if String.eqb elem ".." then
    match out with
    | top :: rest => if String.eqb top ".." then elem :: out else rest
    | [] => if rooted then [] else [elem]
    end
  else elem :: out.

(** [path.Clean]: the shortest path equivalent to [p] by lexical
    processing: no empty element, no ".", no inner "..", no ".." at the
    start of a rooted path; "." for the empty path. *)
Definition path_Clean (p : string) : string :=
  if String.eqb p "" then "."
  else
    let rooted := Strings.HasPrefix p "/" in
    let out := fold_left (cleanStep rooted) (splitSlash p) [] in
    let body := joinSlash (rev out) in
    if rooted then "/" +:+ body
    else if String.eqb body "" then "." else body.

(** [filepath.IsAbs] on Unix. *)
Definition filepath_IsAbs (p : string) : bool := Strings.HasPrefix p "/".

(** [s[n:]]. *)
Fixpoint string_drop (n : nat) (s : string) : string :=
  match n, s with
  | O, _ => s
  | S n', String _ s' => string_drop n' s'
  | S _, EmptyString => EmptyString
  end.

(** Modelled from the spec: package fspath is not among the sources; the
    iterator of [fspath.Parse(p).Begin] goes over the components of [p],
    the non-empty pieces between slashes. *)
Definition fspath_Parse (p : string) : list string :=
  filter (fun c => c <> "") (splitSlash p).

(** [p9.ExtractErrno]: the errno of an error, 0 for nil. *)
Definition ExtractErrno (err : error) : Z :=
  match err with
  | Some e => e
  | None => 0
  end.

(** ** The handlers *)

Context `{!Unmarshal MountReq.t, !Marshal MountResp.t}.
Context `{!Unmarshal SetStatReq.t, !Marshal SetStatResp.t}.
Context `{!Unmarshal WalkReq.t, !Marshal Statx}.
Context `{!Unmarshal OpenAtReq.t, !Marshal OpenAtResp.t}.
Context `{!Unmarshal OpenCreateAtReq.t, !Marshal OpenCreateAtResp.t}.
Context `{!Unmarshal FsyncReq.t}.
Context `{!Unmarshal PWriteReq.t, !Marshal PWriteResp.t}.
Context `{!Unmarshal MkdirAtReq.t, !Marshal MkdirAtResp.t}.
Context `{!Unmarshal MknodAtReq.t, !Marshal MknodAtResp.t}.
Context `{!Unmarshal SymlinkAtReq.t, !Marshal SymlinkAtResp.t}.
Context `{!Unmarshal LinkAtReq.t, !Marshal LinkAtResp.t}.
Context `{!Unmarshal FAllocateReq.t}.
Context `{!Unmarshal FlushReq.t}.
Context `{!Unmarshal UnlinkAtReq.t}.
Context `{!Unmarshal RenameAtReq.t}.
Context `{!Unmarshal Getdents64Req.t, !Marshal Dirent64}.
Context `{!Unmarshal FSetXattrReq.t}.
Context `{!Unmarshal FRemoveXattrReq.t}.

(** ErrorHandler handles Error message. *)
Definition ErrorHandler : RPCHandler :=
  fun payloadLen => run (return_ 0 (Some EINVAL)).

(** Modelled from the spec: the server keeps the set of mount-point root
    descriptors, which only grows. *)
Definition addMountPoint (fd : FDID) (w : World) : World :=
  set_mountPoints (mountPoints w ++ [fd]) w.

(** MountHandler handles the Mount RPC. *)
Definition MountHandler : RPCHandler :=
  fun payloadLen => run (
    req <- unmarshal payloadLen ;;
    let mountPath := path_Clean (MountReq.MountPath req) in
    returnIf (negb (filepath_IsAbs mountPath)) 0 (Some EINVAL) ;;
    is_mounted <- read mounted ;;
    returnIf is_mounted 0 (Some EBUSY) ;;
    root <- orReturn (callH (CallMount mountPath) (Mount impl mountPath)) ;;
    let rootFD := fst root in
    let rootIno := snd root in
    modify (addMountPoint rootFD) ;;
    modify (set_mounted true) ;;
    respond (MountResp.mk rootIno (SupportedMessages impl)
               (uint32 (MaxMessageSize impl)))).

(** SetStatHandler handles the SetStat RPC. *)
Definition SetStatHandler : RPCHandler :=
  fun payloadLen => run (
    ro <- read readonly ;;
    returnIf ro 0 (Some EROFS) ;;
    req <- unmarshal payloadLen ;;
    fd <- orReturn (LookupControlFD (SetStatReq.FD req)) ;;
    defer (DecRef fd) (
      returnIf (negb (Z.ldiff (SetStatReq.Mask req) setStatSupportedMask =? 0))
        0 (Some EPERM) ;;
      failure <- lift (callB (CallSetStat fd req) (SetStat impl fd req)) ;;
      respond (SetStatResp.mk (fst failure)
                 (uint32 (ExtractErrno (snd failure)))))).

(** The callback of WalkStat: marshal one statx at the position and move
    the position and the count on. *)
Definition recordStat (cur : Z * Z) (s : Statx) : M (Z * Z) :=
  fun w =>
    let (payloadPos, numStats) := cur in
    ((payloadPos + SizeBytes s, uint32 (numStats + 1)),
     store payloadPos (MarshalBytes s) w).

Fixpoint forEach {A S} (f : S -> A -> M S) (l : list A) (s : S) : M S :=
  fun w =>
    match l with
    | [] => (s, w)
    | a :: l' => let (s', w') := f s a w in forEach f l' s' w'
    end.

(** The name checks of WalkStat; the first component is allowed to be "". *)
Fixpoint checkWalkStatNames (i : nat) (names : list string) : error :=
  match names with
  | [] => nil_err
  | n :: names' =>
      if Nat.eqb i 0 && (Z.of_nat (String.length n) =? 0)
      then checkWalkStatNames (S i) names'
      else match checkSafeName n with
           | Some e => Some e
           | None => checkWalkStatNames (S i) names'
           end
  end.

(** WalkStatHandler handles the WalkStat RPC. *)
Definition WalkStatHandler : RPCHandler :=
  fun payloadLen => run (
    req <- unmarshal payloadLen ;;
    fd <- orReturn (LookupControlFD (WalkReq.DirFD req)) ;;
    defer (DecRef fd) (
      let path := WalkReq.Path req in
      isDir <- read (IsDir fd) ;;
      returnIf (negb isDir &&
                ((len path >? 1) ||
                 match path with
                 | [p0] => Z.of_nat (String.length p0) >? 0
                 | _ => false
                 end)) 0 (Some ENOTDIR) ;;
      match checkWalkStatNames 0 path with
      | Some e => return_ 0 (Some e)
      | None =>
          let maxPayloadSize := 4 + len path * SizeOfStatx in
          returnIf (maxPayloadSize >? MaxUint32) 0 (Some EIO) ;;
          _ <- lift (PayloadBuf (uint32 maxPayloadSize)) ;;
          res <- lift (callB (CallWalkStat fd path) (WalkStat impl fd path)) ;;
          cur <- lift (forEach recordStat (fst res) (4, 0)) ;;
          match snd res with
          | Some e => return_ 0 (Some e)
          | None =>
              modify (store 0 (le_bytes 4 (snd cur))) ;;
              return_ (uint32 (fst cur)) nil_err
          end
      end)).

(** OpenAtHandler handles the OpenAt RPC. *)
Definition OpenAtHandler : RPCHandler :=
  fun payloadLen => run (
    req <- unmarshal payloadLen ;;
    (* Only keep allowed open flags. *)
    let allowedFlags := Z.land (OpenAtReq.Flags req) allowedOpenFlags in
    let flags := if negb (allowedFlags =? OpenAtReq.Flags req)
                 then allowedFlags else OpenAtReq.Flags req in
    let accessMode := Z.land flags O_ACCMODE in
    let trunc := negb (Z.land flags O_TRUNC =? 0) in
    ro <- read readonly ;;
    returnIf (ro && (negb (accessMode =? O_RDONLY) || trunc))
      0 (Some EROFS) ;;
    fd <- orReturn (LookupControlFD (OpenAtReq.FD req)) ;;
    defer (DecRef fd) (
      isDir <- read (IsDir fd) ;;
      (* Directory is not truncatable and must be opened with O_RDONLY. *)
      returnIf (isDir && (negb (accessMode =? O_RDONLY) || trunc))
        0 (Some EISDIR) ;;
      openFD <- orReturn (callH (CallOpen fd flags) (Open impl fd flags)) ;;
      respond (OpenAtResp.mk openFD))).

(** OpenCreateAtHandler handles the OpenCreateAt RPC. *)
Definition OpenCreateAtHandler : RPCHandler :=
  fun payloadLen => run (
    ro <- read readonly ;;
    returnIf ro 0 (Some EROFS) ;;
    req <- unmarshal payloadLen ;;
    (* Only keep allowed open flags. *)
    let allowedFlags := Z.land (OpenCreateAtReq.Flags req) allowedOpenFlags in
    let flags := if negb (allowedFlags =? OpenCreateAtReq.Flags req)
                 then allowedFlags else OpenCreateAtReq.Flags req in
    let name := OpenCreateAtReq.Name req in
    checkName name ;;
    fd <- orReturn (LookupControlFD (OpenCreateAtReq.DirFD req)) ;;
    defer (DecRef fd) (
      isDir <- read (IsDir fd) ;;
      returnIf (negb isDir) 0 (Some ENOTDIR) ;;
      let mode := OpenCreateAtReq.Mode req in
      let uid := OpenCreateAtReq.UID req in
      let gid := OpenCreateAtReq.GID req in
      res <- orReturn (callH (CallOpenCreate fd mode uid gid name (uint32 flags))
                         (OpenCreate impl fd mode uid gid name (uint32 flags))) ;;
      respond (OpenCreateAtResp.mk (fst res) (snd res)))).

Definition fsyncFD (id : FDID) : M error :=
  fun w =>
    match LookupOpenFD id w with
    | (inl err, w') => (Some err, w')
    | (inr fd, w') => callB (CallSync fd) (Sync impl fd) w'
    end.

(** The body of the loop of FSyncHandler. *)
Definition fsyncStep (retErr : error) (fdid : FDID) : M error :=
  fun w =>
    let (err, w') := fsyncFD fdid w in
    (match err, retErr with
     | Some e, None => Some e
     | _, _ => retErr
     end, w').

(** FSyncHandler handles the FSync RPC. *)
Definition FSyncHandler : RPCHandler :=
  fun payloadLen => run (
    req <- unmarshal payloadLen ;;
    (* Return the first error we encounter, but sync everything we can
       regardless. *)
    retErr <- lift (forEach fsyncStep (FsyncReq.FDs req) nil_err) ;;
    (* There is no response message for this. *)
    return_ 0 retErr).

(** PWriteHandler handles the PWrite RPC. *)
Definition PWriteHandler : RPCHandler :=
  fun payloadLen => run (
    ro <- read readonly ;;
    returnIf ro 0 (Some EROFS) ;;
    req <- unmarshal payloadLen ;;
    fd <- orReturn (LookupOpenFD (PWriteReq.FD req)) ;;
    writable <- read (fd_writable fd) ;;
    returnIf (negb writable) 0 (Some EBADF) ;;
    let buf := PWriteReq.Buf req in
    let offset := uint64 (PWriteReq.Offset req) in
    count <- orReturn (callB (CallWrite fd buf offset)
                         (Write impl fd buf offset)) ;;
    respond (PWriteResp.mk count)).

(** MkdirAtHandler handles the MkdirAt RPC. *)
Definition MkdirAtHandler : RPCHandler :=
  fun payloadLen => run (
    ro <- read readonly ;;
    returnIf ro 0 (Some EROFS) ;;
    req <- unmarshal payloadLen ;;
    let name := MkdirAtReq.Name req in
    checkName name ;;
    fd <- orReturn (LookupControlFD (MkdirAtReq.DirFD req)) ;;
    defer (DecRef fd) (
      isDir <- read (IsDir fd) ;;
      returnIf (negb isDir) 0 (Some ENOTDIR) ;;
      let mode := MkdirAtReq.Mode req in
      let uid := MkdirAtReq.UID req in
      let gid := MkdirAtReq.GID req in
      childDir <- orReturn (callH (CallMkdir fd mode uid gid name)
                              (Mkdir impl fd mode uid gid name)) ;;
      respond (MkdirAtResp.mk childDir))).

(** MknodAtHandler handles the MknodAt RPC. *)
Definition MknodAtHandler : RPCHandler :=
  fun payloadLen => run (
    ro <- read readonly ;;
    returnIf ro 0 (Some EROFS) ;;
    req <- unmarshal payloadLen ;;
    let name := MknodAtReq.Name req in
    checkName name ;;
    fd <- orReturn (LookupControlFD (MknodAtReq.DirFD req)) ;;
    defer (DecRef fd) (
      isDir <- read (IsDir fd) ;;
      returnIf (negb isDir) 0 (Some ENOTDIR) ;;
      let mode := MknodAtReq.Mode req in
      let uid := MknodAtReq.UID req in
      let gid := MknodAtReq.GID req in
      let minor := uint32 (MknodAtReq.Minor req) in
      let major := uint32 (MknodAtReq.Major req) in
      child <- orReturn (callH (CallMknod fd mode uid gid name minor major)
                           (Mknod impl fd mode uid gid name minor major)) ;;
      respond (MknodAtResp.mk child))).

(** SymlinkAtHandler handles the SymlinkAt RPC. *)
Definition SymlinkAtHandler : RPCHandler :=
  fun payloadLen => run (
    ro <- read readonly ;;
    returnIf ro 0 (Some EROFS) ;;
    req <- unmarshal payloadLen ;;
    let name := SymlinkAtReq.Name req in
    checkName name ;;
    fd <- orReturn (LookupControlFD (SymlinkAtReq.DirFD req)) ;;
    defer (DecRef fd) (
      isDir <- read (IsDir fd) ;;
      returnIf (negb isDir) 0 (Some ENOTDIR) ;;
      let target := SymlinkAtReq.Target req in
      let uid := SymlinkAtReq.UID req in
      let gid := SymlinkAtReq.GID req in
      symlink <- orReturn (callH (CallSymlink fd name target uid gid)
                             (Symlink impl fd name target uid gid)) ;;
      respond (SymlinkAtResp.mk symlink))).

(** LinkAtHandler handles the LinkAt RPC. *)
Definition LinkAtHandler : RPCHandler :=
  fun payloadLen => run (
    ro <- read readonly ;;
    returnIf ro 0 (Some EROFS) ;;
    req <- unmarshal payloadLen ;;
    let name := LinkAtReq.Name req in
    checkName name ;;
    fd <- orReturn (LookupControlFD (LinkAtReq.DirFD req)) ;;
    defer (DecRef fd) (
      isDir <- read (IsDir fd) ;;
      returnIf (negb isDir) 0 (Some ENOTDIR) ;;
      targetFD <- orReturn (LookupControlFD (LinkAtReq.Target req)) ;;
      link <- orReturn (callH (CallLink targetFD fd name)
                          (Link impl targetFD fd name)) ;;
      respond (LinkAtResp.mk link))).

(** FAllocateHandler handles the FAllocate RPC. *)
Definition FAllocateHandler : RPCHandler :=
  fun payloadLen => run (
    ro <- read readonly ;;
    returnIf ro 0 (Some EROFS) ;;
    req <- unmarshal payloadLen ;;
    fd <- orReturn (LookupOpenFD (FAllocateReq.FD req)) ;;
    defer (DecRef fd) (
      writable <- read (fd_writable fd) ;;
      returnIf (negb writable) 0 (Some EBADF) ;;
      let mode := FAllocateReq.Mode req in
      let offset := FAllocateReq.Offset req in
      let length := FAllocateReq.Length req in
      return0 (callB (CallAllocate fd mode offset length)
                 (Allocate impl fd mode offset length)))).

(** FlushHandler handles the Flush RPC. *)
Definition FlushHandler : RPCHandler :=
  fun payloadLen => run (
    req <- unmarshal payloadLen ;;
    fd <- orReturn (LookupOpenFD (FlushReq.FD req)) ;;
    defer (DecRef fd) (
      return0 (callB (CallFlush fd) (Flush impl fd)))).

(** UnlinkAtHandler handles the UnlinkAt RPC. *)
Definition UnlinkAtHandler : RPCHandler :=
  fun payloadLen => run (
    ro <- read readonly ;;
    returnIf ro 0 (Some EROFS) ;;
    req <- unmarshal payloadLen ;;
    let name := UnlinkAtReq.Name req in
    checkName name ;;
    fd <- orReturn (LookupControlFD (UnlinkAtReq.DirFD req)) ;;
    defer (DecRef fd) (
      isDir <- read (IsDir fd) ;;
      returnIf (negb isDir) 0 (Some ENOTDIR) ;;
      let flags := uint32 (UnlinkAtReq.Flags req) in
      return0 (callB (CallUnlink fd name flags) (Unlink impl fd name flags)))).

(** FSetXattrHandler handles the FSetXattr RPC. *)
Definition FSetXattrHandler : RPCHandler :=
  fun payloadLen => run (
    ro <- read readonly ;;
    returnIf ro 0 (Some EROFS) ;;
    req <- unmarshal payloadLen ;;
    fd <- orReturn (LookupControlFD (FSetXattrReq.FD req)) ;;
    defer (DecRef fd) (
      let name := FSetXattrReq.Name req in
      let value := FSetXattrReq.Value req in
      let flags := uint32 (FSetXattrReq.Flags req) in
      return0 (callB (CallSetXattr fd name value flags)
                 (SetXattr impl fd name value flags)))).

(** FRemoveXattrHandler handles the FRemoveXattr RPC. *)
Definition FRemoveXattrHandler : RPCHandler :=
  fun payloadLen => run (
    ro <- read readonly ;;
    returnIf ro 0 (Some EROFS) ;;
    req <- unmarshal payloadLen ;;
    fd <- orReturn (LookupControlFD (FRemoveXattrReq.FD req)) ;;
    defer (DecRef fd) (
      let name := FRemoveXattrReq.Name req in
      return0 (callB (CallRemoveXattr fd name) (RemoveXattr impl fd name)))).

(** *** Rename *)

Definition update_control (id : FDID) (f : ControlFD -> ControlFD)
    (w : World) : World :=
  match control id w with
  | Some c => set_table (<[id := IsControl (f c)]> (table w)) w
  | None => w
  end.

(** Modelled from the spec: the handle leaves the children of its parent. *)
Definition clearParentLocked (fd : FDID) (w : World) : World :=
  update_control fd (set_parent None)
    (set_table (removeChild fd (fd_parent fd w) (table w)) w).

(** Modelled from the spec: the handle is linked under [p]. *)
Definition setParentLocked (fd p : FDID) (w : World) : World :=
  update_control p (fun c => set_children (children c ++ [fd]) c)
    (update_control fd (set_parent (Some p)) w).

(** The callback [updateControlFD] that RenameLocked handed out. *)
Definition runUpdate (update : option (FDID -> B -> B)) (fd : FDID)
    (w : World) : World :=
  match update with
  | Some f => snd (callB (CallUpdateControlFD fd)
                     (fun b => (tt, f fd b)) w)
  | None => w
  end.

(** Precondition: rename mutex must be locked for writing. The children
    are visited in the order of the list. *)
Fixpoint renameRecursiveLocked (newDir : FDID) (newName : string)
    (pit : list string) (updateControlFD : option (FDID -> B -> B))
    (fd : FDID) (w : World) : World :=
  match pit with
  | [] =>
      (* fd should be renamed. *)
      let w1 := clearParentLocked fd w in
      let w2 := setParentLocked fd newDir w1 in
      let w3 := update_control fd (set_name newName) w2 in
      runUpdate updateControlFD fd w3
  | cur :: next =>
      fold_left
        (fun w' child =>
           if String.eqb (fd_name child w') cur
           then renameRecursiveLocked newDir newName next updateControlFD
                  child w'
           else w')
        (fd_children fd w) w
  end.

(** The function RenameAtHandler runs on every mount point. *)
Definition renameUnderRoot (oldPath : string) (newDir : FDID)
    (newName : string) (updateControlFD : option (FDID -> B -> B))
    (w : World) (root : FDID) : World :=
  let rootName := fd_name root w in
  if negb (Strings.HasPrefix oldPath rootName) then w
  else
    let pit := fspath_Parse (string_drop (String.length rootName) oldPath) in
    renameRecursiveLocked newDir newName pit updateControlFD root w.

Definition forEachMountPoint (f : World -> FDID -> World) (w : World)
    : World :=
  fold_left f (mountPoints w) w.

Definition runCleanUp (cleanUp : option (B -> B)) (w : World) : World :=
  match cleanUp with
  | Some f => snd (callB CallCleanUp (fun b => (tt, f b)) w)
  | None => w
  end.

(** RenameAtHandler handles the RenameAt RPC. *)
Definition RenameAtHandler : RPCHandler :=
  fun payloadLen => run (
    ro <- read readonly ;;
    returnIf ro 0 (Some EROFS) ;;
    req <- unmarshal payloadLen ;;
    let newName := RenameAtReq.NewName req in
    checkName newName ;;
    renamed <- orReturn (LookupControlFD (RenameAtReq.Renamed req)) ;;
    defer (DecRef renamed) (
      newDir <- orReturn (LookupControlFD (RenameAtReq.NewDir req)) ;;
      defer (DecRef newDir) (
        isDir <- read (IsDir newDir) ;;
        returnIf (negb isDir) 0 (Some ENOTDIR) ;;
        (* Hold RenameMu for writing during rename, this is important. *)
        modify (log EvLock) ;;
        defer (log EvUnlock) (
          renamedParent <- read (fd_parent renamed) ;;
          match renamedParent with
          | None =>
              (* renamed is root. *)
              return_ 0 (Some EBUSY)
          | Some parent =>
              oldParentPath <- read (FilePathLocked parent) ;;
              renamedName <- read (fd_name renamed) ;;
              let oldPath := oldParentPath +:+ "/" +:+ renamedName in
              newDirPath <- read (FilePathLocked newDir) ;;
              (* Nothing to do. *)
              returnIf (String.eqb newName renamedName &&
                        String.eqb oldParentPath newDirPath) 0 nil_err ;;
              res <- orReturn
                       (callB (CallRenameLocked renamed newDir newName)
                          (RenameLocked impl renamed newDir newName)) ;;
              let updateControlFD := fst res in
              let cleanUp := snd res in
              modify (forEachMountPoint
                        (renameUnderRoot oldPath newDir newName
                           updateControlFD)) ;;
              modify (runCleanUp cleanUp) ;;
              return_ 0 nil_err
          end)))).

(** *** Getdents64 *)

(** The callback of Getdents64: the position in the payload, the length of
    the slice held and the number of dirents so far. *)
Definition recordDirent (cur : Z * Z * Z) (dirent : Dirent64)
    : M (Z * Z * Z) :=
  fun w =>
    let '(payloadBufPos, bufLen, numDirents) := cur in
    (* Request a larger buffer if needed. *)
    let '(bufLen', w1) :=
      if payloadBufPos + SizeBytes dirent >? bufLen
      then let (buf, w') := PayloadBuf (uint32 (payloadBufPos + 10 * 256)) w in
           (len buf, w')
      else (bufLen, w) in
    ((uint32 (payloadBufPos + uint32 (SizeBytes dirent)), bufLen',
      uint32 (numDirents + 1)),
     store payloadBufPos (MarshalBytes dirent) w1).

(** Getdents64Handler handles the Getdents64 RPC. *)
Definition Getdents64Handler : RPCHandler :=
  fun payloadLen => run (
    req <- unmarshal payloadLen ;;
    fd <- orReturn (LookupOpenFD (Getdents64Req.DirFD req)) ;;
    defer (DecRef fd) (
      isDir <- read (controlFD_IsDir fd) ;;
      returnIf (negb isDir) 0 (Some ENOTDIR) ;;
      let seek0 := Getdents64Req.Count req <? 0 in
      let count := if Getdents64Req.Count req <? 0
                   then int32 (- Getdents64Req.Count req)
                   else Getdents64Req.Count req in
      (* The payload starts with numDirents, dirents go right after that. *)
      let payloadBufPos := 4 in
      (* Request enough payloadBuf for 10 dirents. *)
      payloadBuf <- lift (PayloadBuf (payloadBufPos + 10 * 256)) ;;
      res <- lift (callB (CallGetdent64 fd (uint32 count) seek0)
                     (Getdent64 impl fd (uint32 count) seek0)) ;;
      cur <- lift (forEach recordDirent (fst res)
                     (payloadBufPos, len payloadBuf, 0)) ;;
      match snd res with
      | Some e => return_ 0 (Some e)
      | None =>
          (* The number of dirents goes at the beginning of the payload. *)
          modify (store 0 (le_bytes 4 (snd cur))) ;;
          return_ (fst (fst cur)) nil_err
      end)).

(** ** The handlers of the reading RPCs *)

Context (reading : @Reading.Impl B).

(** The sizes of a marshalled [WalkStatus] and of a marshalled [Inode],
    constants of the messages. *)
Context (WalkStatusSize InodeSize : Z).

Context `{!Unmarshal StatReq.t, !Unmarshal CloseReq.t}.
Context `{!Unmarshal PReadReq.t}.
Context `{!Unmarshal FStatFSReq.t, !Marshal StatFS}.
Context `{!Unmarshal ReadLinkAtReq.t, !Unmarshal ConnectReq.t}.
Context `{!Unmarshal FGetXattrReq.t, !Unmarshal FListXattrReq.t}.
Context `{!Marshal Inode}.

(** A call of a capability of the reading RPCs: [callR] for one on the
    backend state, [callRH] for one that works on the handles too. The
    trace has no event for these capabilities; a call shows in the state
    it leaves. *)
Definition callR {R} (op : B -> R * B) : M R :=
  fun w =>
    let (r, b) := op (impl_state (heap w)) in
    (r, set_heap (set_impl_state b (heap w)) w).

Definition callRH {R} (op : Heap -> R * Heap) : M R :=
  fun w =>
    let (r, h) := op (heap w) in
    (r, set_heap h w).

(** Modelled from the spec: [lookupFD(id)] returns a handle of either
    variant and increments its refcount; it fails with bad-FD if [id] is
    absent. *)
Definition lookupFD (id : FDID) : M (Errno + FDRef) :=
  fun w =>
    match table w !! id with
    | Some fd =>
        (inr (match fd with
              | IsControl _ => ControlRef id
              | IsOpen _ => OpenRef id
              end),
         log (EvLookup id true)
           (set_table (<[id := IncRef fd]> (table w)) w))
    | None => (inl EBADF, log (EvLookup id false) w)
    end.

(** Modelled from the spec: [RemoveFD(id)] takes the handle out of the
    table, if it is there, and drops the table's reference to it. A handle
    that is still referenced lives on, out of the table, where no lookup
    finds it; a handle without a reference left is destroyed. *)
Definition RemoveFD (id : FDID) (w : World) : World :=
  match table w !! id with
  | Some fd =>
      let w1 := log (EvDecRef id) w in
      if refs fd - 1 <=? 0 then destroy id fd w1
      else set_table (delete id (table w1)) w1
  | None => w
  end.

(** Modelled from the spec: the kind checks of a control handle. *)
Definition IsSymlink (fd : FDID) (w : World) : bool :=
  match control fd w with
  | Some c => Kind_eqb (ftype c) SymbolicLink
  | None => false
  end.

Definition IsSocket (fd : FDID) (w : World) : bool :=
  match control fd w with
  | Some c => Kind_eqb (ftype c) SocketFile
  | None => false
  end.

(** FStatHandler handles the FStat RPC. The type switch has a case for
    each of the two variants of a handle. *)
Definition FStatHandler : RPCHandler :=
  fun payloadLen => run (
    req <- unmarshal payloadLen ;;
    fd <- orReturn (lookupFD (StatReq.FD req)) ;;
    defer (DecRef (ref_id fd)) (
      resp <- orReturn
                match fd with
                | ControlRef t => callR (Reading.ControlStat reading t)
                | OpenRef t => callR (Reading.OpenStat reading t)
                end ;;
      respond resp)).

(** The name checks of Walk: every component is checked. *)
Fixpoint checkNames (names : list string) : error :=
  match names with
  | [] => nil_err
  | n :: names' =>
      match checkSafeName n with
      | Some e => Some e
      | None => checkNames names'
      end
  end.

(** The callback of Walk: marshal one inode at the position and move the
    position and the count on. *)
Definition recordInode (cur : Z * Z) (i : Inode) : M (Z * Z) :=
  fun w =>
    let (payloadPos, numInodes) := cur in
    ((payloadPos + SizeBytes i, uint32 (numInodes + 1)),
     store payloadPos (MarshalBytes i) w).

(** WalkHandler handles the Walk RPC. *)
Definition WalkHandler : RPCHandler :=
  fun payloadLen => run (
    req <- unmarshal payloadLen ;;
    fd <- orReturn (LookupControlFD (WalkReq.DirFD req)) ;;
    defer (DecRef fd) (
      let path := WalkReq.Path req in
      isDir <- read (IsDir fd) ;;
      returnIf (negb isDir) 0 (Some ENOTDIR) ;;
      match checkNames path with
      | Some e => return_ 0 (Some e)
      | None =>
          let maxPayloadSize := WalkStatusSize + 4 + len path * InodeSize in
          (* Too much to walk, can't do. *)
          returnIf (maxPayloadSize >? MaxUint32) 0 (Some EIO) ;;
          _ <- lift (PayloadBuf (uint32 maxPayloadSize)) ;;
          res <- lift (callRH (Reading.Walk reading fd path)) ;;
          let status := fst (fst res) in
          let inodes := snd (fst res) in
          cur <- lift (forEach recordInode inodes (WalkStatusSize + 4, 0)) ;;
          match snd res with
          | Some e => return_ 0 (Some e)
          | None =>
              (* WalkResp writes the walk status followed by the number of
                 inodes in the beginning. *)
              modify (store 0 (le_bytes (Z.to_nat WalkStatusSize) status)) ;;
              modify (store WalkStatusSize (le_bytes 4 (snd cur))) ;;
              return_ (uint32 (fst cur)) nil_err
          end
      end)).

(** CloseHandler handles the Close RPC. *)
Definition CloseHandler : RPCHandler :=
  fun payloadLen => run (
    req <- unmarshal payloadLen ;;
    modify (fun w => fold_left (fun w' fd => RemoveFD fd w')
                       (CloseReq.FDs req) w) ;;
    (* There is no response message for this. *)
    return_ 0 nil_err).

(** A handler with a slice expression that can be out of range: it
    returns, or the Go runtime panics. *)
Definition PanickingHandler := Z -> World -> option ((Z * error) * World).

Definition panic : Go Panicked := ret SliceBoundsOutOfRange.

Definition runOrPanic (body : Go Panicked)
    : World -> option ((Z * error) * World) :=
  fun w =>
    match body w with
    | (Continue _, _) => None
    | (Return n err, w') => Some ((n, err), w')
    end.

(** PReadHandler handles the PRead RPC. [payloadBuf[respMetaSize:]] is out
    of range when the slice is shorter than the metadata. *)
Definition PReadHandler : PanickingHandler :=
  fun payloadLen => runOrPanic (
    req <- unmarshal payloadLen ;;
    fd <- orReturn (LookupOpenFD (PReadReq.FD req)) ;;
    defer (DecRef fd) (
      readable <- read (fd_readable fd) ;;
      returnIf (negb readable) 0 (Some EBADF) ;;
      (* To save an allocation and a copy, we directly read into the
         payload buffer. *)
      let respMetaSize := 4 in
      payloadBuf <- lift (PayloadBuf
                            (uint32 (respMetaSize + PReadReq.Count req))) ;;
      if len payloadBuf <? respMetaSize then panic
      else
        data <- orReturn (callR (Reading.Read reading fd
                                   (PReadReq.Offset req)
                                   (len payloadBuf - respMetaSize))) ;;
        modify (store respMetaSize data) ;;
        let n := len data in
        (* Write the response metadata onto the payload buffer. *)
        modify (store 0 (le_bytes 4 (uint32 n))) ;;
        return_ (uint32 (respMetaSize + uint32 n)) nil_err)).

(** FStatFSHandler handles the FStatFS RPC. *)
Definition FStatFSHandler : RPCHandler :=
  fun payloadLen => run (
    req <- unmarshal payloadLen ;;
    fd <- orReturn (LookupControlFD (FStatFSReq.FD req)) ;;
    defer (DecRef fd) (
      resp <- orReturn (callR (Reading.StatFS reading fd)) ;;
      respond resp)).

(** The callback of ReadLinkAt, for each buffer the backend asks for:
    [comm.PayloadBuf(dataLen + respMetaSize)[respMetaSize:]]. *)
Fixpoint getLinkBufs (respMetaSize : Z) (asks : list Z) (rest : Go Panicked)
    : Go Panicked :=
  match asks with
  | [] => rest
  | dataLen :: asks' =>
      buf <- lift (PayloadBuf (uint32 (dataLen + respMetaSize))) ;;
      if len buf <? respMetaSize then panic
      else getLinkBufs respMetaSize asks' rest
  end.

(** ReadLinkAtHandler handles the ReadLinkAt RPC. The buffer the callback
    gives is the payload after the metadata, and the backend writes the
    link text into it. *)
Definition ReadLinkAtHandler : PanickingHandler :=
  fun payloadLen => runOrPanic (
    req <- unmarshal payloadLen ;;
    fd <- orReturn (LookupControlFD (ReadLinkAtReq.FD req)) ;;
    defer (DecRef fd) (
      isSymlink <- read (IsSymlink fd) ;;
      returnIf (negb isSymlink) 0 (Some EINVAL) ;;
      let respMetaSize := 4 in
      res <- lift (callR (Reading.Readlink reading fd)) ;;
      getLinkBufs respMetaSize (fst res) (
        match snd res with
        | inl e => return_ 0 (Some e)
        | inr text =>
            modify (store respMetaSize text) ;;
            let n := uint32 (len text) in
            _ <- lift (PayloadBuf respMetaSize) ;;
            modify (store 0 (le_bytes 4 n)) ;;
            return_ (uint32 (respMetaSize + n)) nil_err
        end))).

(** ConnectHandler handles the Connect RPC. *)
Definition ConnectHandler : RPCHandler :=
  fun payloadLen => run (
    req <- unmarshal payloadLen ;;
    fd <- orReturn (LookupControlFD (ConnectReq.FD req)) ;;
    defer (DecRef fd) (
      isSocket <- read (IsSocket fd) ;;
      returnIf (negb isSocket) 0 (Some ENOTSOCK) ;;
      return0 (callR (Reading.Connect reading fd (ConnectReq.SockType req))))).

(** FGetXattrHandler handles the FGetXattr RPC. *)
Definition FGetXattrHandler : PanickingHandler :=
  fun payloadLen => runOrPanic (
    req <- unmarshal payloadLen ;;
    fd <- orReturn (LookupControlFD (FGetXattrReq.FD req)) ;;
    defer (DecRef fd) (
      (* Manually marshal FGetXattrResp to avoid allocations and copying. *)
      let respMetaSize := 4 in
      payloadBuf <- lift (PayloadBuf
                            (uint32 (respMetaSize +
                                     uint32 (FGetXattrReq.BufSize req)))) ;;
      if len payloadBuf <? respMetaSize then panic
      else
        data <- orReturn (callR (Reading.GetXattr reading fd
                                   (FGetXattrReq.Name req)
                                   (len payloadBuf - respMetaSize))) ;;
        modify (store respMetaSize data) ;;
        let n := uint32 (len data) in
        modify (store 0 (le_bytes 4 n)) ;;
        return_ (uint32 (respMetaSize + n)) nil_err)).

(** What the backend returned, a length and an error, returned as it is. *)
Definition returnBoth {A} (m : M (Z * error)) : Go A :=
  fun w => let (r, w') := m w in (Return (fst r) (snd r), w').

(** FListXattrHandler handles the FListXattr RPC. *)
Definition FListXattrHandler : RPCHandler :=
  fun payloadLen => run (
    req <- unmarshal payloadLen ;;
    fd <- orReturn (LookupControlFD (FListXattrReq.FD req)) ;;
    defer (DecRef fd) (
      returnBoth (callR (Reading.ListXattr reading fd
                           (FListXattrReq.Size req))))).

(** ** Definitions for the statements below

    The handlers the statements range over, the state at some points of a
    handler, the flags OpenAt keeps, and FSync as the specification words
    it. *)

(** The handlers of the RPCs that mutate the filesystem. *)
Definition mutatingHandlers : list RPCHandler :=
  [ SetStatHandler; OpenCreateAtHandler; PWriteHandler; MkdirAtHandler;
    MknodAtHandler; SymlinkAtHandler; LinkAtHandler; FAllocateHandler;
    UnlinkAtHandler; RenameAtHandler; FSetXattrHandler;
    FRemoveXattrHandler ].

(** The slice [comm.PayloadBuf(payloadLen)] a handler decodes, and the
    state once it has been taken. *)
Definition payloadSlice (payloadLen : Z) (w : World) : list byte :=
  fst (PayloadBuf payloadLen w).

Definition received (payloadLen : Z) (w : World) : World :=
  snd (PayloadBuf payloadLen w).

(** The two flags of the connection are the same in [w] and [w']; a
    statement, or a change of the state, keeps them. *)
Definition same_conn (w w' : World) : Prop :=
  mounted w' = mounted w /\ readonly w' = readonly w.

Definition keeps {X} (m : World -> X * World) : Prop :=
  forall w, same_conn w (snd (m w)).

Definition keepsW (f : World -> World) : Prop :=
  forall w, same_conn w (f w).

(** The handlers other than MountHandler. *)
Definition otherHandlers : list RPCHandler :=
  [ ErrorHandler; SetStatHandler; WalkStatHandler; OpenAtHandler;
    OpenCreateAtHandler; FSyncHandler; PWriteHandler; MkdirAtHandler;
    MknodAtHandler; SymlinkAtHandler; LinkAtHandler; FAllocateHandler;
    FlushHandler; UnlinkAtHandler; RenameAtHandler; Getdents64Handler;
    FSetXattrHandler; FRemoveXattrHandler ].

Definition is_nil (err : error) : bool :=
  match err with None => true | Some _ => false end.

(** The state after a lookup that found [fd] under [id]. *)
Definition looked (id : FDID) (fd : genericFD) (w : World) : World :=
  log (EvLookup id true) (set_table (<[id := IncRef fd]> (table w)) w).




Definition is_open (w : World) (id : FDID) : bool :=
  match opened id w with
  | Some _ => true
  | None => false
  end.

(** What the spec asks of FSync, in its words: every descriptor of the
    list is synced, whatever happened to the ones before it, and the
    errors are collected in order; a descriptor that names no open handle
    has no handle to sync and counts as a bad-FD failure. *)
Fixpoint syncEach (valid : FDID -> bool) (ids : list FDID) (b : B)
    : list error * B :=
  match ids with
  | [] => ([], b)
  | id :: ids' =>
      if valid id then
        let (err, b1) := Sync impl id b in
        let (errs, b2) := syncEach valid ids' b1 in
        (err :: errs, b2)
      else
        let (errs, b2) := syncEach valid ids' b in
        (Some EBADF :: errs, b2)
  end.

Fixpoint firstError (errs : list error) : error :=
  match errs with
  | [] => nil_err
  | Some e :: _ => Some e
  | None :: errs' => firstError errs'
  end.

(** The call Getdents64 makes on the backend for a count. *)
Definition getdentCall (fd : FDID) (count : Z) : Call :=
  if count <? 0 then CallGetdent64 fd (- count) true
  else CallGetdent64 fd count false.

(** What the backend answers to that call in the state [b]. *)
Definition getdentAnswer (fd : FDID) (count : Z) (b : B)
    : (list Dirent64 * error) * B :=
  if count <? 0 then Getdent64 impl fd (- count) true b
  else Getdent64 impl fd count false b.

(** The position in the payload after the dirents: Getdents64 starts after
    the 4 bytes of the count and moves on by the size of each dirent, in
    32 bits. *)
Definition direntsEnd (dirents : list Dirent64) : Z :=
  fold_left (fun pos d => uint32 (pos + uint32 (SizeBytes d))) dirents 4.

(** ** Definitions for the statements on the prologue of a handler

    The handlers open in the same way: the test of [c.readonly] for a
    mutating RPC, the decoding of the request, the check of the name the
    request carries, the lookup of its first descriptor and, where the
    descriptor has to be a directory, the test of its kind. *)

(** The state after a lookup of [id] and its release. *)
Definition visited (id : FDID) (w : World) : World :=
  log (EvDecRef id) (log (EvLookup id true) w).

(** Whether a payload decodes as a request of type [R]. *)
Definition decodes (R : Type) `{Unmarshal R} (bs : list byte) : bool :=
  match CheckedUnmarshal (R := R) bs with
  | Some _ => true
  | None => false
  end.

(** A handler without a slice expression always returns. *)
Definition returning (h : RPCHandler) : PanickingHandler :=
  fun payloadLen w => Some (h payloadLen w).

(** The handlers that decode a request, each with whether it tests
    [c.readonly] before that and with the decoder of its request. *)
Definition decodingHandlers
    : list (PanickingHandler * bool * (list byte -> bool)) :=
  [ (returning MountHandler, false, decodes MountReq.t);
    (returning FStatHandler, false, decodes StatReq.t);
    (returning SetStatHandler, true, decodes SetStatReq.t);
    (returning WalkHandler, false, decodes WalkReq.t);
    (returning WalkStatHandler, false, decodes WalkReq.t);
    (returning OpenAtHandler, false, decodes OpenAtReq.t);
    (returning OpenCreateAtHandler, true, decodes OpenCreateAtReq.t);
    (returning CloseHandler, false, decodes CloseReq.t);
    (returning FSyncHandler, false, decodes FsyncReq.t);
    (returning PWriteHandler, true, decodes PWriteReq.t);
    (PReadHandler, false, decodes PReadReq.t);
    (returning MkdirAtHandler, true, decodes MkdirAtReq.t);
    (returning MknodAtHandler, true, decodes MknodAtReq.t);
    (returning SymlinkAtHandler, true, decodes SymlinkAtReq.t);
    (returning LinkAtHandler, true, decodes LinkAtReq.t);
    (returning FStatFSHandler, false, decodes FStatFSReq.t);
    (returning FAllocateHandler, true, decodes FAllocateReq.t);
    (ReadLinkAtHandler, false, decodes ReadLinkAtReq.t);
    (returning FlushHandler, false, decodes FlushReq.t);
    (returning ConnectHandler, false, decodes ConnectReq.t);
    (returning UnlinkAtHandler, true, decodes UnlinkAtReq.t);
    (returning RenameAtHandler, true, decodes RenameAtReq.t);
    (returning Getdents64Handler, false, decodes Getdents64Req.t);
    (FGetXattrHandler, false, decodes FGetXattrReq.t);
    (returning FSetXattrHandler, true, decodes FSetXattrReq.t);
    (returning FListXattrHandler, false, decodes FListXattrReq.t);
    (returning FRemoveXattrHandler, true, decodes FRemoveXattrReq.t) ].

(** The name a request carries for the node it creates, removes or
    renames to, if the payload decodes. *)
Definition nameOf {R} `{Unmarshal R} (nm : R -> string) (bs : list byte)
    : option string :=
  match CheckedUnmarshal bs with
  | Some req => Some (nm req)
  | None => None
  end.

(** The handlers that check a name, all of them behind the read-only
    gate. *)
Definition namingHandlers : list (RPCHandler * (list byte -> option string)) :=
  [ (OpenCreateAtHandler, nameOf OpenCreateAtReq.Name);
    (MkdirAtHandler, nameOf MkdirAtReq.Name);
    (MknodAtHandler, nameOf MknodAtReq.Name);
    (SymlinkAtHandler, nameOf SymlinkAtReq.Name);
    (LinkAtHandler, nameOf LinkAtReq.Name);
    (UnlinkAtHandler, nameOf UnlinkAtReq.Name);
    (RenameAtHandler, nameOf RenameAtReq.NewName) ].

(** The variant of handle a lookup asks for. *)
Inductive Variant := ControlHandle | OpenHandle | AnyHandle.

Definition lookupAs (v : Variant) (id : FDID) : M (Errno + FDID) :=
  match v with
  | ControlHandle => LookupControlFD id
  | OpenHandle => LookupOpenFD id
  | AnyHandle =>
      fun w =>
        match lookupFD id w with
        | (inl e, w') => (inl e, w')
        | (inr fd, w') => (inr (ref_id fd), w')
        end
  end.

(** The name to check, if the request has one, and the descriptor the
    handler looks up first, if the payload decodes. *)
Definition front {R} `{Unmarshal R} (nm : R -> option string) (fd : R -> FDID)
    (bs : list byte) : option (option string * FDID) :=
  match CheckedUnmarshal bs with
  | Some req => Some (nm req, fd req)
  | None => None
  end.

Definition unnamed {R} (req : R) : option string := None.

(** The handlers whose first lookup follows the decoding and the name
    check at once: whether the handler is behind the read-only gate, the
    front of its request and the variant it looks up. *)
Definition lookingHandlers
    : list (PanickingHandler * bool * (list byte -> option (option string * FDID))
            * Variant) :=
  [ (returning FStatHandler, false, front unnamed StatReq.FD, AnyHandle);
    (returning SetStatHandler, true, front unnamed SetStatReq.FD,
     ControlHandle);
    (returning WalkHandler, false, front unnamed WalkReq.DirFD, ControlHandle);
    (returning WalkStatHandler, false, front unnamed WalkReq.DirFD,
     ControlHandle);
    (returning OpenCreateAtHandler, true,
     front (fun r => Some (OpenCreateAtReq.Name r)) OpenCreateAtReq.DirFD,
     ControlHandle);
    (returning PWriteHandler, true, front unnamed PWriteReq.FD, OpenHandle);
    (PReadHandler, false, front unnamed PReadReq.FD, OpenHandle);
    (returning MkdirAtHandler, true,
     front (fun r => Some (MkdirAtReq.Name r)) MkdirAtReq.DirFD,
     ControlHandle);
    (returning MknodAtHandler, true,
     front (fun r => Some (MknodAtReq.Name r)) MknodAtReq.DirFD,
     ControlHandle);
    (returning SymlinkAtHandler, true,
     front (fun r => Some (SymlinkAtReq.Name r)) SymlinkAtReq.DirFD,
     ControlHandle);
    (returning LinkAtHandler, true,
     front (fun r => Some (LinkAtReq.Name r)) LinkAtReq.DirFD, ControlHandle);
    (returning FStatFSHandler, false, front unnamed FStatFSReq.FD,
     ControlHandle);
    (returning FAllocateHandler, true, front unnamed FAllocateReq.FD,
     OpenHandle);
    (ReadLinkAtHandler, false, front unnamed ReadLinkAtReq.FD, ControlHandle);
    (returning FlushHandler, false, front unnamed FlushReq.FD, OpenHandle);
    (returning ConnectHandler, false, front unnamed ConnectReq.FD,
     ControlHandle);
    (returning UnlinkAtHandler, true,
     front (fun r => Some (UnlinkAtReq.Name r)) UnlinkAtReq.DirFD,
     ControlHandle);
    (returning RenameAtHandler, true,
     front (fun r => Some (RenameAtReq.NewName r)) RenameAtReq.Renamed,
     ControlHandle);
    (returning Getdents64Handler, false, front unnamed Getdents64Req.DirFD,
     OpenHandle);
    (FGetXattrHandler, false, front unnamed FGetXattrReq.FD, ControlHandle);
    (returning FSetXattrHandler, true, front unnamed FSetXattrReq.FD,
     ControlHandle);
    (returning FListXattrHandler, false, front unnamed FListXattrReq.FD,
     ControlHandle);
    (returning FRemoveXattrHandler, true, front unnamed FRemoveXattrReq.FD,
     ControlHandle) ].

(** The handlers that test the kind of the control handle they looked up
    first, right after the lookup: whether the handler is behind the
    read-only gate, the front of its request, the kind it asks for and the
    error it returns for another kind. *)
Definition kindHandlers
    : list (PanickingHandler * bool
            * (list byte -> option (option string * FDID)) * Kind * Errno) :=
  [ (returning WalkHandler, false, front unnamed WalkReq.DirFD,
     Directory, ENOTDIR);
    (returning OpenCreateAtHandler, true,
     front (fun r => Some (OpenCreateAtReq.Name r)) OpenCreateAtReq.DirFD,
     Directory, ENOTDIR);
    (returning MkdirAtHandler, true,
     front (fun r => Some (MkdirAtReq.Name r)) MkdirAtReq.DirFD,
     Directory, ENOTDIR);
    (returning MknodAtHandler, true,
     front (fun r => Some (MknodAtReq.Name r)) MknodAtReq.DirFD,
     Directory, ENOTDIR);
    (returning SymlinkAtHandler, true,
     front (fun r => Some (SymlinkAtReq.Name r)) SymlinkAtReq.DirFD,
     Directory, ENOTDIR);
    (returning LinkAtHandler, true,
     front (fun r => Some (LinkAtReq.Name r)) LinkAtReq.DirFD,
     Directory, ENOTDIR);
    (returning UnlinkAtHandler, true,
     front (fun r => Some (UnlinkAtReq.Name r)) UnlinkAtReq.DirFD,
     Directory, ENOTDIR);
    (ReadLinkAtHandler, false, front unnamed ReadLinkAtReq.FD,
     SymbolicLink, EINVAL);
    (returning ConnectHandler, false, front unnamed ConnectReq.FD,
     SocketFile, ENOTSOCK) ].

(** ** Definitions for the statements on references *)

(** A piece of trace that gave back every reference it took. *)
Definition balanced (new : list Event) : Prop :=
  forall id, lookups id new = releases id new.

(** A statement, or a change of the state, that only adds to the trace,
    and adds a balanced piece. *)
Definition settles {X} (m : World -> X * World) : Prop :=
  forall w, exists new, trace (snd (m w)) = trace w ++ new /\ balanced new.

Definition settlesW (f : World -> World) : Prop :=
  forall w, exists new, trace (f w) = trace w ++ new /\ balanced new.

(** The handlers that defer the release of every descriptor they look
    up, and the ones that look nothing up. *)
Definition deferringHandlers : list RPCHandler :=
  [ ErrorHandler; MountHandler; FStatHandler; SetStatHandler; WalkHandler;
    WalkStatHandler; OpenAtHandler; OpenCreateAtHandler; MkdirAtHandler;
    MknodAtHandler; SymlinkAtHandler; FStatFSHandler; FAllocateHandler;
    FlushHandler; ConnectHandler; UnlinkAtHandler; RenameAtHandler;
    Getdents64Handler; FSetXattrHandler; FListXattrHandler;
    FRemoveXattrHandler ].

Definition deferringPanickingHandlers : list PanickingHandler :=
  [ PReadHandler; ReadLinkAtHandler; FGetXattrHandler ].

(** ** Definitions for the statements on responses and checks *)

(** The state once the response [resp] is marshalled into the payload. *)
Definition responded {R} `{Marshal R} (resp : R) (w : World) : World :=
  store 0 (MarshalBytes resp) (received (uint32 (SizeBytes resp)) w).

(** The bits of [setStatSupportedMask]: mode, uid, gid, atime, mtime and
    size. *)
Definition setStatSupportedBits : list Z := [1; 3; 4; 5; 6; 9].

(** The handlers that need a descriptor open for the access they make:
    whether the handler is behind the read-only gate, the front of its
    request, the flag of the open handle it tests, and whether it defers
    the release of the descriptor. *)
Definition accessHandlers
    : list (PanickingHandler * bool
            * (list byte -> option (option string * FDID))
            * (OpenFD -> bool) * bool) :=
  [ (returning PWriteHandler, true, front unnamed PWriteReq.FD, writable,
     false);
    (PReadHandler, false, front unnamed PReadReq.FD, readable, true);
    (returning FAllocateHandler, true, front unnamed FAllocateReq.FD,
     writable, true) ].


(** ** Definitions for the statements on slices of the payload *)

(** The descriptor of a request and the length of the slice the handler
    asks the communicator for, if the payload decodes. *)
Definition sliceOf {R} `{Unmarshal R} (fd : R -> FDID) (size : R -> Z)
    (bs : list byte) : option (FDID * Z) :=
  match CheckedUnmarshal bs with
  | Some req => Some (fd req, size req)
  | None => None
  end.

Definition readableOpen (fd : genericFD) : bool :=
  match fd with
  | IsOpen o => readable o
  | IsControl _ => false
  end.

Definition isControl (fd : genericFD) : bool :=
  match fd with
  | IsControl _ => true
  | IsOpen _ => false
  end.

(** The handlers that take [payloadBuf[respMetaSize:]] of a slice whose
    length comes from the request: the descriptor and the length of the
    slice, and the handles the handler gets to the slice expression
    with. *)
Definition slicingHandlers
    : list (PanickingHandler * (list byte -> option (FDID * Z))
            * (genericFD -> bool)) :=
  [ (PReadHandler,
     sliceOf PReadReq.FD (fun r => uint32 (4 + PReadReq.Count r)),
     readableOpen);
    (FGetXattrHandler,
     sliceOf FGetXattrReq.FD
       (fun r => uint32 (4 + uint32 (FGetXattrReq.BufSize r))),
     isControl) ].

(** ** Definitions for the statement on the flags of the connection *)

(** The handlers of the reading RPCs and of Close that always return, and
    all the handlers but MountHandler. *)
Definition readingHandlers : list RPCHandler :=
  [ FStatHandler; WalkHandler; CloseHandler; FStatFSHandler; ConnectHandler;
    FListXattrHandler ].

Definition handlersBesideMount : list PanickingHandler :=
  map returning (otherHandlers ++ readingHandlers)
  ++ [ PReadHandler; ReadLinkAtHandler; FGetXattrHandler ].

(** ** Definitions for the statements on the calls of the backend *)

(** The backend call a request leads to, if the payload decodes: the
    event of the trace, when the trace has one for the capability, and the
    call on the backend state. *)
Definition backendCall {R X} `{Unmarshal R} (call : R -> option Call)
    (op : R -> X) (bs : list byte) : option (option Call * X) :=
  match CheckedUnmarshal bs with
  | Some req => Some (call req, op req)
  | None => None
  end.

Definition isOpen (fd : genericFD) : bool :=
  match fd with
  | IsOpen _ => true
  | IsControl _ => false
  end.

Definition writableOpen (fd : genericFD) : bool :=
  match fd with
  | IsOpen o => writable o
  | IsControl _ => false
  end.

Definition controlOfKind (k : Kind) (fd : genericFD) : bool :=
  match fd with
  | IsControl c => Kind_eqb (ftype c) k
  | IsOpen _ => false
  end.

(** The handlers without a response message that end in a call of the
    backend: whether the handler is behind the read-only gate, the front
    of its request, the handles it accepts and the call. *)
Definition forwardingHandlers
    : list (RPCHandler * bool * (list byte -> option (option string * FDID))
            * (genericFD -> bool)
            * (list byte -> option (option Call * (B -> error * B)))) :=
  [ (FAllocateHandler, true, front unnamed FAllocateReq.FD, writableOpen,
     backendCall
       (fun r => Some (CallAllocate (FAllocateReq.FD r) (FAllocateReq.Mode r)
                         (FAllocateReq.Offset r) (FAllocateReq.Length r)))
       (fun r => Allocate impl (FAllocateReq.FD r) (FAllocateReq.Mode r)
                   (FAllocateReq.Offset r) (FAllocateReq.Length r)));
    (FlushHandler, false, front unnamed FlushReq.FD, isOpen,
     backendCall (fun r => Some (CallFlush (FlushReq.FD r)))
       (fun r => Flush impl (FlushReq.FD r)));
    (ConnectHandler, false, front unnamed ConnectReq.FD,
     controlOfKind SocketFile,
     backendCall (fun _ => None)
       (fun r => Reading.Connect reading (ConnectReq.FD r)
                   (ConnectReq.SockType r)));
    (UnlinkAtHandler, true,
     front (fun r => Some (UnlinkAtReq.Name r)) UnlinkAtReq.DirFD,
     controlOfKind Directory,
     backendCall
       (fun r => Some (CallUnlink (UnlinkAtReq.DirFD r) (UnlinkAtReq.Name r)
                         (uint32 (UnlinkAtReq.Flags r))))
       (fun r => Unlink impl (UnlinkAtReq.DirFD r) (UnlinkAtReq.Name r)
                   (uint32 (UnlinkAtReq.Flags r))));
    (FSetXattrHandler, true, front unnamed FSetXattrReq.FD, isControl,
     backendCall
       (fun r => Some (CallSetXattr (FSetXattrReq.FD r) (FSetXattrReq.Name r)
                         (FSetXattrReq.Value r)
                         (uint32 (FSetXattrReq.Flags r))))
       (fun r => SetXattr impl (FSetXattrReq.FD r) (FSetXattrReq.Name r)
                   (FSetXattrReq.Value r) (uint32 (FSetXattrReq.Flags r))));
    (FRemoveXattrHandler, true, front unnamed FRemoveXattrReq.FD, isControl,
     backendCall
       (fun r => Some (CallRemoveXattr (FRemoveXattrReq.FD r)
                         (FRemoveXattrReq.Name r)))
       (fun r => RemoveXattr impl (FRemoveXattrReq.FD r)
                   (FRemoveXattrReq.Name r))) ].

(** The events of a backend call in the trace. *)
Definition callEvents (call : option Call) : list Event :=
  match call with
  | Some c => [EvImpl c]
  | None => []
  end.


(** ** Definitions for the statement on the mounted flag *)

(** Every handler. *)
Definition allHandlers : list PanickingHandler :=
  returning MountHandler :: handlersBesideMount.

(** A request arrives: the transport leaves its bytes in the payload
    buffer, where the handler reads them. *)
Definition arrives (request : list byte) (w : World) : World :=
  set_payload request w.

(** The connection serves a request: some handler runs on it and
    returns. *)
Inductive serves (w w' : World) : Prop :=
| serves_request (h : PanickingHandler) (request : list byte)
    (payloadLen : Z) (r : Z * error) :
    In h allHandlers ->
    h payloadLen (arrives request w) = Some (r, w') ->
    serves w w'.


(** * Properties *)

Lemma Contains_slash (s : string) :
  Strings.Contains s "/" = true <-> In "/"%char (String.list_ascii_of_string s).
Proof.
  induction s as [|c s IH]; simpl.
  - split; [discriminate | tauto].
  - rewrite orb_true_iff, andb_true_iff, IH.
    split.
    + intros [[Hc _] | Hs]; [left | right; exact Hs].
      symmetry. now apply Ascii.eqb_eq.
    + intros [Hc | Hs]; [left | right; exact Hs].
      split; [apply Ascii.eqb_eq; now symmetry | now destruct s].
Qed.

Lemma checkSafeName_nil_iff (name : string) :
  checkSafeName name = nil_err <-> ~ unsafe_name name.
Proof.
  unfold checkSafeName, unsafe_name.
  destruct (String.eqb_spec name "") as [E0|E0];
    destruct (String.eqb_spec name ".") as [E1|E1];
    destruct (String.eqb_spec name "..") as [E2|E2];
    destruct (Strings.Contains name "/") eqn:Ec; simpl;
    try (split; [discriminate | intros Hn; exfalso; apply Hn; tauto]).
  - apply Contains_slash in Ec.
    split; [discriminate | intros Hn; exfalso; apply Hn; tauto].
  - split; [intros _ | reflexivity].
    intros [?|[?|[?|Hin]]]; try contradiction.
    apply Contains_slash in Hin. congruence.
Qed.

(** C5: [checkSafeName] returns EINVAL exactly for the empty name, ".",
    ".." and the names that contain '/'; every other name is accepted,
    among them "...", ".hidden" and a name of non-ASCII bytes. *)
Theorem checkSafeName_spec :
  (forall name, checkSafeName name = Some EINVAL <-> unsafe_name name) /\
  (forall name, checkSafeName name = nil_err <-> ~ unsafe_name name) /\
  checkSafeName "..." = nil_err /\
  checkSafeName ".hidden" = nil_err /\
  checkSafeName unicode_name = nil_err.
Proof.
  split; [|split; [exact checkSafeName_nil_iff | repeat split]].
  intros name. pose proof (checkSafeName_nil_iff name) as Hn.
  unfold checkSafeName in *.
  destruct (_ && _ && _ && _).
  - split; [discriminate | intros Hu; exfalso; now apply Hn].
  - split; [intros _ | reflexivity].
    destruct (String.eqb_spec name ""); [left; assumption|].
    destruct (String.eqb_spec name "."); [right; left; assumption|].
    destruct (String.eqb_spec name ".."); [right; right; left; assumption|].
    right; right; right. apply Contains_slash.
    destruct (Strings.Contains name "/") eqn:Ec; [reflexivity|].
    exfalso. assert (~ unsafe_name name) as Hs.
    { intros [?|[?|[?|Hin]]]; try contradiction.
      apply Contains_slash in Hin. congruence. }
    apply Hn in Hs. discriminate.
Qed.

Lemma impl_calls_app (t1 t2 : list Event) :
  impl_calls (t1 ++ t2) = impl_calls t1 ++ impl_calls t2.
Proof.
  induction t1 as [|e t1 IH]; [reflexivity|].
  destruct e; simpl; now rewrite ?IH.
Qed.

(** ** Read-only connections *)

Lemma readonly_gate (payloadLen : Z) (w : World) (rest : Go Empty_set) :
  readonly w = true ->
  run (ro <- read readonly ;; returnIf ro 0 (Some EROFS) ;; rest) w
  = ((0, Some EROFS), w).
Proof.
  intros Hro. unfold run, bind, read, returnIf. rewrite Hro. reflexivity.
Qed.

(** C1: on a read-only connection each of the twelve mutating handlers
    returns EROFS and leaves the whole state as it was: the payload is not
    read (no PayloadBuf call is recorded), no descriptor is looked up and
    no backend capability is invoked. *)
Theorem readonly_rejects_mutating (h : RPCHandler) (payloadLen : Z) (w : World) :
  In h mutatingHandlers ->
  readonly w = true ->
  h payloadLen w = ((0, Some EROFS), w).
Proof.
  intros Hin Hro. unfold mutatingHandlers in Hin. simpl in Hin.
  repeat (destruct Hin as [<- | Hin]; [now apply readonly_gate|]).
  contradiction.
Qed.

(** ** Reading the request *)

Lemma unmarshal_ok {R} `{Unmarshal R} (payloadLen : Z) (w : World) (req : R) :
  CheckedUnmarshal (payloadSlice payloadLen w) = Some req ->
  unmarshal payloadLen w = (Continue req, received payloadLen w).
Proof.
  unfold unmarshal, payloadSlice, received, PayloadBuf. simpl.
  intros ->. reflexivity.
Qed.

Lemma unmarshal_fail {R} `{Unmarshal R} (payloadLen : Z) (w : World) :
  CheckedUnmarshal (R := R) (payloadSlice payloadLen w) = None ->
  unmarshal (R := R) payloadLen w
  = (Return 0 (Some EIO), received payloadLen w).
Proof.
  unfold unmarshal, payloadSlice, received, PayloadBuf. simpl.
  intros ->. reflexivity.
Qed.


Lemma received_mounted n w : mounted (received n w) = mounted w.
Proof. reflexivity. Qed.

Lemma received_heap n w : heap (received n w) = heap w.
Proof. reflexivity. Qed.

Lemma received_trace n w : trace (received n w) = trace w ++ [EvPayloadBuf n].
Proof. reflexivity. Qed.

(** ** Responses *)

Lemma respond_eq {A R} `{Marshal R} (resp : R) (w : World) :
  respond (A := A) resp w
  = (Return (uint32 (SizeBytes resp)) nil_err, responded resp w).
Proof. reflexivity. Qed.

Lemma payload_store_0 (bs : list byte) (w : World) :
  payload (store 0 bs w) = bs ++ drop (length bs) (payload w).
Proof. reflexivity. Qed.

Lemma responded_payload {R} `{Marshal R} (resp : R) (w : World) :
  take (length (MarshalBytes resp)) (payload (responded resp w))
  = MarshalBytes resp.
Proof.
  unfold responded. rewrite payload_store_0. apply take_app_length.
Qed.

Lemma responded_trace {R} `{Marshal R} (resp : R) (w : World) :
  trace (responded resp w)
  = trace w ++ [EvPayloadBuf (uint32 (SizeBytes resp))].
Proof. reflexivity. Qed.

Lemma responded_heap {R} `{Marshal R} (resp : R) (w : World) :
  heap (responded resp w) = heap w.
Proof. reflexivity. Qed.


(** ** The flags of the connection

    Only MountHandler writes [c.mounted], and no handler writes
    [c.readonly]: every other statement of the handlers keeps both. *)

Lemma same_conn_refl (w : World) : same_conn w w.
Proof. now split. Qed.

Lemma same_conn_trans (w1 w2 w3 : World) :
  same_conn w1 w2 -> same_conn w2 w3 -> same_conn w1 w3.
Proof. intros [? ?] [? ?]. split; congruence. Qed.

Lemma keeps_ret {A} (a : A) : keeps (ret a).
Proof. intros w. (split; reflexivity). Qed.

Lemma keeps_return {A} (n : Z) (err : error) : keeps (return_ (A := A) n err).
Proof. intros w. (split; reflexivity). Qed.

Lemma keeps_read {A} (f : World -> A) : keeps (read f).
Proof. intros w. (split; reflexivity). Qed.

Lemma keeps_bind {A C} (m : Go A) (k : A -> Go C) :
  keeps m -> (forall a, keeps (k a)) -> keeps (bind m k).
Proof.
  intros Hm Hk w. unfold bind. specialize (Hm w).
  destruct (m w) as [[a|n err] w1]; [|exact Hm].
  exact (same_conn_trans _ _ _ Hm (Hk a w1)).
Qed.

Lemma keeps_lift {A} (m : M A) : keeps m -> keeps (lift m).
Proof. intros Hm w. unfold lift. specialize (Hm w). now destruct (m w). Qed.

Lemma keeps_orReturn {A} (m : M (Errno + A)) : keeps m -> keeps (orReturn m).
Proof.
  intros Hm w. unfold orReturn. specialize (Hm w).
  now destruct (m w) as [[e|a] w1].
Qed.

Lemma keeps_return0 {A} (m : M error) : keeps m -> keeps (return0 (A := A) m).
Proof. intros Hm w. unfold return0. specialize (Hm w). now destruct (m w). Qed.

Lemma keeps_returnIf (cond : bool) (n : Z) (err : error) :
  keeps (returnIf cond n err).
Proof. intros w. unfold returnIf. destruct cond; (split; reflexivity). Qed.

Lemma keeps_checkName (n : string) : keeps (checkName n).
Proof.
  intros w. unfold checkName. destruct (checkSafeName n); (split; reflexivity).
Qed.

Lemma keeps_defer {A} (cleanup : World -> World) (body : Go A) :
  keepsW cleanup -> keeps body -> keeps (defer cleanup body).
Proof.
  intros Hc Hb w. unfold defer. specialize (Hb w).
  destruct (body w) as [o w1]. exact (same_conn_trans _ _ _ Hb (Hc w1)).
Qed.

Lemma keeps_modify (f : World -> World) : keepsW f -> keeps (modify f).
Proof. intros Hf w. exact (Hf w). Qed.

Lemma keeps_PayloadBuf (n : Z) : keeps (PayloadBuf n).
Proof. intros w. (split; reflexivity). Qed.

Lemma keeps_unmarshal {R} `{Unmarshal R} (n : Z) : keeps (unmarshal (R := R) n).
Proof.
  intros w. unfold unmarshal, PayloadBuf.
  destruct (CheckedUnmarshal _); (split; reflexivity).
Qed.

Lemma keeps_respond {A R} `{Marshal R} (resp : R) :
  keeps (respond (A := A) resp).
Proof. intros w. (split; reflexivity). Qed.

Lemma keeps_callB {R} (c : Call) (op : B -> R * B) : keeps (callB c op).
Proof. intros w. unfold callB. destruct (op _). (split; reflexivity). Qed.

Lemma keeps_callH {R} (c : Call) (op : Heap -> R * Heap) : keeps (callH c op).
Proof. intros w. unfold callH. destruct (op _). (split; reflexivity). Qed.

Lemma keeps_LookupControlFD (id : FDID) : keeps (LookupControlFD id).
Proof.
  intros w. unfold LookupControlFD.
  destruct (table w !! id) as [[c|o]|]; (split; reflexivity).
Qed.

Lemma keeps_LookupOpenFD (id : FDID) : keeps (LookupOpenFD id).
Proof.
  intros w. unfold LookupOpenFD.
  destruct (table w !! id) as [[c|o]|]; (split; reflexivity).
Qed.

Lemma keepsW_log (e : Event) : keepsW (log e).
Proof. intros w. (split; reflexivity). Qed.

Lemma keepsW_store (pos : Z) (bs : list byte) : keepsW (store pos bs).
Proof. intros w. (split; reflexivity). Qed.

Lemma keepsW_DecRef (id : FDID) : keepsW (DecRef id).
Proof.
  intros w. unfold DecRef.
  destruct (table _ !! id) as [fd|]; [|(split; reflexivity)].
  destruct (refs fd - 1 <=? 0); (split; reflexivity).
Qed.

Lemma keeps_forEach {A S} (f : S -> A -> M S) (l : list A) :
  (forall s a, keeps (f s a)) -> forall s, keeps (forEach f l s).
Proof.
  intros Hf. induction l as [|a l IH]; intros s w; simpl.
  - (split; reflexivity).
  - specialize (Hf s a w). destruct (f s a w) as [s1 w1].
    exact (same_conn_trans _ _ _ Hf (IH s1 w1)).
Qed.

Lemma keepsW_fold_left {A} (f : World -> A -> World) (l : list A) :
  (forall a, keepsW (fun w => f w a)) -> keepsW (fold_left f l).
Proof.
  intros Hf. induction l as [|a l IH]; intros w; simpl.
  - (split; reflexivity).
  - exact (same_conn_trans _ _ _ (Hf a w) (IH (f w a))).
Qed.

Lemma keepsW_set_table (t : gmap FDID genericFD) : keepsW (set_table t).
Proof. intros w. split; reflexivity. Qed.

Lemma keepsW_update_control (id : FDID) (f : ControlFD -> ControlFD) :
  keepsW (update_control id f).
Proof.
  intros w. unfold update_control. destruct (control id w); split; reflexivity.
Qed.

Lemma keepsW_clearParentLocked (fd : FDID) : keepsW (clearParentLocked fd).
Proof.
  intros w. unfold clearParentLocked.
  exact (same_conn_trans _ _ _ (keepsW_set_table _ w)
           (keepsW_update_control _ _ _)).
Qed.

Lemma keepsW_setParentLocked (fd p : FDID) : keepsW (setParentLocked fd p).
Proof.
  intros w. unfold setParentLocked.
  exact (same_conn_trans _ _ _ (keepsW_update_control _ _ w)
           (keepsW_update_control _ _ _)).
Qed.

Lemma keepsW_runUpdate (update : option (FDID -> B -> B)) (fd : FDID) :
  keepsW (runUpdate update fd).
Proof. intros w. destruct update; split; reflexivity. Qed.

Lemma keepsW_runCleanUp (cleanUp : option (B -> B)) : keepsW (runCleanUp cleanUp).
Proof. intros w. destruct cleanUp; split; reflexivity. Qed.

Lemma keepsW_renameRecursiveLocked (newDir : FDID) (newName : string)
    (update : option (FDID -> B -> B)) (pit : list string) :
  forall fd, keepsW (renameRecursiveLocked newDir newName pit update fd).
Proof.
  induction pit as [|cur next IH]; intros fd w; simpl.
  - eapply same_conn_trans; [apply keepsW_clearParentLocked|].
    eapply same_conn_trans; [apply keepsW_setParentLocked|].
    eapply same_conn_trans; [apply keepsW_update_control|].
    apply keepsW_runUpdate.
  - apply keepsW_fold_left. intros child w1.
    destruct (String.eqb _ cur); [apply IH | split; reflexivity].
Qed.

Lemma keepsW_forEachMountPoint (oldPath : string) (newDir : FDID)
    (newName : string) (update : option (FDID -> B -> B)) :
  keepsW (forEachMountPoint (renameUnderRoot oldPath newDir newName update)).
Proof.
  unfold forEachMountPoint. intros w. apply keepsW_fold_left.
  intros root w1. unfold renameUnderRoot.
  destruct (negb _); [split; reflexivity|].
  apply keepsW_renameRecursiveLocked.
Qed.

Lemma keeps_fsyncStep (retErr : error) (id : FDID) : keeps (fsyncStep retErr id).
Proof.
  intros w. unfold fsyncStep, fsyncFD.
  pose proof (keeps_LookupOpenFD id w) as Hl.
  destruct (LookupOpenFD id w) as [[e|fd] w1]; [exact Hl|].
  pose proof (keeps_callB (CallSync fd) (Sync impl fd) w1) as Hc.
  destruct (callB _ _ w1) as [err w2].
  exact (same_conn_trans _ _ _ Hl Hc).
Qed.

Lemma keeps_recordStat (cur : Z * Z) (s : Statx) : keeps (recordStat cur s).
Proof. intros w. destruct cur. split; reflexivity. Qed.

Lemma keeps_recordDirent (cur : Z * Z * Z) (d : Dirent64) :
  keeps (recordDirent cur d).
Proof.
  intros w. destruct cur as [[pos blen] num]. unfold recordDirent.
  destruct (_ >? _); split; reflexivity.
Qed.

Lemma keeps_run (body : Go Empty_set) (w : World) :
  keeps body -> same_conn w (snd (run body w)).
Proof.
  intros Hb. unfold run. specialize (Hb w).
  destruct (body w) as [[[]|n err] w1]. exact Hb.
Qed.

Create HintDb keeps.
#[local] Hint Resolve keeps_ret keeps_return keeps_read keeps_lift
  keeps_orReturn keeps_return0 keeps_returnIf keeps_checkName keeps_modify
  keeps_PayloadBuf keeps_unmarshal keeps_respond keeps_callB keeps_callH
  keeps_LookupControlFD keeps_LookupOpenFD keepsW_log keepsW_store
  keepsW_DecRef keeps_forEach keepsW_forEachMountPoint keepsW_runCleanUp
  keeps_fsyncStep keeps_recordStat keeps_recordDirent : keeps.

(** One statement of a handler at a time. *)
Ltac keeps_step :=
  lazymatch goal with
  | |- keeps (bind _ _) => apply keeps_bind; [|intros ?]
  | |- keeps (defer _ _) => apply keeps_defer
  | |- keeps (match ?x with _ => _ end) => destruct x
  | |- _ => solve [auto with keeps]
  end.

Ltac keeps_handler :=
  intros payloadLen w; apply keeps_run; cbv zeta; repeat keeps_step.

Lemma otherHandlers_keep_flags (h : RPCHandler) :
  In h otherHandlers ->
  forall payloadLen w, same_conn w (snd (h payloadLen w)).
Proof.
  intros Hin. unfold otherHandlers in Hin. simpl in Hin.
  repeat (destruct Hin as [<- | Hin]; [keeps_handler|]).
  contradiction.
Qed.

(** ** Mount *)

Lemma Mount_mounted_flag (payloadLen : Z) (w : World) :
  mounted (snd (MountHandler payloadLen w))
  = mounted w || is_nil (snd (fst (MountHandler payloadLen w))).
Proof.
  unfold MountHandler, run, bind.
  destruct (CheckedUnmarshal (R := MountReq.t) (payloadSlice payloadLen w))
    as [req|] eqn:Hreq.
  - rewrite (unmarshal_ok _ _ _ Hreq).
    unfold returnIf, read, orReturn, callH, modify, respond, lift,
      return_, ret.
    destruct (filepath_IsAbs _); simpl; [|now rewrite orb_false_r].
    destruct (mounted w) eqn:Hm; simpl; [now rewrite Hm|].
    destruct (Mount impl _ _) as [[e|[rootFD rootIno]] h']; simpl.
    + now rewrite Hm.
    + reflexivity.
  - rewrite (unmarshal_fail _ _ Hreq). simpl. now rewrite orb_false_r.
Qed.

Lemma Mount_again_busy (payloadLen : Z) (w : World) (req : MountReq.t) :
  CheckedUnmarshal (payloadSlice payloadLen w) = Some req ->
  filepath_IsAbs (path_Clean (MountReq.MountPath req)) = true ->
  mounted w = true ->
  MountHandler payloadLen w = ((0, Some EBUSY), received payloadLen w).
Proof.
  intros Hreq Habs Hm.
  unfold MountHandler, run, bind at 1. rewrite (unmarshal_ok _ _ _ Hreq).
  unfold bind, returnIf, read. rewrite Habs. simpl. rewrite Hm. reflexivity.
Qed.

(** [path.Clean] keeps an absolute path absolute. *)
Lemma path_Clean_abs (p : string) :
  filepath_IsAbs p = true -> filepath_IsAbs (path_Clean p) = true.
Proof.
  unfold filepath_IsAbs, path_Clean. intros Habs.
  destruct p as [|c p]; [discriminate|].
  rewrite Habs. reflexivity.
Qed.

(** ** Lookups and releases *)

Lemma LookupControlFD_ok (id : FDID) (w : World) (c : ControlFD) :
  control id w = Some c ->
  LookupControlFD id w = (inr id, looked id (IsControl c) w).
Proof.
  unfold control, LookupControlFD, looked.
  destruct (table w !! id) as [[c'|o]|]; [|discriminate..].
  now intros [= ->].
Qed.

Lemma LookupControlFD_fail (id : FDID) (w : World) :
  control id w = None ->
  LookupControlFD id w = (inl EBADF, log (EvLookup id false) w).
Proof.
  unfold control, LookupControlFD.
  destruct (table w !! id) as [[c'|o]|]; [discriminate|reflexivity..].
Qed.

Lemma LookupOpenFD_ok (id : FDID) (w : World) (o : OpenFD) :
  opened id w = Some o ->
  LookupOpenFD id w = (inr id, looked id (IsOpen o) w).
Proof.
  unfold opened, LookupOpenFD, looked.
  destruct (table w !! id) as [[c|o']|]; [discriminate| |discriminate].
  now intros [= ->].
Qed.

Lemma LookupOpenFD_fail (id : FDID) (w : World) :
  opened id w = None ->
  LookupOpenFD id w = (inl EBADF, log (EvLookup id false) w).
Proof.
  unfold opened, LookupOpenFD.
  destruct (table w !! id) as [[c|o']|]; [reflexivity|discriminate|reflexivity].
Qed.

Lemma Kind_eqb_eq (a b : Kind) : Kind_eqb a b = true <-> a = b.
Proof. destruct a, b; simpl; split; congruence. Qed.

Lemma Kind_eqb_neq (a b : Kind) : a <> b -> Kind_eqb a b = false.
Proof.
  intros Hne. destruct (Kind_eqb a b) eqn:Heq; [|reflexivity].
  now apply Kind_eqb_eq in Heq.
Qed.

Lemma set_refs_refs (fd : genericFD) : set_refs (refs fd) fd = fd.
Proof. now destruct fd as [[]|[]]. Qed.

Lemma refs_IncRef (fd : genericFD) : refs (IncRef fd) = refs fd + 1.
Proof. now destruct fd. Qed.

Lemma set_refs_IncRef (n : Z) (fd : genericFD) :
  set_refs n (IncRef fd) = set_refs n fd.
Proof. now destruct fd. Qed.

Lemma set_table_table (w : World) : set_table (table w) w = w.
Proof. now destruct w as [? ? ? [] ? ?]. Qed.

(** A release that does not bring the count to zero. *)
Lemma DecRef_live (id : FDID) (w : World) (fd : genericFD) :
  table w !! id = Some fd ->
  1 < refs fd ->
  DecRef id w
  = log (EvDecRef id) (set_table (<[id := set_refs (refs fd - 1) fd]> (table w)) w).
Proof.
  intros Hfd Hrefs. unfold DecRef.
  change (table (log (EvDecRef id) w)) with (table w). rewrite Hfd.
  destruct (refs fd - 1 <=? 0) eqn:Hle; [apply Z.leb_le in Hle; lia|].
  reflexivity.
Qed.

(** Releasing the reference of a lookup restores the table. *)
Lemma DecRef_looked (id : FDID) (fd : genericFD) (w : World) :
  table w !! id = Some fd ->
  0 < refs fd ->
  DecRef id (looked id fd w) = log (EvDecRef id) (log (EvLookup id true) w).
Proof.
  intros Hfd Hrefs.
  rewrite (DecRef_live id _ (IncRef fd)).
  - rewrite refs_IncRef, set_refs_IncRef.
    replace (refs fd + 1 - 1) with (refs fd) by lia.
    rewrite set_refs_refs. unfold looked, log, set_table, table. simpl.
    rewrite insert_insert_eq, insert_id by exact Hfd.
    now destruct w as [? ? ? [] ? ?].
  - unfold looked, table. simpl. apply lookup_insert_eq.
  - rewrite refs_IncRef. lia.
Qed.

(** Releasing the reference of a lookup restores the table, whatever was
    recorded in between. *)
Lemma DecRef_restores (id : FDID) (fd : genericFD) (w w0 : World) :
  table w = <[id := IncRef fd]> (table w0) ->
  table w0 !! id = Some fd ->
  0 < refs fd ->
  DecRef id w = log (EvDecRef id) (set_table (table w0) w).
Proof.
  intros Ht Hfd Hrefs.
  rewrite (DecRef_live id _ (IncRef fd)).
  - rewrite refs_IncRef, set_refs_IncRef.
    replace (refs fd + 1 - 1) with (refs fd) by lia.
    rewrite set_refs_refs, Ht.
    now rewrite insert_insert_eq, insert_id by exact Hfd.
  - rewrite Ht. apply lookup_insert_eq.
  - rewrite refs_IncRef. lia.
Qed.


(** ** OpenAt *)




Lemma IsDir_looked (id : FDID) (c : ControlFD) (w : World) :
  control id w = Some c ->
  IsDir id (looked id (IsControl c) w) = Kind_eqb (ftype c) Directory.
Proof.
  intros _. unfold IsDir, control, looked, table. simpl.
  now rewrite lookup_insert_eq.
Qed.

Lemma control_table (id : FDID) (w : World) (c : ControlFD) :
  control id w = Some c -> table w !! id = Some (IsControl c).
Proof.
  unfold control. destruct (table w !! id) as [[c'|o]|]; [|discriminate..].
  now intros [= ->].
Qed.

Lemma opened_table (id : FDID) (w : World) (o : OpenFD) :
  opened id w = Some o -> table w !! id = Some (IsOpen o).
Proof.
  unfold opened. destruct (table w !! id) as [[c|o']|]; [discriminate| |discriminate].
  now intros [= ->].
Qed.






(** ** FSync *)

Lemma is_open_looked (id : FDID) (o : OpenFD) (w : World) (x : FDID) :
  opened id w = Some o ->
  is_open (looked id (IsOpen o) w) x = is_open w x.
Proof.
  intros Ho. unfold is_open, opened, looked, table in *. simpl.
  destruct (decide (id = x)) as [->|Hne].
  - rewrite lookup_insert_eq. simpl.
    destruct (fds (heap w) !! x) as [[c|o']|]; try discriminate. reflexivity.
  - now rewrite lookup_insert_ne.
Qed.

(** One round of the loop. *)
Lemma fsyncStep_spec (retErr : error) (id : FDID) (w : World) :
  let out := fsyncStep retErr id w in
  let w' := snd out in
  (forall x, is_open w' x = is_open w x) /\
  if is_open w id then
    let sync := Sync impl id (impl_state (heap w)) in
    fst out = match retErr with
              | Some e => Some e
              | None => fst sync
              end /\
    impl_state (heap w') = snd sync /\
    impl_calls (trace w') = impl_calls (trace w) ++ [CallSync id]
  else
    fst out = match retErr with
              | Some e => Some e
              | None => Some EBADF
              end /\
    impl_state (heap w') = impl_state (heap w) /\
    impl_calls (trace w') = impl_calls (trace w).
Proof.
  unfold fsyncStep, fsyncFD, is_open at 3.
  destruct (opened id w) as [o|] eqn:Ho.
  - rewrite (LookupOpenFD_ok _ _ _ Ho). unfold callB.
    change (impl_state (heap (log (EvImpl (CallSync id))
                                (looked id (IsOpen o) w))))
      with (impl_state (heap w)).
    destruct (Sync impl id (impl_state (heap w))) as [err b1]. simpl.
    split; [intros x; exact (is_open_looked id o w x Ho)|].
    repeat split.
    + destruct err, retErr; reflexivity.
    + rewrite !impl_calls_app. simpl. now rewrite app_nil_r.
  - rewrite (LookupOpenFD_fail _ _ Ho). simpl.
    split; [reflexivity|]. repeat split.
    + destruct retErr; reflexivity.
    + rewrite impl_calls_app. simpl. now rewrite app_nil_r.
Qed.

Lemma syncEach_ext (f g : FDID -> bool) (ids : list FDID) (b : B) :
  (forall id, f id = g id) -> syncEach f ids b = syncEach g ids b.
Proof.
  intros Hfg. revert b. induction ids as [|id ids IH]; intros b; simpl;
    [reflexivity|].
  rewrite Hfg. destruct (g id).
  - destruct (Sync impl id b) as [err b1]. now rewrite IH.
  - now rewrite IH.
Qed.

Lemma filter_ext_bool (f g : FDID -> bool) (ids : list FDID) :
  (forall id, f id = g id) -> List.filter f ids = List.filter g ids.
Proof.
  intros Hfg. induction ids as [|id ids IH]; simpl; [reflexivity|].
  now rewrite Hfg, IH.
Qed.

Lemma fsync_loop (ids : list FDID) :
  forall (retErr : error) (w : World),
    let out := forEach fsyncStep ids retErr w in
    let spec := syncEach (is_open w) ids (impl_state (heap w)) in
    fst out = match retErr with
              | Some e => Some e
              | None => firstError (fst spec)
              end /\
    impl_state (heap (snd out)) = snd spec /\
    impl_calls (trace (snd out))
    = impl_calls (trace w) ++ map CallSync (List.filter (is_open w) ids).
Proof.
  induction ids as [|id ids IH]; intros retErr w; simpl.
  - repeat split; [now destruct retErr | now rewrite app_nil_r].
  - pose proof (fsyncStep_spec retErr id w) as Hstep. cbv zeta in Hstep.
    destruct (fsyncStep retErr id w) as [r1 w1]. simpl in Hstep.
    destruct Hstep as [Hopen Hstep].
    specialize (IH r1 w1). cbv zeta in IH.
    rewrite (syncEach_ext _ _ ids _ Hopen) in IH.
    rewrite (filter_ext_bool _ _ ids Hopen) in IH.
    destruct IH as (Hres & Hb & Ht). rewrite Hres, Hb, Ht.
    destruct (is_open w id).
    + destruct Hstep as (-> & -> & ->).
      destruct (Sync impl id (impl_state (heap w))) as [err b1]. simpl.
      destruct (syncEach (is_open w) ids b1) as [errs b2]. simpl.
      repeat split.
      * destruct retErr, err; reflexivity.
      * now rewrite <- app_assoc.
    + destruct Hstep as (-> & -> & ->).
      destruct (syncEach (is_open w) ids (impl_state (heap w)))
        as [errs b2]. simpl.
      repeat split. destruct retErr; reflexivity.
Qed.

(** C7: FSync goes through the whole list: the backend Sync is invoked, in
    order, on every descriptor of the request that names an open handle,
    also after a failure, and the error returned is the first failure in
    the order of the list (nil when there is none). *)
Theorem FSync_syncs_all (payloadLen : Z) (w : World) (req : FsyncReq.t) :
  CheckedUnmarshal (payloadSlice payloadLen w) = Some req ->
  let ids := FsyncReq.FDs req in
  let res := fst (FSyncHandler payloadLen w) in
  let w' := snd (FSyncHandler payloadLen w) in
  let spec := syncEach (is_open w) ids (impl_state (heap w)) in
  res = (0, firstError (fst spec)) /\
  impl_state (heap w') = snd spec /\
  impl_calls (trace w')
  = impl_calls (trace w) ++ map CallSync (List.filter (is_open w) ids) /\
  ((forall id, In id ids -> is_open w id = true) ->
   impl_calls (trace w') = impl_calls (trace w) ++ map CallSync ids).
Proof.
  intros Hreq ids res w' spec.
  assert (res = (0, firstError (fst spec)) /\
          impl_state (heap w') = snd spec /\
          impl_calls (trace w')
          = impl_calls (trace w) ++ map CallSync (List.filter (is_open w) ids))
    as (Hres & Hb & Ht).
  { subst res w'. destruct (FSyncHandler payloadLen w) as [r wf] eqn:Hrun.
    unfold FSyncHandler, run, bind at 1 in Hrun.
    rewrite (unmarshal_ok _ _ _ Hreq) in Hrun.
    unfold bind, lift, return_ in Hrun.
    pose proof (fsync_loop ids nil_err (received payloadLen w)) as Hloop.
    fold ids in Hrun.
    destruct (forEach fsyncStep ids nil_err (received payloadLen w))
      as [retErr w1].
    injection Hrun as <- <-. cbv zeta in Hloop. cbn [fst snd] in Hloop.
    destruct Hloop as (Hres & Hb & Ht). subst retErr.
    change (is_open (received payloadLen w)) with (is_open w) in *.
    repeat split; [exact Hb|]. cbn [fst snd]. rewrite Ht, received_trace.
    rewrite impl_calls_app. simpl. now rewrite app_nil_r. }
  repeat split; try assumption.
  intros Hall. rewrite Ht. do 2 f_equal.
  clear -Hall. induction ids as [|id ids IH]; [reflexivity|]. simpl.
  rewrite (Hall id) by now left. f_equal. apply IH.
  intros x Hx. apply Hall. now right.
Qed.

(** ** WalkStat *)



(** ** Getdents64 *)

Lemma forEach_recordDirent_trace (dirents : list Dirent64) :
  forall (cur : Z * Z * Z) (w : World),
    exists rest,
      trace (snd (forEach recordDirent dirents cur w)) = trace w ++ rest.
Proof.
  induction dirents as [|d dirents IH]; intros [[pos blen] num] w; simpl.
  - exists []. now rewrite app_nil_r.
  - destruct (pos + SizeBytes d >? blen).
    + match goal with |- context [forEach recordDirent dirents ?c ?x] =>
        destruct (IH c x) as [rest Hrest] end.
      eexists. rewrite Hrest. simpl. rewrite <- app_assoc. reflexivity.
    + match goal with |- context [forEach recordDirent dirents ?c ?x] =>
        destruct (IH c x) as [rest Hrest] end.
      exists rest. rewrite Hrest. reflexivity.
Qed.

(** The count handed to the backend: a negative [int32] count is negated,
    and the conversion to [uint32] gives its magnitude also for the least
    [int32]. *)
Lemma negated_count (count : Z) :
  - 2 ^ 31 <= count < 0 -> uint32 (int32 (- count)) = - count.
Proof.
  intros Hc. unfold uint32, int32.
  destruct (Z.eq_dec count (- 2 ^ 31)) as [->|Hne]; [reflexivity|].
  rewrite (Z.mod_small (- count + 2 ^ 31)) by lia.
  replace (- count + 2 ^ 31 - 2 ^ 31) with (- count) by lia.
  apply Z.mod_small. lia.
Qed.

Lemma kept_count (count : Z) :
  0 <= count < 2 ^ 31 -> uint32 count = count.
Proof. intros Hc. apply Z.mod_small. lia. Qed.

Lemma controlFD_IsDir_looked (id : FDID) (o : OpenFD) (w : World) :
  controlFD_IsDir id (looked id (IsOpen o) w)
  = Kind_eqb (controlFD_ftype o) Directory.
Proof.
  unfold controlFD_IsDir, opened, looked, table. simpl.
  now rewrite lookup_insert_eq.
Qed.

(** The callback leaves the handles and the backend alone and makes no
    backend call; the position and the count move on with each dirent. *)
Lemma forEach_recordDirent_spec (dirents : list Dirent64) :
  forall (pos blen num : Z) (w : World),
    let r := forEach recordDirent dirents (pos, blen, num) w in
    fst (fst (fst r))
    = fold_left (fun p d => uint32 (p + uint32 (SizeBytes d))) dirents pos /\
    snd (fst r) = fold_left (fun n _ => uint32 (n + 1)) dirents num /\
    heap (snd r) = heap w /\
    impl_calls (trace (snd r)) = impl_calls (trace w).
Proof.
  induction dirents as [|d dirents IH]; intros pos blen num w;
    [now repeat split|].
  cbn [forEach fold_left].
  assert (exists blen1 w1,
            recordDirent (pos, blen, num) d w
            = ((uint32 (pos + uint32 (SizeBytes d)), blen1,
                uint32 (num + 1)), w1) /\
            heap w1 = heap w /\
            impl_calls (trace w1) = impl_calls (trace w))
    as (blen1 & w1 & -> & Hheap1 & Hcalls1).
  { unfold recordDirent. destruct (pos + SizeBytes d >? blen).
    - unfold PayloadBuf. eexists _, _. split; [reflexivity|].
      split; [reflexivity|].
      cbn [trace store set_payload log set_trace].
      rewrite impl_calls_app. apply app_nil_r.
    - eexists _, _. now split. }
  destruct (IH (uint32 (pos + uint32 (SizeBytes d))) blen1
              (uint32 (num + 1)) w1) as (Hpos & Hnum & Hheap & Hcalls).
  repeat split; congruence.
Qed.

Lemma counted_dirents (dirents : list Dirent64) (num : Z) :
  0 <= num < 2 ^ 32 ->
  fold_left (fun n (_ : Dirent64) => uint32 (n + 1)) dirents num
  = uint32 (num + len dirents).
Proof.
  revert num. induction dirents as [|d dirents IH]; intros num Hnum.
  - unfold len, uint32. simpl. rewrite Z.add_0_r. symmetry.
    now apply Z.mod_small.
  - cbn [fold_left]. rewrite IH by (unfold uint32; apply Z.mod_pos_bound; lia).
    unfold uint32, len. cbn [length]. rewrite Zplus_mod_idemp_l.
    f_equal. lia.
Qed.

(** C9: Getdents64 on an open descriptor whose control handle is a
    directory invokes the backend once, with seek-to-zero set and the
    count negated when the count is negative, and with seek-to-zero unset
    and the count as it is otherwise: the backend state after the handler
    is the one this call leaves, the error of the call is the error
    returned and, when the call succeeds, the length returned is the
    position after the dirents it produced and the payload starts with
    their number; the lookup is released. When the control handle is not
    a directory the handler fails with ENOTDIR and the backend is not
    invoked. *)
Theorem Getdents64_count_and_seek (payloadLen : Z) (w : World)
    (req : Getdents64Req.t) (o : OpenFD) :
  CheckedUnmarshal (payloadSlice payloadLen w) = Some req ->
  opened (Getdents64Req.DirFD req) w = Some o ->
  0 < ofd_refs o ->
  - 2 ^ 31 <= Getdents64Req.Count req < 2 ^ 31 ->
  let fd := Getdents64Req.DirFD req in
  let count := Getdents64Req.Count req in
  let answer := getdentAnswer fd count (impl_state (heap w)) in
  let res := fst (Getdents64Handler payloadLen w) in
  let w' := snd (Getdents64Handler payloadLen w) in
  (controlFD_ftype o = Directory ->
   impl_calls (trace w') = impl_calls (trace w) ++ [getdentCall fd count] /\
   table w' = table w /\
   impl_state (heap w') = snd answer /\
   match snd (fst answer) with
   | Some e => res = (0, Some e)
   | None =>
       res = (direntsEnd (fst (fst answer)), nil_err) /\
       take 4 (payload w') = le_bytes 4 (uint32 (len (fst (fst answer))))
   end) /\
  (controlFD_ftype o <> Directory ->
   res = (0, Some ENOTDIR) /\
   heap w' = heap w /\
   trace w' = trace w ++ [EvPayloadBuf payloadLen; EvLookup fd true;
                          EvDecRef fd]).
Proof.
  intros Hreq Ho Hrefs Hcount fd count answer res w'.
  assert (table (received payloadLen w) !! fd = Some (IsOpen o)) as Ht
    by now apply opened_table.
  subst res w'. destruct (Getdents64Handler payloadLen w) as [r wf] eqn:Hrun.
  cbn [fst snd].
  unfold Getdents64Handler, run, bind at 1 in Hrun.
  rewrite (unmarshal_ok _ _ _ Hreq) in Hrun.
  unfold bind at 1, orReturn in Hrun.
  rewrite (LookupOpenFD_ok _ _ o) in Hrun by exact Ho.
  unfold defer, bind at 1, read in Hrun.
  rewrite controlFD_IsDir_looked in Hrun.
  fold fd count in Hrun.
  split.
  - intros Hdir. rewrite Hdir in Hrun.
    assert (uint32 (if count <? 0 then int32 (- count) else count)
            = if count <? 0 then - count else count) as Harg.
    { destruct (Z.ltb_spec count 0).
      - now rewrite negated_count by lia.
      - now rewrite kept_count by lia. }
    unfold returnIf, bind, ret, lift, callB in Hrun.
    cbn [Kind_eqb negb] in Hrun. rewrite Harg in Hrun.
    set (w2 := snd (PayloadBuf (4 + 10 * 256)
                      (looked fd (IsOpen o) (received payloadLen w)))) in *.
    replace (PayloadBuf (4 + 10 * 256)
               (looked fd (IsOpen o) (received payloadLen w)))
      with (fst (PayloadBuf (4 + 10 * 256)
                   (looked fd (IsOpen o) (received payloadLen w))), w2)
      in Hrun by (unfold w2; now destruct (PayloadBuf _ _)).
    cbv beta iota in Hrun.
    set (call := CallGetdent64 fd (if count <? 0 then - count else count)
                   (count <? 0)) in *.
    assert (call = getdentCall fd count) as Hcall
      by (unfold call, getdentCall; now destruct (count <? 0)).
    change (impl_state (heap (log (EvImpl call) w2)))
      with (impl_state (heap w)) in Hrun.
    assert (Getdent64 impl fd (if count <? 0 then - count else count)
              (count <? 0) (impl_state (heap w)) = answer) as Hanswer
      by (unfold answer, getdentAnswer; now destruct (count <? 0)).
    rewrite Hanswer in Hrun.
    destruct answer as [[dirents err] b1]. cbn [fst snd] in *.
    set (w3 := set_heap (set_impl_state b1 (heap (log (EvImpl call) w2)))
                 (log (EvImpl call) w2)) in *.
    match type of Hrun with
    | context [forEach recordDirent dirents (?p, ?l, ?n) w3] =>
        destruct (forEach_recordDirent_spec dirents p l n w3)
          as (Hpos & Hnum & Hheap & Hcalls);
        destruct (forEach recordDirent dirents (p, l, n) w3)
          as [[[pos1 blen1] num1] w4]
    end.
    cbn [fst snd] in Hpos, Hnum, Hheap, Hcalls, Hrun.
    rewrite counted_dirents in Hnum by lia. rewrite Z.add_0_l in Hnum.
    fold (direntsEnd dirents) in Hpos. subst pos1 num1.
    assert (impl_calls (trace w3) = impl_calls (trace w) ++ [call]) as Hw3.
    { unfold w3, w2, looked, received, PayloadBuf.
      cbn [trace log set_trace set_heap set_payload set_table snd].
      rewrite !impl_calls_app. cbn [impl_calls].
      now rewrite !app_nil_r. }
    destruct err as [e|].
    + unfold return_ in Hrun. injection Hrun as <- <-.
      rewrite (DecRef_restores fd (IsOpen o) _ (received payloadLen w));
        [|unfold table; rewrite Hheap; reflexivity|exact Ht|exact Hrefs].
      cbn [trace log set_trace set_table set_heap heap].
      rewrite impl_calls_app, Hcalls, Hw3, Hcall. cbn [impl_calls].
      rewrite app_nil_r. repeat split.
      cbn [impl_state set_fds table heap]. now rewrite Hheap.
    + unfold modify, return_ in Hrun. injection Hrun as <- <-.
      rewrite (DecRef_restores fd (IsOpen o) _ (received payloadLen w));
        [|unfold table; cbn [heap store set_payload]; rewrite Hheap;
          reflexivity|exact Ht|exact Hrefs].
      cbn [trace log set_trace set_table set_heap heap store set_payload].
      rewrite impl_calls_app, Hcalls, Hw3, Hcall. cbn [impl_calls].
      rewrite app_nil_r. repeat split.
      cbn [impl_state set_fds table heap]. now rewrite Hheap.
  - intros Hdir. apply Kind_eqb_neq in Hdir. rewrite Hdir in Hrun.
    unfold returnIf, bind, return_ in Hrun. cbn [negb] in Hrun.
    rewrite DecRef_looked in Hrun; [|exact Ht|exact Hrefs].
    injection Hrun as <- <-. repeat split.
    simpl. now rewrite <- !app_assoc.
Qed.


(** ** RenameAt *)

(** A lookup changes a count of references and nothing else: the reads of
    the tree do not see it. *)
Lemma control_looked (id x : FDID) (fd : genericFD) (w : World) :
  table w !! id = Some fd ->
  control x (looked id fd w)
  = match control x w with
    | Some c =>
        Some (if decide (x = id)
              then mkControlFD (cfd_refs c + 1) (ftype c) (name c) (parent c)
                     (children c)
              else c)
    | None => None
    end.
Proof.
  intros Hfd. unfold control, looked, table in *. simpl.
  destruct (decide (x = id)) as [->|Hne].
  - rewrite lookup_insert_eq, Hfd. now destruct fd.
  - rewrite lookup_insert_ne by congruence.
    now destruct (fds (heap w) !! x) as [[c|o]|].
Qed.

Lemma fd_parent_looked (id x : FDID) (fd : genericFD) (w : World) :
  table w !! id = Some fd ->
  fd_parent x (looked id fd w) = fd_parent x w.
Proof.
  intros Hfd. unfold fd_parent. rewrite (control_looked _ _ _ _ Hfd).
  destruct (control x w); [|reflexivity]. now destruct (decide (x = id)).
Qed.

Lemma fd_name_looked (id x : FDID) (fd : genericFD) (w : World) :
  table w !! id = Some fd ->
  fd_name x (looked id fd w) = fd_name x w.
Proof.
  intros Hfd. unfold fd_name. rewrite (control_looked _ _ _ _ Hfd).
  destruct (control x w); [|reflexivity]. now destruct (decide (x = id)).
Qed.

Lemma IsDir_looked_any (id x : FDID) (fd : genericFD) (w : World) :
  table w !! id = Some fd ->
  IsDir x (looked id fd w) = IsDir x w.
Proof.
  intros Hfd. unfold IsDir. rewrite (control_looked _ _ _ _ Hfd).
  destruct (control x w); [|reflexivity]. now destruct (decide (x = id)).
Qed.

Lemma filePath_IncRef (fuel : nat) (t : gmap FDID genericFD) (id : FDID)
    (fd : genericFD) :
  t !! id = Some fd ->
  forall x, filePath fuel (<[id := IncRef fd]> t) x = filePath fuel t x.
Proof.
  intros Hfd.
  assert (forall x, match <[id := IncRef fd]> t !! x with
                    | Some (IsControl c) => Some (ftype c, name c, parent c)
                    | _ => None
                    end
                    = match t !! x with
                      | Some (IsControl c) => Some (ftype c, name c, parent c)
                      | _ => None
                      end) as Hsame.
  { intros x. destruct (decide (x = id)) as [->|Hne].
    - rewrite lookup_insert_eq, Hfd. now destruct fd.
    - now rewrite lookup_insert_ne by congruence. }
  induction fuel as [|fuel IH]; intros x; specialize (Hsame x);
    cbn [filePath];
    destruct (<[id := IncRef fd]> t !! x) as [[c1|o1]|];
    destruct (t !! x) as [[c2|o2]|]; try discriminate; try reflexivity;
    injection Hsame as _ -> ->; try reflexivity.
  all: destruct (parent c2); try reflexivity; now rewrite IH.
Qed.

Lemma FilePathLocked_looked (id x : FDID) (fd : genericFD) (w : World) :
  table w !! id = Some fd ->
  FilePathLocked x (looked id fd w) = FilePathLocked x w.
Proof.
  intros Hfd. unfold FilePathLocked, looked, table in *. simpl.
  rewrite (filePath_IncRef _ _ _ _ Hfd).
  f_equal. apply map_size_insert_Some. now exists fd.
Qed.

Lemma table_looked (id : FDID) (fd : genericFD) (w : World) :
  table (looked id fd w) = <[id := IncRef fd]> (table w).
Proof. reflexivity. Qed.

Lemma control_Some_fields (x : FDID) (w : World) (c : ControlFD) :
  control x w = Some c ->
  fd_parent x w = parent c /\ fd_name x w = name c /\
  IsDir x w = Kind_eqb (ftype c) Directory.
Proof. unfold fd_parent, fd_name, IsDir. now intros ->. Qed.

(** C3: with both descriptors resolved and the rename lock taken for
    writing, RenameAt of a handle without parent (a mount root) fails with
    EBUSY, and RenameAt to the name the handle has, under a directory
    whose path is the path of the handle's parent, succeeds at once; in
    both cases the lock is released, the two lookups are released, the
    backend RenameLocked is not invoked (no backend call is recorded) and
    the handles, the tree among them, and the backend state are as they
    were. *)
Theorem RenameAt_root_busy_same_place_noop (payloadLen : Z) (w : World)
    (req : RenameAtReq.t) (rc dc : ControlFD) :
  readonly w = false ->
  CheckedUnmarshal (payloadSlice payloadLen w) = Some req ->
  checkSafeName (RenameAtReq.NewName req) = nil_err ->
  control (RenameAtReq.Renamed req) w = Some rc ->
  control (RenameAtReq.NewDir req) w = Some dc ->
  ftype dc = Directory ->
  0 < cfd_refs rc ->
  0 < cfd_refs dc ->
  let renamed := RenameAtReq.Renamed req in
  let newDir := RenameAtReq.NewDir req in
  let res := fst (RenameAtHandler payloadLen w) in
  let w' := snd (RenameAtHandler payloadLen w) in
  let quiet :=
    heap w' = heap w /\
    mountPoints w' = mountPoints w /\
    trace w' = trace w ++ [EvPayloadBuf payloadLen; EvLookup renamed true;
                           EvLookup newDir true; EvLock; EvUnlock;
                           EvDecRef newDir; EvDecRef renamed] in
  (parent rc = None -> res = (0, Some EBUSY) /\ quiet) /\
  (forall p, parent rc = Some p ->
     RenameAtReq.NewName req = name rc ->
     FilePathLocked newDir w = FilePathLocked p w ->
     res = (0, nil_err) /\ quiet).
Proof.
  intros Hro Hreq Hsafe Hrc Hdc Hdir Hrrefs Hdrefs renamed newDir res w' quiet.
  set (w1 := received payloadLen w).
  set (w2 := looked renamed (IsControl rc) w1).
  assert (table w1 !! renamed = Some (IsControl rc)) as Htr
    by now apply control_table.
  (* the new directory as the second lookup finds it *)
  destruct (control newDir w2) as [dc1|] eqn:Hdc1;
    [|unfold w2 in Hdc1; rewrite (control_looked _ _ _ _ Htr) in Hdc1;
      change (control newDir w1) with (control newDir w) in Hdc1;
      fold newDir in Hdc; rewrite Hdc in Hdc1; discriminate].
  assert (ftype dc1 = Directory /\ 0 < cfd_refs dc1) as [Hdir1 Hdrefs1].
  { unfold w2 in Hdc1. rewrite (control_looked _ _ _ _ Htr) in Hdc1.
    change (control newDir w1) with (control newDir w) in Hdc1.
    fold newDir in Hdc. rewrite Hdc in Hdc1. injection Hdc1 as <-.
    destruct (decide (newDir = renamed)); simpl; split; try assumption; lia. }
  assert (table w2 !! newDir = Some (IsControl dc1)) as Htd
    by now apply control_table.
  set (w3 := looked newDir (IsControl dc1) w2).
  set (w4 := log EvLock w3).
  (* the reads under the lock see the tree of [w] *)
  assert (forall x, fd_parent x w4 = fd_parent x w) as Hparent.
  { intros x. change (fd_parent x w4) with (fd_parent x w3). unfold w3, w2.
    now rewrite (fd_parent_looked _ _ _ _ Htd), (fd_parent_looked _ _ _ _ Htr). }
  assert (forall x, fd_name x w4 = fd_name x w) as Hname.
  { intros x. change (fd_name x w4) with (fd_name x w3). unfold w3, w2.
    now rewrite (fd_name_looked _ _ _ _ Htd), (fd_name_looked _ _ _ _ Htr). }
  assert (forall x, FilePathLocked x w4 = FilePathLocked x w) as Hpath.
  { intros x. change (FilePathLocked x w4) with (FilePathLocked x w3).
    unfold w3, w2.
    now rewrite (FilePathLocked_looked _ _ _ _ Htd),
      (FilePathLocked_looked _ _ _ _ Htr). }
  destruct (control_Some_fields _ _ _ Hrc) as (Hp & Hn & _).
  fold renamed in Hp, Hn.
  (* the state once the lock and the references are released *)
  assert (DecRef renamed (DecRef newDir (log EvUnlock w4))
          = log (EvDecRef renamed)
              (set_table (table w1)
                 (log (EvDecRef newDir)
                    (set_table (table w2) (log EvUnlock w4))))) as Hrelease.
  { rewrite (DecRef_restores newDir (IsControl dc1) _ w2);
      [|reflexivity|exact Htd|exact Hdrefs1].
    now rewrite (DecRef_restores renamed (IsControl rc) _ w1);
      [|reflexivity|exact Htr|exact Hrrefs]. }
  assert (let wfin := DecRef renamed (DecRef newDir (log EvUnlock w4)) in
          heap wfin = heap w /\ mountPoints wfin = mountPoints w /\
          trace wfin = trace w ++ [EvPayloadBuf payloadLen;
            EvLookup renamed true; EvLookup newDir true; EvLock;
            EvUnlock; EvDecRef newDir; EvDecRef renamed]) as Hquiet.
  { cbv zeta. rewrite Hrelease. unfold w4, w3, w2, w1, table. repeat split.
    - simpl. now destruct (heap w).
    - simpl. now rewrite <- !app_assoc. }
  cbv zeta in Hquiet. clear Hrelease.
  (* the handler up to the lock *)
  subst res w' quiet.
  destruct (RenameAtHandler payloadLen w) as [r wf] eqn:Hrun. cbn [fst snd].
  unfold RenameAtHandler, run, bind at 1, read in Hrun.
  rewrite Hro in Hrun. unfold bind at 1, returnIf at 1, ret in Hrun.
  unfold bind at 1 in Hrun. rewrite (unmarshal_ok _ _ _ Hreq) in Hrun.
  unfold bind at 1, checkName in Hrun. rewrite Hsafe in Hrun.
  unfold ret, bind at 1, orReturn in Hrun.
  rewrite (LookupControlFD_ok _ _ rc) in Hrun by exact Hrc.
  fold renamed w1 w2 in Hrun.
  unfold defer at 1, bind at 1 in Hrun.
  rewrite (LookupControlFD_ok _ _ dc1) in Hrun by exact Hdc1.
  fold newDir w3 in Hrun.
  unfold defer at 1, bind at 1 in Hrun. cbv beta in Hrun. unfold w3 in Hrun.
  rewrite (IsDir_looked _ _ _ Hdc1), Hdir1 in Hrun. fold w3 in Hrun.
  unfold bind at 1, returnIf at 1, ret in Hrun. cbn [Kind_eqb negb] in Hrun.
  unfold bind at 1, modify in Hrun. cbv beta in Hrun. fold w4 in Hrun.
  unfold defer, bind at 1 in Hrun. cbv beta in Hrun.
  rewrite Hparent, Hp in Hrun.
  split.
  - intros Hroot. rewrite Hroot in Hrun. unfold return_ in Hrun.
    injection Hrun as <- <-. split; [reflexivity | exact Hquiet].
  - intros p Hsome Hsame Hpaths. rewrite Hsome in Hrun.
    unfold bind, read, returnIf in Hrun.
    rewrite !Hpath, Hname, Hn, Hsame, <- Hpaths, !String.eqb_refl in Hrun.
    unfold return_ in Hrun. cbn [andb] in Hrun.
    injection Hrun as <- <-. split; [reflexivity | exact Hquiet].
Qed.

(** ** References that are not given back

    PReadHandler, FAllocateHandler, FlushHandler and the handlers on
    control descriptors defer the DecRef of what they look up; fsyncFD,
    PWriteHandler and, for its target, LinkAtHandler do not: whatever the
    backend answers, the reference stays. *)

Lemma fsyncFD_keeps_reference (id : FDID) (w : World) (o : OpenFD) :
  opened id w = Some o ->
  table (snd (fsyncFD id w)) = <[id := IncRef (IsOpen o)]> (table w) /\
  trace (snd (fsyncFD id w))
  = trace w ++ [EvLookup id true; EvImpl (CallSync id)].
Proof.
  intros Ho. unfold fsyncFD. rewrite (LookupOpenFD_ok _ _ _ Ho).
  unfold callB.
  destruct (Sync impl id _) as [err b1]. simpl.
  split; [reflexivity | now rewrite <- app_assoc].
Qed.

Lemma PWrite_keeps_reference (payloadLen : Z) (w : World)
    (req : PWriteReq.t) (o : OpenFD) :
  readonly w = false ->
  CheckedUnmarshal (payloadSlice payloadLen w) = Some req ->
  opened (PWriteReq.FD req) w = Some o ->
  let fd := PWriteReq.FD req in
  let w' := snd (PWriteHandler payloadLen w) in
  table w' = <[fd := IncRef (IsOpen o)]> (table w) /\
  releases fd (trace w') = releases fd (trace w).
Proof.
  intros Hro Hreq Ho fd w'. subst w'.
  destruct (PWriteHandler payloadLen w) as [r wf] eqn:Hrun. cbn [snd].
  unfold PWriteHandler, run, bind at 1, read in Hrun. rewrite Hro in Hrun.
  unfold bind at 1, returnIf at 1, ret in Hrun.
  unfold bind at 1 in Hrun. rewrite (unmarshal_ok _ _ _ Hreq) in Hrun.
  unfold bind at 1, orReturn in Hrun.
  rewrite (LookupOpenFD_ok _ _ o) in Hrun by exact Ho. fold fd in Hrun.
  assert (forall t, releases fd (t ++ [EvPayloadBuf payloadLen; EvLookup fd true])
                    = releases fd t) as Hrel.
  { intros t. unfold releases. rewrite List.filter_app, length_app. simpl. lia. }
  unfold bind, returnIf, ret, return_, orReturn, callB, respond, lift,
    modify in Hrun.
  destruct (fd_writable fd _); cbn [negb] in Hrun.
  - destruct (Write impl fd _ _ _) as [[e|count] b1];
      injection Hrun as <- <-; simpl; (split; [reflexivity|]);
      rewrite <- ?app_assoc; simpl;
      unfold releases; rewrite !List.filter_app, !length_app; simpl; lia.
  - injection Hrun as <- <-. simpl. split; [reflexivity|].
    rewrite <- app_assoc. apply Hrel.
Qed.

Lemma DecRef_trace_cases (id : FDID) (w : World) :
  trace (DecRef id w) = trace w ++ [EvDecRef id] \/
  trace (DecRef id w) = trace w ++ [EvDecRef id; EvImpl (CallClose id)].
Proof.
  unfold DecRef. change (table (log (EvDecRef id) w)) with (table w).
  destruct (table w !! id) as [fd|]; [|now left].
  destruct (refs fd - 1 <=? 0); [right | now left].
  unfold destroy. simpl. now rewrite <- app_assoc.
Qed.

Lemma LinkAt_keeps_target_reference (payloadLen : Z) (w : World)
    (req : LinkAtReq.t) (dc tc : ControlFD) :
  readonly w = false ->
  CheckedUnmarshal (payloadSlice payloadLen w) = Some req ->
  checkSafeName (LinkAtReq.Name req) = nil_err ->
  control (LinkAtReq.DirFD req) w = Some dc ->
  ftype dc = Directory ->
  control (LinkAtReq.Target req) w = Some tc ->
  let target := LinkAtReq.Target req in
  exists new,
    trace (snd (LinkAtHandler payloadLen w)) = trace w ++ new /\
    lookups target new = S (releases target new).
Proof.
  intros Hro Hreq Hsafe Hdc Hdir Htc target.
  set (dir := LinkAtReq.DirFD req) in *.
  set (w1 := received payloadLen w).
  assert (table w1 !! dir = Some (IsControl dc)) as Htd
    by now apply control_table.
  destruct (control target (looked dir (IsControl dc) w1)) as [tc1|] eqn:Htc1;
    [|rewrite (control_looked _ _ _ _ Htd) in Htc1;
      change (control target w1) with (control target w) in Htc1;
      fold target in Htc; rewrite Htc in Htc1; discriminate].
  destruct (LinkAtHandler payloadLen w) as [r wf] eqn:Hrun. cbn [snd].
  unfold LinkAtHandler, run, bind at 1, read in Hrun. rewrite Hro in Hrun.
  unfold bind at 1, returnIf at 1, ret in Hrun.
  unfold bind at 1 in Hrun. rewrite (unmarshal_ok _ _ _ Hreq) in Hrun.
  unfold bind at 1, checkName in Hrun. rewrite Hsafe in Hrun.
  unfold ret, bind at 1, orReturn in Hrun.
  rewrite (LookupControlFD_ok _ _ dc) in Hrun by exact Hdc.
  fold dir w1 in Hrun.
  unfold defer, bind at 1 in Hrun. cbv beta in Hrun.
  rewrite (IsDir_looked dir dc w1 Hdc), Hdir in Hrun.
  unfold bind at 1, returnIf at 1, ret in Hrun. cbn [Kind_eqb negb] in Hrun.
  unfold bind at 1 in Hrun.
  rewrite (LookupControlFD_ok _ _ tc1) in Hrun by exact Htc1.
  fold target in Hrun.
  unfold bind, callH, lift, modify, return_ in Hrun.
  destruct (Link impl target dir _ _) as [[e|link] h'];
    try rewrite respond_eq in Hrun;
    injection Hrun as <- <-;
    match goal with |- context [DecRef dir ?x] =>
      destruct (DecRef_trace_cases dir x) as [Hd | Hd] end;
    rewrite Hd; unfold responded, w1, received, PayloadBuf;
    cbn [trace log set_trace set_heap set_payload store set_table looked
         fst snd];
    rewrite <- !app_assoc; cbn [app];
    eexists; (split; [reflexivity|]);
    unfold lookups, releases;
    cbn [List.filter is_lookup_of is_decref_of length];
    rewrite Z.eqb_refl; destruct (Z.eqb_spec dir target);
    cbn [length]; reflexivity.
Qed.

(** * Further properties of the handlers *)

(** ** The prologue of a handler *)

Lemma decodes_false {R} `{Unmarshal R} (bs : list byte) :
  decodes R bs = false -> CheckedUnmarshal (R := R) bs = None.
Proof. unfold decodes. now destruct (CheckedUnmarshal bs). Qed.

Lemma gate_open (gated : bool) (w : World) :
  gated && readonly w = false -> gated = true -> readonly w = false.
Proof. now intros H ->. Qed.

Ltac unfold_handler :=
  lazymatch goal with
  | |- returning ?f _ _ = _ => unfold returning, f
  | |- ?f _ _ = _ => unfold f
  end.

(** The steps of a handler up to the decoding of the request. *)
Ltac enter_handler Hro :=
  unfold returning, run, runOrPanic, bind, read; cbv beta iota;
  try rewrite (gate_open _ _ Hro eq_refl);
  unfold returnIf, ret; cbv beta iota.

(** X1: A payload that does not decode as the request of the handler makes
    it return EIO; nothing happened but the read of the payload: no
    lookup, no backend call, no panic. On a read-only connection this holds
    for the handlers that do not test [c.readonly] first. *)
Theorem undecodable_request_is_EIO (h : PanickingHandler) (gated : bool)
    (ok : list byte -> bool) (payloadLen : Z) (w : World) :
  In (h, gated, ok) decodingHandlers ->
  gated && readonly w = false ->
  ok (payloadSlice payloadLen w) = false ->
  h payloadLen w = Some ((0, Some EIO), received payloadLen w).
Proof.
  intros Hin Hro Hok. unfold decodingHandlers in Hin. simpl in Hin.
  repeat (destruct Hin as [[= <- <- <-] | Hin];
          [apply decodes_false in Hok;
           unfold_handler; enter_handler Hro;
           rewrite (unmarshal_fail _ _ Hok); reflexivity|]).
  contradiction.
Qed.

Lemma unsafe_name_rejected (nm : string) :
  unsafe_name nm -> checkSafeName nm = Some EINVAL.
Proof.
  intros Hu. destruct (checkSafeName nm) as [e|] eqn:Hc.
  - unfold checkSafeName in Hc.
    destruct (_ && _) in Hc; [discriminate | now injection Hc as <-].
  - apply checkSafeName_nil_iff in Hc. contradiction.
Qed.

(** X2: The handlers that carry a name refuse an unsafe one (empty, ".", ".."
    or with a slash) with EINVAL before they look any descriptor up: the
    state is the one after the read of the payload. *)
Theorem unsafe_name_is_EINVAL (h : RPCHandler)
    (named : list byte -> option string) (payloadLen : Z) (w : World)
    (nm : string) :
  In (h, named) namingHandlers ->
  readonly w = false ->
  named (payloadSlice payloadLen w) = Some nm ->
  unsafe_name nm ->
  h payloadLen w = ((0, Some EINVAL), received payloadLen w).
Proof.
  intros Hin Hro Hnamed Hu. apply unsafe_name_rejected in Hu.
  unfold namingHandlers in Hin. simpl in Hin.
  repeat (destruct Hin as [[= <- <-] | Hin];
          [unfold nameOf in Hnamed;
           destruct (CheckedUnmarshal _) as [req|] eqn:Hreq; [|discriminate];
           injection Hnamed as <-;
           match goal with |- ?f _ _ = _ => unfold f end;
           unfold run, bind, read; cbv beta iota; rewrite Hro;
           unfold returnIf, ret; cbv beta iota;
           rewrite (unmarshal_ok _ _ _ Hreq); cbv beta iota zeta;
           unfold checkName; rewrite Hu; reflexivity|]).
  contradiction.
Qed.

Lemma front_decoded {R} `{Unmarshal R} (nm : R -> option string)
    (fd : R -> FDID) (bs : list byte) (oname : option string) (id : FDID) :
  front nm fd bs = Some (oname, id) ->
  exists req, CheckedUnmarshal bs = Some req /\ nm req = oname /\ fd req = id.
Proof.
  unfold front. destruct (CheckedUnmarshal bs) as [req|]; [|discriminate].
  intros [= <- <-]. now exists req.
Qed.

Lemma lookupAs_any_failed (id : FDID) (w w1 : World) (e : Errno) :
  lookupAs AnyHandle id w = (inl e, w1) -> lookupFD id w = (inl e, w1).
Proof.
  unfold lookupAs. destruct (lookupFD id w) as [[e'|fd] w'].
  - now intros [= -> ->].
  - discriminate.
Qed.

(** The steps of a handler from the decoding to the first lookup. *)
Ltac past_name Hreq Hsafe :=
  rewrite (unmarshal_ok _ _ _ Hreq); cbv beta iota zeta;
  unfold checkName; try rewrite (Hsafe _ eq_refl); unfold ret;
  cbv beta iota.

(** X3: When the first lookup of a handler fails, the handler returns the
    error of the lookup and the state is the one the lookup left: the
    handler made no backend call and released nothing. *)
Theorem failed_lookup_is_returned (h : PanickingHandler) (gated : bool)
    (fr : list byte -> option (option string * FDID)) (v : Variant)
    (payloadLen : Z) (w w1 : World) (oname : option string) (id : FDID)
    (e : Errno) :
  In (h, gated, fr, v) lookingHandlers ->
  gated && readonly w = false ->
  fr (payloadSlice payloadLen w) = Some (oname, id) ->
  (forall nm, oname = Some nm -> checkSafeName nm = nil_err) ->
  lookupAs v id (received payloadLen w) = (inl e, w1) ->
  h payloadLen w = Some ((0, Some e), w1).
Proof.
  intros Hin Hro Hfr Hsafe Hlook. unfold lookingHandlers in Hin.
  simpl in Hin.
  repeat (destruct Hin as [[= <- <- <- <-] | Hin];
          [apply front_decoded in Hfr; destruct Hfr as (req & Hreq & <- & <-);
           try apply lookupAs_any_failed in Hlook;
           unfold_handler; enter_handler Hro; past_name Hreq Hsafe;
           unfold orReturn; unfold lookupAs in Hlook; rewrite Hlook;
           reflexivity|]).
  contradiction.
Qed.

Lemma IsSymlink_looked (id : FDID) (c : ControlFD) (w : World) :
  IsSymlink id (looked id (IsControl c) w) = Kind_eqb (ftype c) SymbolicLink.
Proof.
  unfold IsSymlink, control, looked, table. simpl.
  now rewrite lookup_insert_eq.
Qed.

Lemma IsSocket_looked (id : FDID) (c : ControlFD) (w : World) :
  IsSocket id (looked id (IsControl c) w) = Kind_eqb (ftype c) SocketFile.
Proof.
  unfold IsSocket, control, looked, table. simpl.
  now rewrite lookup_insert_eq.
Qed.

(** X4: A handler that needs a control handle of one kind (a directory to
    work in, a symbolic link to read, a socket to connect to) refuses a
    handle of another kind: ENOTDIR, EINVAL for ReadLinkAt and ENOTSOCK
    for Connect. The reference of the lookup is released, and the handles
    and the backend are as they were: the backend was not called. *)
Theorem wrong_kind_is_refused (h : PanickingHandler) (gated : bool)
    (fr : list byte -> option (option string * FDID)) (k : Kind) (e : Errno)
    (payloadLen : Z) (w : World) (oname : option string) (id : FDID)
    (c : ControlFD) :
  In (h, gated, fr, k, e) kindHandlers ->
  gated && readonly w = false ->
  fr (payloadSlice payloadLen w) = Some (oname, id) ->
  (forall nm, oname = Some nm -> checkSafeName nm = nil_err) ->
  control id w = Some c ->
  ftype c <> k ->
  0 < cfd_refs c ->
  h payloadLen w = Some ((0, Some e), visited id (received payloadLen w)).
Proof.
  intros Hin Hro Hfr Hsafe Hc Hkind Hrefs.
  apply Kind_eqb_neq in Hkind.
  assert (table (received payloadLen w) !! id = Some (IsControl c)) as Ht
    by now apply control_table.
  unfold kindHandlers in Hin. simpl in Hin.
  repeat (destruct Hin as [[= <- <- <- <- <-] | Hin];
          [apply front_decoded in Hfr; destruct Hfr as (req & Hreq & <- & <-);
           unfold_handler; enter_handler Hro; past_name Hreq Hsafe;
           unfold orReturn;
           rewrite (LookupControlFD_ok _ _ c) by exact Hc;
           unfold defer; cbv beta iota;
           rewrite ?(IsDir_looked _ c (received payloadLen w) Hc),
             ?IsSymlink_looked, ?IsSocket_looked, Hkind;
           cbn [negb]; unfold return_;
           now rewrite (DecRef_looked _ _ _ Ht Hrefs)|]).
  contradiction.
Qed.

(** ** References

    A handler that defers the DecRef right after the lookup gives the
    reference back on every path out of it. *)

Lemma balanced_nil : balanced [].
Proof. intros id. reflexivity. Qed.

Lemma balanced_app (t1 t2 : list Event) :
  balanced t1 -> balanced t2 -> balanced (t1 ++ t2).
Proof.
  intros H1 H2 id. specialize (H1 id). specialize (H2 id).
  unfold lookups, releases in *. rewrite !List.filter_app, !length_app. lia.
Qed.

Lemma balanced_other (e : Event) :
  (forall id, is_lookup_of id e = false) ->
  (forall id, is_decref_of id e = false) ->
  balanced [e].
Proof.
  intros Hl Hd id. unfold lookups, releases. simpl. now rewrite Hl, Hd.
Qed.

Lemma balanced_pair (id : FDID) (t rest : list Event) :
  balanced t -> balanced rest ->
  balanced (EvLookup id true :: t ++ EvDecRef id :: rest).
Proof.
  intros Ht Hrest x. specialize (Ht x). specialize (Hrest x).
  unfold lookups, releases in *. simpl.
  rewrite !List.filter_app. simpl.
  destruct (id =? x); simpl; rewrite !length_app; simpl; lia.
Qed.

Lemma settles_same {X} (m : World -> X * World) :
  (forall w, trace (snd (m w)) = trace w) -> settles m.
Proof.
  intros Hm w. exists []. rewrite Hm, app_nil_r. split; [reflexivity|].
  apply balanced_nil.
Qed.

Lemma settlesW_same (f : World -> World) :
  (forall w, trace (f w) = trace w) -> settlesW f.
Proof.
  intros Hf w. exists []. rewrite Hf, app_nil_r. split; [reflexivity|].
  apply balanced_nil.
Qed.

Lemma settles_ret {A} (a : A) : settles (ret a).
Proof. now apply settles_same. Qed.

Lemma settles_return {A} (n : Z) (err : error) :
  settles (return_ (A := A) n err).
Proof. now apply settles_same. Qed.

Lemma settles_read {A} (f : World -> A) : settles (read f).
Proof. now apply settles_same. Qed.

Lemma settles_bind {A C} (m : Go A) (k : A -> Go C) :
  settles m -> (forall a, settles (k a)) -> settles (bind m k).
Proof.
  intros Hm Hk w. unfold bind. destruct (Hm w) as (t1 & Ht1 & Hb1).
  destruct (m w) as [[a|n err] w1]; simpl in *.
  - destruct (Hk a w1) as (t2 & Ht2 & Hb2). exists (t1 ++ t2).
    rewrite Ht2, Ht1, app_assoc. split; [reflexivity|].
    now apply balanced_app.
  - now exists t1.
Qed.

Lemma settles_lift {A} (m : M A) : settles m -> settles (lift m).
Proof. intros Hm w. specialize (Hm w). unfold lift. now destruct (m w). Qed.

Lemma settles_orReturn {A} (m : M (Errno + A)) :
  settles m -> settles (orReturn m).
Proof.
  intros Hm w. specialize (Hm w). unfold orReturn.
  now destruct (m w) as [[e|a] w1].
Qed.

Lemma settles_return0 {A} (m : M error) :
  settles m -> settles (return0 (A := A) m).
Proof. intros Hm w. specialize (Hm w). unfold return0. now destruct (m w). Qed.

Lemma settles_returnBoth {A} (m : M (Z * error)) :
  settles m -> settles (returnBoth (A := A) m).
Proof.
  intros Hm w. specialize (Hm w). unfold returnBoth. now destruct (m w).
Qed.

Lemma settles_returnIf (cond : bool) (n : Z) (err : error) :
  settles (returnIf cond n err).
Proof. destruct cond; now apply settles_same. Qed.

Lemma settles_checkName (n : string) : settles (checkName n).
Proof. unfold checkName. destruct (checkSafeName n); now apply settles_same. Qed.

Lemma settles_modify (f : World -> World) : settlesW f -> settles (modify f).
Proof. intros Hf w. exact (Hf w). Qed.

Lemma settles_PayloadBuf (n : Z) : settles (PayloadBuf n).
Proof.
  intros w. exists [EvPayloadBuf n]. split; [reflexivity|].
  now apply balanced_other.
Qed.

Lemma settles_unmarshal {R} `{Unmarshal R} (n : Z) :
  settles (unmarshal (R := R) n).
Proof.
  intros w. exists [EvPayloadBuf n]. unfold unmarshal, PayloadBuf.
  split; [|now apply balanced_other].
  now destruct (CheckedUnmarshal _).
Qed.

Lemma settlesW_store (pos : Z) (bs : list byte) : settlesW (store pos bs).
Proof. now apply settlesW_same. Qed.

Lemma settlesW_log_lock : settlesW (log EvLock).
Proof.
  intros w. exists [EvLock]. split; [reflexivity | now apply balanced_other].
Qed.

Lemma settlesW_log_unlock : settlesW (log EvUnlock).
Proof.
  intros w. exists [EvUnlock]. split; [reflexivity | now apply balanced_other].
Qed.

Lemma settles_respond {A R} `{Marshal R} (resp : R) :
  settles (respond (A := A) resp).
Proof.
  unfold respond. apply settles_bind; [|intros _; apply settles_bind].
  - apply settles_lift, settles_PayloadBuf.
  - apply settles_modify, settlesW_store.
  - intros _. apply settles_return.
Qed.

Lemma settles_callB {R} (c : Call) (op : B -> R * B) : settles (callB c op).
Proof.
  intros w. exists [EvImpl c]. unfold callB.
  split; [|now apply balanced_other].
  now destruct (op _).
Qed.

Lemma settles_callH {R} (c : Call) (op : Heap -> R * Heap) :
  settles (callH c op).
Proof.
  intros w. exists [EvImpl c]. unfold callH.
  split; [|now apply balanced_other].
  now destruct (op _).
Qed.

Lemma settles_callR {R} (op : B -> R * B) : settles (callR op).
Proof. apply settles_same. intros w. unfold callR. now destruct (op _). Qed.

Lemma settles_callRH {R} (op : Heap -> R * Heap) : settles (callRH op).
Proof. apply settles_same. intros w. unfold callRH. now destruct (op _). Qed.

Lemma settles_forEach {A S} (f : S -> A -> M S) (l : list A) :
  (forall s a, settles (f s a)) -> forall s, settles (forEach f l s).
Proof.
  intros Hf. induction l as [|a l IH]; intros s w; simpl.
  - exists []. rewrite app_nil_r. split; [reflexivity | apply balanced_nil].
  - destruct (Hf s a w) as (t1 & Ht1 & Hb1).
    destruct (f s a w) as [s1 w1]. simpl in *.
    destruct (IH s1 w1) as (t2 & Ht2 & Hb2). exists (t1 ++ t2).
    rewrite Ht2, Ht1, app_assoc. split; [reflexivity|].
    now apply balanced_app.
Qed.

Lemma settlesW_fold_left {A} (f : World -> A -> World) (l : list A) :
  (forall a, settlesW (fun w => f w a)) -> settlesW (fun w => fold_left f l w).
Proof.
  intros Hf. induction l as [|a l IH]; intros w; simpl.
  - exists []. rewrite app_nil_r. split; [reflexivity | apply balanced_nil].
  - destruct (Hf a w) as (t1 & Ht1 & Hb1).
    destruct (IH (f w a)) as (t2 & Ht2 & Hb2). exists (t1 ++ t2).
    rewrite Ht2, Ht1, app_assoc. split; [reflexivity|].
    now apply balanced_app.
Qed.

Lemma settles_recordStat (cur : Z * Z) (s : Statx) : settles (recordStat cur s).
Proof. apply settles_same. intros w. now destruct cur. Qed.

Lemma settles_recordInode (cur : Z * Z) (i : Inode) :
  settles (recordInode cur i).
Proof. apply settles_same. intros w. now destruct cur. Qed.

Lemma settles_recordDirent (cur : Z * Z * Z) (d : Dirent64) :
  settles (recordDirent cur d).
Proof.
  intros w. destruct cur as [[pos bufLen] num]. unfold recordDirent.
  destruct (_ >? _).
  - exists [EvPayloadBuf (uint32 (pos + 10 * 256))].
    split; [reflexivity | now apply balanced_other].
  - exists []. rewrite app_nil_r. split; [reflexivity | apply balanced_nil].
Qed.

Lemma trace_update_control (id : FDID) (f : ControlFD -> ControlFD)
    (w : World) :
  trace (update_control id f w) = trace w.
Proof. unfold update_control. now destruct (control id w). Qed.

Lemma settlesW_runUpdate (update : option (FDID -> B -> B)) (fd : FDID) :
  settlesW (runUpdate update fd).
Proof.
  intros w. destruct update as [f|]; simpl.
  - exists [EvImpl (CallUpdateControlFD fd)].
    split; [reflexivity | now apply balanced_other].
  - exists []. rewrite app_nil_r. split; [reflexivity | apply balanced_nil].
Qed.

Lemma settlesW_runCleanUp (cleanUp : option (B -> B)) :
  settlesW (runCleanUp cleanUp).
Proof.
  intros w. destruct cleanUp as [f|]; simpl.
  - exists [EvImpl CallCleanUp].
    split; [reflexivity | now apply balanced_other].
  - exists []. rewrite app_nil_r. split; [reflexivity | apply balanced_nil].
Qed.

Lemma settlesW_renameRecursiveLocked (newDir : FDID) (newName : string)
    (pit : list string) (update : option (FDID -> B -> B)) :
  forall fd, settlesW (renameRecursiveLocked newDir newName pit update fd).
Proof.
  induction pit as [|cur next IH]; intros fd w.
  - cbn [renameRecursiveLocked].
    destruct (settlesW_runUpdate update fd
                (update_control fd (set_name newName)
                   (setParentLocked fd newDir (clearParentLocked fd w))))
      as (t & Ht & Hb).
    exists t. split; [|exact Hb]. rewrite Ht. f_equal.
    unfold setParentLocked, clearParentLocked.
    now rewrite !trace_update_control.
  - cbn [renameRecursiveLocked].
    apply (settlesW_fold_left
             (fun w' child =>
                if String.eqb (fd_name child w') cur
                then renameRecursiveLocked newDir newName next update child w'
                else w')).
    intros child w1. destruct (String.eqb _ cur).
    + apply IH.
    + exists []. rewrite app_nil_r. split; [reflexivity | apply balanced_nil].
Qed.

Lemma settlesW_forEachMountPoint (oldPath : string) (newDir : FDID)
    (newName : string) (update : option (FDID -> B -> B)) :
  settlesW (forEachMountPoint (renameUnderRoot oldPath newDir newName update)).
Proof.
  intros w. unfold forEachMountPoint.
  apply (settlesW_fold_left (renameUnderRoot oldPath newDir newName update)).
  intros root w1. unfold renameUnderRoot. destruct (negb _).
  - exists []. rewrite app_nil_r. split; [reflexivity | apply balanced_nil].
  - apply settlesW_renameRecursiveLocked.
Qed.

(** The lookup of a control handle with the deferred release. *)
Lemma settles_control_lookup {A} (id : FDID) (body : FDID -> Go A) :
  (forall fd, settles (body fd)) ->
  settles (bind (orReturn (LookupControlFD id))
             (fun fd => defer (DecRef fd) (body fd))).
Proof.
  intros Hbody w. unfold bind, orReturn, LookupControlFD.
  destruct (table w !! id) as [[c|o]|];
    try (exists [EvLookup id false]; split; [reflexivity|];
         now apply balanced_other).
  unfold defer.
  match goal with |- context [body id ?x] =>
    destruct (Hbody id x) as (t & Ht & Hb); destruct (body id x) as [o w1]
  end.
  simpl in *.
  destruct (DecRef_trace_cases id w1) as [Hd | Hd]; rewrite Hd, Ht;
    rewrite <- !app_assoc; simpl; eexists; (split; [reflexivity|]);
    apply balanced_pair; try exact Hb;
    [apply balanced_nil | now apply balanced_other].
Qed.

Lemma settles_open_lookup {A} (id : FDID) (body : FDID -> Go A) :
  (forall fd, settles (body fd)) ->
  settles (bind (orReturn (LookupOpenFD id))
             (fun fd => defer (DecRef fd) (body fd))).
Proof.
  intros Hbody w. unfold bind, orReturn, LookupOpenFD.
  destruct (table w !! id) as [[c|o]|];
    try (exists [EvLookup id false]; split; [reflexivity|];
         now apply balanced_other).
  unfold defer.
  match goal with |- context [body id ?x] =>
    destruct (Hbody id x) as (t & Ht & Hb); destruct (body id x) as [o' w1]
  end.
  simpl in *.
  destruct (DecRef_trace_cases id w1) as [Hd | Hd]; rewrite Hd, Ht;
    rewrite <- !app_assoc; simpl; eexists; (split; [reflexivity|]);
    apply balanced_pair; try exact Hb;
    [apply balanced_nil | now apply balanced_other].
Qed.

Lemma settles_any_lookup {A} (id : FDID) (body : FDRef -> Go A) :
  (forall fd, settles (body fd)) ->
  settles (bind (orReturn (lookupFD id))
             (fun fd => defer (DecRef (ref_id fd)) (body fd))).
Proof.
  intros Hbody w. unfold bind, orReturn, lookupFD.
  destruct (table w !! id) as [fd|];
    [|exists [EvLookup id false]; split; [reflexivity|];
      now apply balanced_other].
  unfold defer.
  match goal with |- context [body ?r ?x] =>
    destruct (Hbody r x) as (t & Ht & Hb); destruct (body r x) as [o' w1];
    replace (ref_id r) with id by now destruct fd
  end.
  simpl in *.
  destruct (DecRef_trace_cases id w1) as [Hd | Hd]; rewrite Hd, Ht;
    rewrite <- !app_assoc; simpl; eexists; (split; [reflexivity|]);
    apply balanced_pair; try exact Hb;
    [apply balanced_nil | now apply balanced_other].
Qed.

Lemma settles_defer_unlock {A} (body : Go A) :
  settles body -> settles (defer (log EvUnlock) body).
Proof.
  intros Hbody w. unfold defer. destruct (Hbody w) as (t & Ht & Hb).
  destruct (body w) as [o w1]. simpl in *. exists (t ++ [EvUnlock]).
  rewrite Ht, app_assoc. split; [reflexivity|].
  apply balanced_app; [exact Hb | now apply balanced_other].
Qed.

Lemma settlesW_addMountPoint (fd : FDID) : settlesW (addMountPoint fd).
Proof. now apply settlesW_same. Qed.

Lemma settlesW_set_mounted (m : bool) : settlesW (set_mounted m).
Proof. now apply settlesW_same. Qed.

Lemma settles_run (body : Go Empty_set) (w : World) :
  settles body ->
  exists new, trace (snd (run body w)) = trace w ++ new /\ balanced new.
Proof.
  intros Hb. unfold run. specialize (Hb w).
  destruct (body w) as [[[]|n err] w1]. exact Hb.
Qed.

Lemma settles_runOrPanic (body : Go Panicked) (w w' : World)
    (r : Z * error) :
  settles body ->
  runOrPanic body w = Some (r, w') ->
  exists new, trace w' = trace w ++ new /\ balanced new.
Proof.
  intros Hb. unfold runOrPanic. specialize (Hb w).
  destruct (body w) as [[p|n err] w1]; [discriminate|].
  now intros [= _ <-].
Qed.

Lemma settles_getLinkBufs (respMetaSize : Z) (asks : list Z)
    (rest : Go Panicked) :
  settles rest -> settles (getLinkBufs respMetaSize asks rest).
Proof.
  intros Hrest. induction asks as [|dataLen asks IH]; [exact Hrest|].
  cbn [getLinkBufs]. apply settles_bind.
  - apply settles_lift, settles_PayloadBuf.
  - intros buf. destruct (len buf <? respMetaSize); [apply settles_ret|].
    exact IH.
Qed.

Create HintDb settles.
#[local] Hint Resolve settles_ret settles_return settles_read settles_lift
  settles_orReturn settles_return0 settles_returnBoth settles_returnIf
  settles_checkName settles_modify settles_PayloadBuf settles_unmarshal
  settles_respond settles_callB settles_callH settles_callR settles_callRH
  settlesW_store settlesW_log_lock settlesW_log_unlock settles_forEach
  settlesW_forEachMountPoint settlesW_runCleanUp settles_recordStat
  settles_recordInode settles_recordDirent settlesW_addMountPoint
  settlesW_set_mounted : settles.

(** One statement of a handler at a time; a lookup goes with the release
    deferred after it. *)
Ltac settles_step :=
  lazymatch goal with
  | |- settles (bind (orReturn (LookupControlFD _)) _) =>
      apply settles_control_lookup; intros ?
  | |- settles (bind (orReturn (LookupOpenFD _)) _) =>
      apply settles_open_lookup; intros ?
  | |- settles (bind (orReturn (lookupFD _)) _) =>
      apply settles_any_lookup; intros ?
  | |- settles (bind _ _) => apply settles_bind; [|intros ?]
  | |- settles (defer (log EvUnlock) _) => apply settles_defer_unlock
  | |- settles (getLinkBufs _ _ _) => apply settles_getLinkBufs
  | |- settles (match ?x with _ => _ end) => destruct x
  | |- settles (orReturn (match ?x with _ => _ end)) => destruct x
  | |- settles panic => apply settles_ret
  | |- _ => solve [auto with settles]
  end.

Ltac settles_body := cbv zeta; repeat settles_step.

(** X5: Every handler that defers its releases leaves a trace in which each
    descriptor was released as often as it was looked up, on every path:
    the errors before and after the lookup, the failures of the backend
    and the success. For the three handlers that can panic this holds
    whenever they return. *)
Theorem deferred_references_are_released :
  (forall h payloadLen w,
     In h deferringHandlers ->
     exists new,
       trace (snd (h payloadLen w)) = trace w ++ new /\ balanced new) /\
  (forall h payloadLen w r w',
     In h deferringPanickingHandlers ->
     h payloadLen w = Some (r, w') ->
     exists new, trace w' = trace w ++ new /\ balanced new).
Proof.
  split.
  - intros h payloadLen w Hin. unfold deferringHandlers in Hin.
    simpl in Hin.
    repeat (destruct Hin as [<- | Hin];
            [apply settles_run; settles_body|]).
    contradiction.
  - intros h payloadLen w r w' Hin Hrun.
    unfold deferringPanickingHandlers in Hin. simpl in Hin.
    repeat (destruct Hin as [<- | Hin];
            [refine (settles_runOrPanic _ _ _ _ _ Hrun); settles_body|]).
    contradiction.
Qed.

(** ** Steps of a handler *)

(** The steps of a handler behind the read-only gate, and of one without
    the gate, up to the decoding of the request. *)
Ltac enter_gated Hro :=
  unfold run, runOrPanic, bind, read; cbv beta iota; rewrite Hro;
  unfold returnIf, ret; cbv beta iota.

Ltac enter_plain :=
  unfold run, runOrPanic, bind, read; cbv beta iota;
  unfold returnIf, ret; cbv beta iota.

Ltac decoded Hreq :=
  rewrite (unmarshal_ok _ _ _ Hreq); cbv beta iota zeta.

(** ** SetStat *)

Lemma setStatSupportedMask_bits (i : Z) :
  Z.testbit setStatSupportedMask i = true <-> In i setStatSupportedBits.
Proof.
  unfold setStatSupportedBits.
  destruct (Z.lt_ge_cases i 0) as [Hneg|Hpos].
  { rewrite Z.testbit_neg_r by exact Hneg. simpl. split; [discriminate|lia]. }
  destruct (Z.lt_ge_cases i 10) as [Hlow|Hhigh].
  - assert (i = 0 \/ i = 1 \/ i = 2 \/ i = 3 \/ i = 4 \/ i = 5 \/ i = 6 \/
            i = 7 \/ i = 8 \/ i = 9) as Hi by lia.
    repeat (destruct Hi as [-> | Hi]); try subst i; simpl In;
      (split; [intros Hb; vm_compute in Hb; first [discriminate | lia]
              | intros Hin; first [reflexivity | lia]]).
  - rewrite Z.bits_above_log2.
    + simpl. split; [discriminate|lia].
    + now vm_compute.
    + change (Z.log2 setStatSupportedMask) with 9. lia.
Qed.

Lemma unsupported_mask (mask i : Z) :
  Z.testbit mask i = true -> ~ In i setStatSupportedBits ->
  (Z.ldiff mask setStatSupportedMask =? 0) = false.
Proof.
  intros Hbit Hnot. apply Z.eqb_neq. intros Hzero.
  assert (Z.testbit (Z.ldiff mask setStatSupportedMask) i = true) as Hd.
  { rewrite Z.ldiff_spec, Hbit.
    destruct (Z.testbit setStatSupportedMask i) eqn:Hs; [|reflexivity].
    now apply setStatSupportedMask_bits in Hs. }
  rewrite Hzero, Z.bits_0 in Hd. discriminate.
Qed.

Lemma supported_mask (mask : Z) :
  (forall i, Z.testbit mask i = true -> In i setStatSupportedBits) ->
  (Z.ldiff mask setStatSupportedMask =? 0) = true.
Proof.
  intros Hbits. apply Z.eqb_eq, Z.bits_inj'. intros i _.
  rewrite Z.ldiff_spec, Z.bits_0.
  destruct (Z.testbit mask i) eqn:Hm; [|reflexivity].
  apply Hbits, setStatSupportedMask_bits in Hm. now rewrite Hm.
Qed.

(** X6: SetStat refuses a mask with a bit other than those of mode, uid, gid,
    atime, mtime and size with EPERM; the backend is not called, and the
    handles are as they were once the lookup is released. *)
Theorem SetStat_unsupported_mask_is_EPERM (payloadLen : Z) (w : World)
    (req : SetStatReq.t) (c : ControlFD) (i : Z) :
  readonly w = false ->
  CheckedUnmarshal (payloadSlice payloadLen w) = Some req ->
  control (SetStatReq.FD req) w = Some c ->
  0 < cfd_refs c ->
  Z.testbit (SetStatReq.Mask req) i = true ->
  ~ In i setStatSupportedBits ->
  SetStatHandler payloadLen w
  = ((0, Some EPERM), visited (SetStatReq.FD req) (received payloadLen w)).
Proof.
  intros Hro Hreq Hc Hrefs Hbit Hnot.
  assert (table (received payloadLen w) !! SetStatReq.FD req
          = Some (IsControl c)) as Ht by now apply control_table.
  unfold SetStatHandler. enter_gated Hro. decoded Hreq.
  unfold orReturn. rewrite (LookupControlFD_ok _ _ c) by exact Hc.
  unfold defer. cbv beta iota.
  rewrite (unsupported_mask _ _ Hbit Hnot). cbn [negb]. unfold return_.
  now rewrite (DecRef_looked _ _ _ Ht Hrefs).
Qed.

(** X7: With a supported mask SetStat calls the backend once and succeeds
    whatever the backend answers: the mask of the attributes that could
    not be set and the errno of the failure travel in the response, which
    is at the start of the payload, and the error of the RPC is nil. *)
Theorem SetStat_failure_travels_in_response (payloadLen : Z) (w : World)
    (req : SetStatReq.t) (c : ControlFD) :
  readonly w = false ->
  CheckedUnmarshal (payloadSlice payloadLen w) = Some req ->
  control (SetStatReq.FD req) w = Some c ->
  0 < cfd_refs c ->
  (forall i, Z.testbit (SetStatReq.Mask req) i = true ->
             In i setStatSupportedBits) ->
  let fd := SetStatReq.FD req in
  let answer := SetStat impl fd req (impl_state (heap w)) in
  let resp := SetStatResp.mk (fst (fst answer))
                (uint32 (ExtractErrno (snd (fst answer)))) in
  let w' := snd (SetStatHandler payloadLen w) in
  fst (SetStatHandler payloadLen w) = (uint32 (SizeBytes resp), nil_err) /\
  take (length (MarshalBytes resp)) (payload w') = MarshalBytes resp /\
  table w' = table w /\
  impl_state (heap w') = snd answer /\
  trace w' = trace w ++ [EvPayloadBuf payloadLen; EvLookup fd true;
                         EvImpl (CallSetStat fd req);
                         EvPayloadBuf (uint32 (SizeBytes resp));
                         EvDecRef fd].
Proof.
  intros Hro Hreq Hc Hrefs Hbits fd answer resp w'. subst w'.
  assert (table (received payloadLen w) !! fd = Some (IsControl c)) as Ht
    by now apply control_table.
  destruct (SetStatHandler payloadLen w) as [r wf] eqn:Hrun. cbn [fst snd].
  unfold SetStatHandler in Hrun. revert Hrun. enter_gated Hro. decoded Hreq.
  unfold orReturn. rewrite (LookupControlFD_ok _ _ c) by exact Hc.
  fold fd. unfold defer. cbv beta iota.
  rewrite (supported_mask _ Hbits). cbn [negb]. unfold lift, callB.
  change (impl_state (heap (log (EvImpl (CallSetStat fd req))
                              (looked fd (IsControl c)
                                 (received payloadLen w)))))
    with (impl_state (heap w)).
  fold answer. destruct answer as [[mask err] b1] eqn:Hanswer.
  cbv beta iota. rewrite respond_eq. cbn [fst snd] in resp. fold resp.
  intros [= <- <-].
  rewrite (DecRef_restores fd (IsControl c) _ (received payloadLen w));
    [|reflexivity|exact Ht|exact Hrefs].
  split; [reflexivity|]. split; [apply responded_payload|].
  split; [reflexivity|]. split; [reflexivity|].
  simpl. now rewrite <- !app_assoc.
Qed.

(** ** Mount *)

Lemma splitSlash_pieces (s : string) :
  Forall (fun e => Strings.HasPrefix e "/" = false) (splitSlash s).
Proof.
  induction s as [|c s IH]; simpl.
  - now constructor.
  - destruct (Ascii.eqb c "/") eqn:Hc.
    + now constructor.
    + destruct (splitSlash s) as [|x xs].
      * constructor; [|constructor]. simpl. now rewrite Hc.
      * inversion IH; subst. constructor; [|assumption].
        simpl. now rewrite Hc.
Qed.

Lemma cleanStep_pieces (rooted : bool) (out : list string) (elem : string) :
  Strings.HasPrefix elem "/" = false ->
  Forall (fun e => e <> "" /\ Strings.HasPrefix e "/" = false) out ->
  Forall (fun e => e <> "" /\ Strings.HasPrefix e "/" = false)
    (cleanStep rooted out elem).
Proof.
  intros Helem Hout. unfold cleanStep.
  destruct (String.eqb_spec elem "") as [->|Hne]; [exact Hout|].
  simpl. destruct (String.eqb elem "."); [exact Hout|].
  destruct (String.eqb elem "..").
  - destruct out as [|top rest].
    + destruct rooted; constructor; auto.
    + destruct (String.eqb top "..").
      * constructor; auto.
      * now inversion Hout.
  - constructor; auto.
Qed.

Lemma fold_cleanStep_pieces (rooted : bool) (elems out : list string) :
  Forall (fun e => Strings.HasPrefix e "/" = false) elems ->
  Forall (fun e => e <> "" /\ Strings.HasPrefix e "/" = false) out ->
  Forall (fun e => e <> "" /\ Strings.HasPrefix e "/" = false)
    (fold_left (cleanStep rooted) elems out).
Proof.
  revert out. induction elems as [|e elems IH]; intros out He Hout; simpl.
  - exact Hout.
  - inversion He; subst. apply IH; [assumption|].
    now apply cleanStep_pieces.
Qed.

Lemma joinSlash_pieces (l : list string) :
  Forall (fun e => e <> "" /\ Strings.HasPrefix e "/" = false) l ->
  Strings.HasPrefix (joinSlash l) "/" = false.
Proof.
  intros Hl. destruct l as [|x l]; [reflexivity|].
  inversion Hl as [|? ? [Hne Hx] Hrest]; subst.
  destruct l as [|y l]; [exact Hx|].
  cbn [joinSlash]. destruct x as [|c x]; [contradiction|].
  simpl in *. exact Hx.
Qed.

(** [path.Clean] keeps a relative path relative. *)
Lemma path_Clean_rel (p : string) :
  filepath_IsAbs p = false -> filepath_IsAbs (path_Clean p) = false.
Proof.
  unfold filepath_IsAbs, path_Clean. intros Hrel.
  destruct (String.eqb p ""); [reflexivity|]. rewrite Hrel.
  match goal with |- context [joinSlash ?l] =>
    assert (Strings.HasPrefix (joinSlash l) "/" = false) as Hbody
  end.
  { apply joinSlash_pieces.
    apply List.Forall_rev, fold_cleanStep_pieces;
      [apply splitSlash_pieces | constructor]. }
  destruct (String.eqb _ ""); [reflexivity | exact Hbody].
Qed.

(** X8: Mount tests the path before the state of the connection: a path that
    is not absolute is refused with EINVAL, on a mounted connection too
    (where an absolute path gives EBUSY), and nothing happened but the read
    of the payload. *)
Theorem Mount_relative_path_is_EINVAL (payloadLen : Z) (w : World)
    (req : MountReq.t) :
  CheckedUnmarshal (payloadSlice payloadLen w) = Some req ->
  filepath_IsAbs (MountReq.MountPath req) = false ->
  MountHandler payloadLen w = ((0, Some EINVAL), received payloadLen w).
Proof.
  intros Hreq Hrel. apply path_Clean_rel in Hrel.
  unfold MountHandler. enter_plain. decoded Hreq.
  now rewrite Hrel.
Qed.

(** On a connection that is not mounted, Mount with an absolute path
    calls the backend with the cleaned path. When the backend fails, its
    error is returned, the connection stays unmounted and the mount points
    are as they were. When it succeeds, the root it made is added after
    the mount points there were, the connection is mounted, and the
    response with the root inode, the supported messages and the maximum
    message size is at the start of the payload. *)
Lemma Mount_follows_backend (payloadLen : Z) (w : World)
    (req : MountReq.t) :
  CheckedUnmarshal (payloadSlice payloadLen w) = Some req ->
  filepath_IsAbs (MountReq.MountPath req) = true ->
  mounted w = false ->
  let mountPath := path_Clean (MountReq.MountPath req) in
  let answer := Mount impl mountPath (heap w) in
  let res := fst (MountHandler payloadLen w) in
  let w' := snd (MountHandler payloadLen w) in
  heap w' = snd answer /\
  impl_calls (trace w') = impl_calls (trace w) ++ [CallMount mountPath] /\
  match fst answer with
  | inl e =>
      res = (0, Some e) /\ mounted w' = false /\
      mountPoints w' = mountPoints w
  | inr (rootFD, rootIno) =>
      let resp := MountResp.mk rootIno (SupportedMessages impl)
                    (uint32 (MaxMessageSize impl)) in
      res = (uint32 (SizeBytes resp), nil_err) /\ mounted w' = true /\
      mountPoints w' = mountPoints w ++ [rootFD] /\
      take (length (MarshalBytes resp)) (payload w') = MarshalBytes resp
  end.
Proof.
  intros Hreq Habs Hm mountPath answer res w'. subst res w'.
  apply path_Clean_abs in Habs. fold mountPath in Habs.
  destruct (MountHandler payloadLen w) as [r wf] eqn:Hrun. cbn [fst snd].
  unfold MountHandler in Hrun. revert Hrun. enter_plain. decoded Hreq.
  fold mountPath. rewrite Habs. cbn [negb].
  change (mounted (received payloadLen w)) with (mounted w). rewrite Hm.
  unfold orReturn, callH.
  change (heap (log (EvImpl (CallMount mountPath)) (received payloadLen w)))
    with (heap w).
  fold answer. destruct answer as [[e|[rootFD rootIno]] h1]; cbv beta iota.
  - intros [= <- <-]. cbn [fst snd]. split; [reflexivity|]. split.
    + simpl. rewrite !impl_calls_app. simpl. now rewrite app_nil_r.
    + split; [reflexivity|]. split; [exact Hm | reflexivity].
  - unfold modify. rewrite respond_eq. intros [= <- <-]. cbn [fst snd].
    split; [reflexivity|]. split.
    + rewrite responded_trace. simpl. rewrite !impl_calls_app. simpl.
      now rewrite !app_nil_r.
    + split; [reflexivity|]. split; [reflexivity|].
      split; [reflexivity | apply responded_payload].
Qed.

(** ** Access modes of open descriptors *)

Lemma fd_writable_looked (id : FDID) (o : OpenFD) (w : World) :
  fd_writable id (looked id (IsOpen o) w) = writable o.
Proof.
  unfold fd_writable, opened, looked, table. simpl.
  now rewrite lookup_insert_eq.
Qed.

Lemma fd_readable_looked (id : FDID) (o : OpenFD) (w : World) :
  fd_readable id (looked id (IsOpen o) w) = readable o.
Proof.
  unfold fd_readable, opened, looked, table. simpl.
  now rewrite lookup_insert_eq.
Qed.

(** X9: PWrite and FAllocate on a descriptor that was not opened for writing,
    and PRead on one that was not opened for reading, return EBADF
    without a call of the backend. PRead and FAllocate release the
    descriptor, which leaves the handles as they were; PWrite returns with
    the reference of its lookup. *)
Theorem wrong_access_mode_is_EBADF (h : PanickingHandler) (gated : bool)
    (fr : list byte -> option (option string * FDID)) (mode : OpenFD -> bool)
    (releasing : bool) (payloadLen : Z) (w : World) (id : FDID) (o : OpenFD) :
  In (h, gated, fr, mode, releasing) accessHandlers ->
  gated && readonly w = false ->
  fr (payloadSlice payloadLen w) = Some (None, id) ->
  opened id w = Some o ->
  0 < ofd_refs o ->
  mode o = false ->
  h payloadLen w
  = Some ((0, Some EBADF),
          if releasing then visited id (received payloadLen w)
          else looked id (IsOpen o) (received payloadLen w)).
Proof.
  intros Hin Hro Hfr Ho Hrefs Hmode.
  assert (table (received payloadLen w) !! id = Some (IsOpen o)) as Ht
    by now apply opened_table.
  unfold accessHandlers in Hin. simpl in Hin.
  repeat (destruct Hin as [[= <- <- <- <- <-] | Hin];
          [apply front_decoded in Hfr; destruct Hfr as (req & Hreq & _ & <-);
           unfold_handler; enter_handler Hro; decoded Hreq;
           unfold orReturn;
           rewrite (LookupOpenFD_ok _ _ o) by exact Ho;
           unfold defer; cbv beta iota;
           rewrite ?fd_writable_looked, ?fd_readable_looked, Hmode;
           cbn [negb]; unfold return_;
           rewrite ?(DecRef_looked _ _ _ Ht Hrefs); reflexivity|]).
  contradiction.
Qed.

(** ** RenameAt *)

(** The second lookup of RenameAt finds the new directory as the first
    lookup left it. *)
Lemma RenameAt_second_lookup (renamed newDir : FDID) (rc dc : ControlFD)
    (w1 : World) :
  control renamed w1 = Some rc ->
  control newDir w1 = Some dc ->
  0 < cfd_refs dc ->
  exists dc1,
    control newDir (looked renamed (IsControl rc) w1) = Some dc1 /\
    ftype dc1 = ftype dc /\ 0 < cfd_refs dc1.
Proof.
  intros Hrc Hdc Hrefs.
  assert (table w1 !! renamed = Some (IsControl rc)) as Htr
    by now apply control_table.
  rewrite (control_looked _ _ _ _ Htr), Hdc. eexists. split; [reflexivity|].
  destruct (decide (newDir = renamed)); simpl; split; try reflexivity; lia.
Qed.

(** X10: RenameAt to a descriptor that is not a directory returns ENOTDIR
    before the rename lock is taken; both lookups are released, and the
    handles and the backend are as they were. *)
Theorem RenameAt_into_non_directory (payloadLen : Z) (w : World)
    (req : RenameAtReq.t) (rc dc : ControlFD) :
  readonly w = false ->
  CheckedUnmarshal (payloadSlice payloadLen w) = Some req ->
  checkSafeName (RenameAtReq.NewName req) = nil_err ->
  control (RenameAtReq.Renamed req) w = Some rc ->
  control (RenameAtReq.NewDir req) w = Some dc ->
  ftype dc <> Directory ->
  0 < cfd_refs rc ->
  0 < cfd_refs dc ->
  let renamed := RenameAtReq.Renamed req in
  let newDir := RenameAtReq.NewDir req in
  let w' := snd (RenameAtHandler payloadLen w) in
  fst (RenameAtHandler payloadLen w) = (0, Some ENOTDIR) /\
  heap w' = heap w /\
  mountPoints w' = mountPoints w /\
  trace w' = trace w ++ [EvPayloadBuf payloadLen; EvLookup renamed true;
                         EvLookup newDir true; EvDecRef newDir;
                         EvDecRef renamed].
Proof.
  intros Hro Hreq Hsafe Hrc Hdc Hkind Hrrefs Hdrefs renamed newDir w'.
  subst w'. apply Kind_eqb_neq in Hkind.
  set (w1 := received payloadLen w).
  set (w2 := looked renamed (IsControl rc) w1).
  assert (table w1 !! renamed = Some (IsControl rc)) as Htr
    by now apply control_table.
  destruct (RenameAt_second_lookup renamed newDir rc dc w1 Hrc Hdc Hdrefs)
    as (dc1 & Hdc1 & Hdir1 & Hdrefs1).
  fold w2 in Hdc1.
  assert (table w2 !! newDir = Some (IsControl dc1)) as Htd
    by now apply control_table.
  destruct (RenameAtHandler payloadLen w) as [r wf] eqn:Hrun. cbn [fst snd].
  unfold RenameAtHandler in Hrun. revert Hrun.
  enter_gated Hro. decoded Hreq.
  unfold checkName. rewrite Hsafe. unfold ret. cbv beta iota.
  unfold orReturn. rewrite (LookupControlFD_ok _ _ rc) by exact Hrc.
  fold renamed w1 w2. unfold defer. cbv beta iota.
  rewrite (LookupControlFD_ok _ _ dc1) by exact Hdc1. fold newDir.
  cbv beta iota.
  rewrite (IsDir_looked _ _ _ Hdc1), Hdir1, Hkind. cbn [negb].
  unfold return_. cbv beta iota.
  rewrite (DecRef_looked _ _ _ Htd Hdrefs1).
  rewrite (DecRef_restores renamed (IsControl rc) _ w1);
    [|reflexivity|exact Htr|exact Hrrefs].
  intros [= <- <-]. split; [reflexivity|].
  unfold w2, w1, table. repeat split.
  - simpl. now destruct (heap w).
  - simpl. now rewrite <- !app_assoc.
Qed.

(** X11: When the backend refuses a rename, RenameAt returns its error: the
    tree of handles is not rewritten, the rename lock and both lookups are
    released, and RenameLocked is the only backend call. *)
Theorem RenameAt_backend_failure (payloadLen : Z) (w : World)
    (req : RenameAtReq.t) (rc dc : ControlFD) (p : FDID) (e : Errno) (b1 : B) :
  readonly w = false ->
  CheckedUnmarshal (payloadSlice payloadLen w) = Some req ->
  checkSafeName (RenameAtReq.NewName req) = nil_err ->
  control (RenameAtReq.Renamed req) w = Some rc ->
  control (RenameAtReq.NewDir req) w = Some dc ->
  ftype dc = Directory ->
  0 < cfd_refs rc ->
  0 < cfd_refs dc ->
  parent rc = Some p ->
  RenameAtReq.NewName req <> name rc \/
  FilePathLocked p w <> FilePathLocked (RenameAtReq.NewDir req) w ->
  RenameLocked impl (RenameAtReq.Renamed req) (RenameAtReq.NewDir req)
    (RenameAtReq.NewName req) (impl_state (heap w)) = (inl e, b1) ->
  let renamed := RenameAtReq.Renamed req in
  let newDir := RenameAtReq.NewDir req in
  let w' := snd (RenameAtHandler payloadLen w) in
  fst (RenameAtHandler payloadLen w) = (0, Some e) /\
  table w' = table w /\
  impl_state (heap w') = b1 /\
  mountPoints w' = mountPoints w /\
  trace w' = trace w ++ [EvPayloadBuf payloadLen; EvLookup renamed true;
                         EvLookup newDir true; EvLock;
                         EvImpl (CallRenameLocked renamed newDir
                                   (RenameAtReq.NewName req));
                         EvUnlock; EvDecRef newDir; EvDecRef renamed].
Proof.
  intros Hro Hreq Hsafe Hrc Hdc Hdir Hrrefs Hdrefs Hp Hmoves Hbackend
    renamed newDir w'.
  subst w'.
  set (w1 := received payloadLen w).
  set (w2 := looked renamed (IsControl rc) w1).
  assert (table w1 !! renamed = Some (IsControl rc)) as Htr
    by now apply control_table.
  destruct (RenameAt_second_lookup renamed newDir rc dc w1 Hrc Hdc Hdrefs)
    as (dc1 & Hdc1 & Hdir1 & Hdrefs1).
  fold w2 in Hdc1. rewrite Hdir in Hdir1.
  assert (table w2 !! newDir = Some (IsControl dc1)) as Htd
    by now apply control_table.
  set (w3 := looked newDir (IsControl dc1) w2).
  set (w4 := log EvLock w3).
  assert (forall x, fd_parent x w4 = fd_parent x w) as Hparent.
  { intros x. change (fd_parent x w4) with (fd_parent x w3). unfold w3, w2.
    now rewrite (fd_parent_looked _ _ _ _ Htd), (fd_parent_looked _ _ _ _ Htr). }
  assert (forall x, fd_name x w4 = fd_name x w) as Hname.
  { intros x. change (fd_name x w4) with (fd_name x w3). unfold w3, w2.
    now rewrite (fd_name_looked _ _ _ _ Htd), (fd_name_looked _ _ _ _ Htr). }
  assert (forall x, FilePathLocked x w4 = FilePathLocked x w) as Hpath.
  { intros x. change (FilePathLocked x w4) with (FilePathLocked x w3).
    unfold w3, w2.
    now rewrite (FilePathLocked_looked _ _ _ _ Htd),
      (FilePathLocked_looked _ _ _ _ Htr). }
  destruct (control_Some_fields _ _ _ Hrc) as (Hpar & Hn & _).
  fold renamed in Hpar, Hn.
  assert (String.eqb (RenameAtReq.NewName req) (name rc)
          && String.eqb (FilePathLocked p w) (FilePathLocked newDir w)
          = false) as Hnot.
  { apply andb_false_iff.
    destruct Hmoves as [Hm | Hm]; [left | right]; now apply String.eqb_neq. }
  destruct (RenameAtHandler payloadLen w) as [r wf] eqn:Hrun. cbn [fst snd].
  unfold RenameAtHandler in Hrun. revert Hrun.
  enter_gated Hro. decoded Hreq.
  unfold checkName. rewrite Hsafe. unfold ret. cbv beta iota.
  unfold orReturn. rewrite (LookupControlFD_ok _ _ rc) by exact Hrc.
  fold renamed w1 w2. unfold defer. cbv beta iota.
  rewrite (LookupControlFD_ok _ _ dc1) by exact Hdc1. fold newDir w3.
  cbv beta iota. unfold w3 at 1.
  rewrite (IsDir_looked _ _ _ Hdc1), Hdir1. cbn [Kind_eqb negb].
  unfold modify. cbv beta iota. fold w4.
  rewrite Hparent, Hpar, Hp, !Hpath, Hname, Hn, Hnot. cbv beta iota.
  unfold callB.
  change (impl_state (heap (log (EvImpl (CallRenameLocked renamed newDir
                                           (RenameAtReq.NewName req))) w4)))
    with (impl_state (heap w)).
  fold renamed newDir in Hbackend. rewrite Hbackend. cbv beta iota.
  intros [= <- <-].
  rewrite (DecRef_restores newDir (IsControl dc1) _ w2);
    [|reflexivity|exact Htd|exact Hdrefs1].
  rewrite (DecRef_restores renamed (IsControl rc) _ w1);
    [|reflexivity|exact Htr|exact Hrrefs].
  split; [reflexivity|]. unfold w4, w3, w2, w1, table. repeat split.
  simpl. now rewrite <- !app_assoc.
Qed.

(** ** Walk and WalkStat *)

Lemma checkSafeName_error (nm : string) (e : Errno) :
  checkSafeName nm = Some e -> e = EINVAL.
Proof.
  unfold checkSafeName. destruct (_ && _); [discriminate|]. now intros [= <-].
Qed.

Lemma checkWalkStatNames_unsafe (path : list string) :
  forall (k i : nat) (nm : string),
    path !! i = Some nm ->
    unsafe_name nm ->
    ~ ((k + i)%nat = 0%nat /\ nm = "") ->
    checkWalkStatNames k path = Some EINVAL.
Proof.
  induction path as [|n path IH]; intros k i nm Hi Hu Hfirst;
    [discriminate|].
  cbn [checkWalkStatNames]. destruct i as [|i]; simpl in Hi.
  - injection Hi as ->.
    destruct (Nat.eqb_spec k 0) as [->|Hk]; simpl.
    + destruct nm as [|c nm]; [now contradiction Hfirst|]. simpl.
      now rewrite (unsafe_name_rejected _ Hu).
    + now rewrite (unsafe_name_rejected _ Hu).
  - assert (checkWalkStatNames (S k) path = Some EINVAL) as Hrest
      by (apply (IH (S k) i nm Hi Hu); lia).
    destruct (Nat.eqb k 0 && _); [exact Hrest|].
    destruct (checkSafeName n) as [e|] eqn:Hn; [|exact Hrest].
    now rewrite (checkSafeName_error _ _ Hn).
Qed.

Lemma checkNames_unsafe (path : list string) (nm : string) :
  In nm path -> unsafe_name nm -> checkNames path = Some EINVAL.
Proof.
  intros Hin Hu. induction path as [|n path IH]; [contradiction|].
  cbn [checkNames]. destruct (checkSafeName n) as [e|] eqn:Hn.
  - now rewrite (checkSafeName_error _ _ Hn).
  - destruct Hin as [-> | Hin]; [|now apply IH].
    rewrite (unsafe_name_rejected _ Hu) in Hn. discriminate.
Qed.

(** X12: WalkStat in a directory refuses a path with an unsafe component
    (empty, ".", ".." or with a slash) with EINVAL, but for an empty first
    component; the backend is not called and the lookup is released. *)
Theorem WalkStat_unsafe_component_is_EINVAL (payloadLen : Z) (w : World)
    (req : WalkReq.t) (c : ControlFD) (i : nat) (nm : string) :
  CheckedUnmarshal (payloadSlice payloadLen w) = Some req ->
  control (WalkReq.DirFD req) w = Some c ->
  ftype c = Directory ->
  0 < cfd_refs c ->
  WalkReq.Path req !! i = Some nm ->
  unsafe_name nm ->
  ~ (i = 0%nat /\ nm = "") ->
  WalkStatHandler payloadLen w
  = ((0, Some EINVAL), visited (WalkReq.DirFD req) (received payloadLen w)).
Proof.
  intros Hreq Hc Hdir Hrefs Hi Hu Hfirst.
  assert (table (received payloadLen w) !! WalkReq.DirFD req
          = Some (IsControl c)) as Ht by now apply control_table.
  unfold WalkStatHandler. enter_plain. decoded Hreq.
  unfold orReturn. rewrite (LookupControlFD_ok _ _ c) by exact Hc.
  unfold defer. cbv beta iota.
  rewrite (IsDir_looked _ c (received payloadLen w) Hc), Hdir. cbn [Kind_eqb negb andb].
  rewrite (checkWalkStatNames_unsafe _ 0 i nm Hi Hu Hfirst).
  unfold return_. now rewrite (DecRef_looked _ _ _ Ht Hrefs).
Qed.

(** X13: Walk in a directory refuses a path with an unsafe component with
    EINVAL, the empty first component too; the backend is not called and
    the lookup is released. *)
Theorem Walk_unsafe_component_is_EINVAL (payloadLen : Z) (w : World)
    (req : WalkReq.t) (c : ControlFD) (nm : string) :
  CheckedUnmarshal (payloadSlice payloadLen w) = Some req ->
  control (WalkReq.DirFD req) w = Some c ->
  ftype c = Directory ->
  0 < cfd_refs c ->
  In nm (WalkReq.Path req) ->
  unsafe_name nm ->
  WalkHandler payloadLen w
  = ((0, Some EINVAL), visited (WalkReq.DirFD req) (received payloadLen w)).
Proof.
  intros Hreq Hc Hdir Hrefs Hin Hu.
  assert (table (received payloadLen w) !! WalkReq.DirFD req
          = Some (IsControl c)) as Ht by now apply control_table.
  unfold WalkHandler. enter_plain. decoded Hreq.
  unfold orReturn. rewrite (LookupControlFD_ok _ _ c) by exact Hc.
  unfold defer. cbv beta iota.
  rewrite (IsDir_looked _ c (received payloadLen w) Hc), Hdir. cbn [Kind_eqb negb].
  rewrite (checkNames_unsafe _ nm Hin Hu).
  unfold return_. now rewrite (DecRef_looked _ _ _ Ht Hrefs).
Qed.

(** *** The layout of the response *)



Lemma length_grow (size : nat) (buf : list byte) :
  (size <= length (grow size buf))%nat.
Proof. unfold grow. rewrite length_app, length_replicate. lia. Qed.




(** ** OpenCreateAt *)



(** ** Close *)

Lemma RemoveFD_absent (ids : list FDID) (w : World) :
  (forall id, In id ids -> table w !! id = None) ->
  fold_left (fun w' fd => RemoveFD fd w') ids w = w.
Proof.
  induction ids as [|id ids IH]; intros Habs; [reflexivity|].
  simpl. unfold RemoveFD at 2. rewrite (Habs id) by now left.
  apply IH. intros x Hx. apply Habs. now right.
Qed.

(** X16: Close never reports an error once the request is decoded, and
    descriptors that are not in the table are passed over: a Close that
    names only such descriptors changes nothing but the read of the
    payload. *)
Theorem Close_never_fails (payloadLen : Z) (w : World) (req : CloseReq.t) :
  CheckedUnmarshal (payloadSlice payloadLen w) = Some req ->
  fst (CloseHandler payloadLen w) = (0, nil_err) /\
  ((forall id, In id (CloseReq.FDs req) -> table w !! id = None) ->
   snd (CloseHandler payloadLen w) = received payloadLen w).
Proof.
  intros Hreq. unfold CloseHandler. enter_plain. decoded Hreq.
  unfold modify, return_. cbv beta iota. split; [reflexivity|].
  intros Habs. cbn [snd]. now apply RemoveFD_absent.
Qed.

(** ** FStat *)

Lemma lookupFD_ok (id : FDID) (fd : genericFD) (w : World) :
  table w !! id = Some fd ->
  lookupFD id w
  = (inr (match fd with
          | IsControl _ => ControlRef id
          | IsOpen _ => OpenRef id
          end), looked id fd w).
Proof. unfold lookupFD. now intros ->. Qed.

(** X17: FStat works on a descriptor of either variant: it asks the stat of the
    control handle or of the open handle, whichever the descriptor is.
    The error of the backend is returned; on success the statx is at the
    start of the payload. In both cases the lookup is released and the
    handles are as they were. *)
Theorem FStat_on_either_variant (payloadLen : Z) (w : World)
    (req : StatReq.t) (fd : genericFD) :
  CheckedUnmarshal (payloadSlice payloadLen w) = Some req ->
  table w !! StatReq.FD req = Some fd ->
  0 < refs fd ->
  let id := StatReq.FD req in
  let answer :=
    match fd with
    | IsControl _ => Reading.ControlStat reading id (impl_state (heap w))
    | IsOpen _ => Reading.OpenStat reading id (impl_state (heap w))
    end in
  let w' := snd (FStatHandler payloadLen w) in
  table w' = table w /\
  impl_state (heap w') = snd answer /\
  match fst answer with
  | inl e => fst (FStatHandler payloadLen w) = (0, Some e)
  | inr st =>
      fst (FStatHandler payloadLen w) = (uint32 (SizeBytes st), nil_err) /\
      take (length (MarshalBytes st)) (payload w') = MarshalBytes st
  end.
Proof.
  intros Hreq Hfd Hrefs id answer w'. subst w'.
  assert (table (received payloadLen w) !! id = Some fd) as Ht by exact Hfd.
  destruct (FStatHandler payloadLen w) as [r wf] eqn:Hrun. cbn [fst snd].
  unfold FStatHandler in Hrun. revert Hrun.
  enter_plain. decoded Hreq. fold id.
  unfold orReturn at 1.
  rewrite (lookupFD_ok _ _ _ Ht). unfold defer. cbv beta iota.
  assert (ref_id match fd with
                 | IsControl _ => ControlRef id
                 | IsOpen _ => OpenRef id
                 end = id) as -> by now destruct fd.
  unfold orReturn, callR.
  destruct fd as [c|o]; cbv beta iota;
    change (impl_state (heap (looked id _ (received payloadLen w))))
      with (impl_state (heap w));
    fold answer; destruct answer as [[e|st] b1]; cbv beta iota;
    try rewrite respond_eq; intros [= <- <-];
    match type of Ht with _ = Some ?g =>
      rewrite (DecRef_restores id g _ (received payloadLen w));
        [|reflexivity|exact Ht|exact Hrefs]
    end;
    (split; [reflexivity|]); (split; [reflexivity|]);
    try reflexivity;
    (split; [reflexivity | apply responded_payload]).
Qed.

(** ** Slices of the payload *)

Lemma len_PayloadBuf (size : Z) (w : World) :
  0 <= size -> len (fst (PayloadBuf size w)) = size.
Proof.
  intros Hsize. unfold PayloadBuf, len. cbn [fst].
  pose proof (length_grow (Z.to_nat size) (payload w)).
  rewrite length_take. lia.
Qed.

Lemma uint32_range (z : Z) : 0 <= uint32 z < 2 ^ 32.
Proof. unfold uint32. apply Z.mod_pos_bound. lia. Qed.

Lemma sliceOf_decoded {R} `{Unmarshal R} (fd : R -> FDID) (size : R -> Z)
    (bs : list byte) (id : FDID) (n : Z) :
  sliceOf fd size bs = Some (id, n) ->
  exists req, CheckedUnmarshal bs = Some req /\ fd req = id /\ size req = n.
Proof.
  unfold sliceOf. destruct (CheckedUnmarshal bs) as [req|]; [|discriminate].
  intros [= <- <-]. now exists req.
Qed.

(** X18: PRead asks for a slice of 4 + Count bytes and FGetXattr for one of
    4 + BufSize bytes, computed in 32 bits; when the sum wraps to less
    than 4, the slice expression [payloadBuf[respMetaSize:]] is out of
    range and the handler panics instead of returning. *)
Theorem short_slice_panics (h : PanickingHandler)
    (slice : list byte -> option (FDID * Z)) (usable : genericFD -> bool)
    (payloadLen : Z) (w : World) (id : FDID) (size : Z) (fd : genericFD) :
  In (h, slice, usable) slicingHandlers ->
  slice (payloadSlice payloadLen w) = Some (id, size) ->
  table w !! id = Some fd ->
  usable fd = true ->
  size < 4 ->
  h payloadLen w = None.
Proof.
  intros Hin Hslice Hfd Huse Hshort.
  unfold slicingHandlers in Hin. simpl in Hin.
  destruct Hin as [[= <- <- <-] | [[= <- <- <-] | []]];
    apply sliceOf_decoded in Hslice;
    destruct Hslice as (req & Hreq & <- & <-);
    destruct fd as [c|o]; try discriminate; simpl in Huse.
  - assert (opened (PReadReq.FD req) w = Some o) as Ho
      by (unfold opened; now rewrite Hfd).
    unfold PReadHandler. enter_plain. decoded Hreq.
    unfold orReturn. rewrite (LookupOpenFD_ok _ _ o) by exact Ho.
    unfold defer. cbv beta iota.
    rewrite fd_readable_looked, Huse. cbn [negb]. unfold lift.
    match goal with |- context [PayloadBuf ?n ?x] =>
      pose proof (len_PayloadBuf n x (proj1 (uint32_range _))) as Hlen;
      destruct (PayloadBuf n x) as [buf w2]
    end.
    cbn [fst] in Hlen. cbv beta iota. rewrite Hlen.
    destruct (Z.ltb_spec (uint32 (4 + PReadReq.Count req)) 4); [|lia].
    reflexivity.
  - assert (control (FGetXattrReq.FD req) w = Some c) as Hc
      by (unfold control; now rewrite Hfd).
    unfold FGetXattrHandler. enter_plain. decoded Hreq.
    unfold orReturn. rewrite (LookupControlFD_ok _ _ c) by exact Hc.
    unfold defer, lift. cbv beta iota.
    match goal with |- context [PayloadBuf ?n ?x] =>
      pose proof (len_PayloadBuf n x (proj1 (uint32_range _))) as Hlen;
      destruct (PayloadBuf n x) as [buf w2]
    end.
    cbn [fst] in Hlen. cbv beta iota. rewrite Hlen.
    destruct (Z.ltb_spec (uint32 (4 + uint32 (FGetXattrReq.BufSize req))) 4);
      [|lia].
    reflexivity.
Qed.

(** X19: With a slice of at least 4 bytes PRead returns: the backend reads
    into the slice after the first 4 bytes, and is asked for that many
    bytes. Its error is returned; on success the payload starts with the
    number of bytes read, as a 32-bit little-endian count, followed by the
    bytes, and the length returned is 4 plus that number. The lookup is
    released and the handles are as they were. *)
Theorem PRead_response_layout (payloadLen : Z) (w : World)
    (req : PReadReq.t) (o : OpenFD) :
  CheckedUnmarshal (payloadSlice payloadLen w) = Some req ->
  opened (PReadReq.FD req) w = Some o ->
  0 < ofd_refs o ->
  readable o = true ->
  4 <= uint32 (4 + PReadReq.Count req) ->
  let fd := PReadReq.FD req in
  let answer := Reading.Read reading fd (PReadReq.Offset req)
                  (uint32 (4 + PReadReq.Count req) - 4)
                  (impl_state (heap w)) in
  exists res w',
    PReadHandler payloadLen w = Some (res, w') /\
    table w' = table w /\
    impl_state (heap w') = snd answer /\
    match fst answer with
    | inl e => res = (0, Some e)
    | inr data =>
        res = (uint32 (4 + uint32 (len data)), nil_err) /\
        take (4 + length data) (payload w')
        = le_bytes 4 (uint32 (len data)) ++ data
    end.
Proof.
  intros Hreq Ho Hrefs Hread Hsize fd answer.
  assert (table (received payloadLen w) !! fd = Some (IsOpen o)) as Ht
    by now apply opened_table.
  unfold PReadHandler. enter_plain. decoded Hreq. fold fd.
  unfold orReturn at 1. rewrite (LookupOpenFD_ok _ _ o) by exact Ho.
  unfold defer. cbv beta iota.
  rewrite fd_readable_looked, Hread. cbn [negb]. unfold lift.
  set (size := uint32 (4 + PReadReq.Count req)) in *.
  set (w1 := looked fd (IsOpen o) (received payloadLen w)).
  pose proof (len_PayloadBuf size w1 (proj1 (uint32_range _))) as Hlen.
  assert (4 <= length (payload (snd (PayloadBuf size w1))))%nat as Hbuf.
  { unfold PayloadBuf. simpl.
    match goal with |- (_ <= length (grow ?n ?b))%nat =>
      pose proof (length_grow n b) end.
    lia. }
  assert (table (snd (PayloadBuf size w1)) = table w1
          /\ impl_state (heap (snd (PayloadBuf size w1)))
             = impl_state (heap w)) as [Htable Hstate] by now split.
  destruct (PayloadBuf size w1) as [buf w2]. cbn [fst snd] in *.
  cbv beta iota. rewrite Hlen.
  destruct (Z.ltb_spec size 4); [lia|].
  unfold orReturn, callR. rewrite Hstate. fold answer.
  destruct answer as [[e|data] b1]; cbv beta iota.
  - eexists _, _. split; [reflexivity|].
    rewrite (DecRef_restores fd (IsOpen o) _ (received payloadLen w));
      [|exact Htable|exact Ht|exact Hrefs].
    repeat split.
  - unfold modify, return_. cbv beta iota.
    eexists _, _. split; [reflexivity|].
    rewrite (DecRef_restores fd (IsOpen o) _ (received payloadLen w));
      [|exact Htable|exact Ht|exact Hrefs].
    split; [reflexivity|]. split; [reflexivity|]. split; [reflexivity|].
    simpl. do 4 f_equal.
    rewrite drop_app_length' by (rewrite length_take; lia).
    apply take_app_length.
Qed.

(** ** The tree of handles under a rename *)


(** ** The flags of the connection, for every handler *)

Lemma keeps_callR {R} (op : B -> R * B) : keeps (callR op).
Proof. intros w. unfold callR. now destruct (op _). Qed.

Lemma keeps_callRH {R} (op : Heap -> R * Heap) : keeps (callRH op).
Proof. intros w. unfold callRH. now destruct (op _). Qed.

Lemma keeps_lookupFD (id : FDID) : keeps (lookupFD id).
Proof. intros w. unfold lookupFD. now destruct (table w !! id). Qed.

Lemma keepsW_RemoveFD (id : FDID) : keepsW (RemoveFD id).
Proof.
  intros w. unfold RemoveFD. destruct (table w !! id) as [fd|].
  - destruct (refs fd - 1 <=? 0); [|now split].
    unfold destroy. now destruct fd.
  - apply same_conn_refl.
Qed.

Lemma keepsW_closeAll (ids : list FDID) :
  keepsW (fun w => fold_left (fun w' fd => RemoveFD fd w') ids w).
Proof.
  apply (keepsW_fold_left (fun w' fd => RemoveFD fd w')).
  intros id. apply keepsW_RemoveFD.
Qed.

Lemma keeps_returnBoth {A} (m : M (Z * error)) :
  keeps m -> keeps (returnBoth (A := A) m).
Proof. intros Hm w. specialize (Hm w). unfold returnBoth. now destruct (m w). Qed.

Lemma keeps_recordInode (cur : Z * Z) (i : Inode) : keeps (recordInode cur i).
Proof. intros w. now destruct cur. Qed.

Lemma keeps_runOrPanic (body : Go Panicked) (w w' : World) (r : Z * error) :
  keeps body -> runOrPanic body w = Some (r, w') -> same_conn w w'.
Proof.
  intros Hb. unfold runOrPanic. specialize (Hb w).
  destruct (body w) as [[p|n err] w1]; [discriminate|].
  now intros [= _ <-].
Qed.

Lemma keeps_getLinkBufs (respMetaSize : Z) (asks : list Z)
    (rest : Go Panicked) :
  keeps rest -> keeps (getLinkBufs respMetaSize asks rest).
Proof.
  intros Hrest. induction asks as [|dataLen asks IH]; [exact Hrest|].
  cbn [getLinkBufs]. apply keeps_bind.
  - apply keeps_lift, keeps_PayloadBuf.
  - intros buf. destruct (len buf <? respMetaSize); [apply keeps_ret|].
    exact IH.
Qed.

#[local] Hint Resolve keeps_callR keeps_callRH keeps_lookupFD
  keepsW_closeAll keeps_returnBoth keeps_recordInode : keeps.

Ltac keeps_more :=
  lazymatch goal with
  | |- keeps (bind _ _) => apply keeps_bind; [|intros ?]
  | |- keeps (defer _ _) => apply keeps_defer
  | |- keeps (orReturn (match ?x with _ => _ end)) => destruct x
  | |- keeps (getLinkBufs _ _ _) => apply keeps_getLinkBufs
  | |- keeps (match ?x with _ => _ end) => destruct x
  | |- keeps panic => apply keeps_ret
  | |- _ => solve [auto with keeps]
  end.

(** No handler writes [c.readonly], and MountHandler is the only handler
    that writes [c.mounted]: every other handler, those of the reading
    RPCs and of Close too, returns with both flags as they were. *)
Lemma flags_are_kept_by_every_handler :
  (forall payloadLen w,
     readonly (snd (MountHandler payloadLen w)) = readonly w) /\
  (forall h payloadLen w r w',
     In h handlersBesideMount ->
     h payloadLen w = Some (r, w') ->
     mounted w' = mounted w /\ readonly w' = readonly w).
Proof.
  split.
  - intros payloadLen w.
    unfold MountHandler, run, bind.
    destruct (CheckedUnmarshal (R := MountReq.t) (payloadSlice payloadLen w))
      as [req|] eqn:Hreq.
    + rewrite (unmarshal_ok _ _ _ Hreq).
      unfold returnIf, read, orReturn, callH, modify, respond, lift,
        return_, ret.
      destruct (filepath_IsAbs _); simpl; [|reflexivity].
      destruct (mounted w); simpl; [reflexivity|].
      now destruct (Mount impl _ _) as [[e|[rootFD rootIno]] h'].
    + now rewrite (unmarshal_fail _ _ Hreq).
  - intros h payloadLen w r w' Hin Hrun.
    unfold handlersBesideMount in Hin.
    apply in_app_or in Hin. destruct Hin as [Hin | Hin].
    + apply in_map_iff in Hin. destruct Hin as (g & <- & Hin).
      injection Hrun as Hrun. apply in_app_or in Hin.
      assert (same_conn w (snd (g payloadLen w))) as Hsame.
      { destruct Hin as [Hin | Hin].
        - now apply otherHandlers_keep_flags.
        - unfold readingHandlers in Hin. simpl in Hin.
          repeat (destruct Hin as [<- | Hin];
                  [apply keeps_run; cbv zeta; repeat keeps_more|]).
          contradiction. }
      rewrite Hrun in Hsame. exact Hsame.
    + simpl in Hin.
      repeat (destruct Hin as [<- | Hin];
              [refine (keeps_runOrPanic _ _ _ _ _ Hrun);
               cbv zeta; repeat keeps_more|]).
      contradiction.
Qed.

(** ** Handlers that forward the answer of the backend *)

Lemma backendCall_decoded {R X} `{Unmarshal R} (call : R -> option Call)
    (op : R -> X) (bs : list byte) (req : R) (c : option Call) (x : X) :
  CheckedUnmarshal bs = Some req ->
  backendCall call op bs = Some (c, x) ->
  call req = c /\ op req = x.
Proof. unfold backendCall. intros ->. now intros [= <- <-]. Qed.

Lemma trace_callR {R} (op : B -> R * B) (w : World) :
  callR op w
  = (fst (op (impl_state (heap w))),
     set_heap (set_impl_state (snd (op (impl_state (heap w)))) (heap w)) w).
Proof. unfold callR. now destruct (op _). Qed.

Lemma callB_eq {R} (c : Call) (op : B -> R * B) (w : World) :
  callB c op w
  = (fst (op (impl_state (heap w))),
     set_heap (set_impl_state (snd (op (impl_state (heap w))))
                 (heap (log (EvImpl c) w))) (log (EvImpl c) w)).
Proof. unfold callB. simpl. now destruct (op _). Qed.


(** X21: FAllocate, Flush, Connect, UnlinkAt, FSetXattr and FRemoveXattr have
    no response message: on a descriptor they accept they call the backend
    once and return what it answers, nil or an error, with length 0; the
    payload is not written, the lookup is released and the handles are as
    they were. The xattr handlers accept a control handle of any kind. *)
Theorem backend_answer_is_forwarded (h : RPCHandler) (gated : bool)
    (fr : list byte -> option (option string * FDID))
    (usable : genericFD -> bool)
    (bc : list byte -> option (option Call * (B -> error * B)))
    (payloadLen : Z) (w : World) (oname : option string) (id : FDID)
    (fd : genericFD) (call : option Call) (op : B -> error * B) :
  In (h, gated, fr, usable, bc) forwardingHandlers ->
  gated && readonly w = false ->
  fr (payloadSlice payloadLen w) = Some (oname, id) ->
  (forall nm, oname = Some nm -> checkSafeName nm = nil_err) ->
  bc (payloadSlice payloadLen w) = Some (call, op) ->
  table w !! id = Some fd ->
  usable fd = true ->
  0 < refs fd ->
  let answer := op (impl_state (heap w)) in
  let w' := snd (h payloadLen w) in
  fst (h payloadLen w) = (0, fst answer) /\
  table w' = table w /\
  impl_state (heap w') = snd answer /\
  payload w' = payload (received payloadLen w) /\
  trace w' = trace w ++ [EvPayloadBuf payloadLen; EvLookup id true]
                     ++ callEvents call ++ [EvDecRef id].
Proof.
  intros Hin Hro Hfr Hsafe Hbc Hfd Huse Hrefs answer w'. subst w' answer.
  assert (table (received payloadLen w) !! id = Some fd) as Ht by exact Hfd.
  unfold forwardingHandlers in Hin. simpl in Hin.
  repeat (destruct Hin as [[= <- <- <- <- <-] | Hin];
    [apply front_decoded in Hfr; destruct Hfr as (req & Hreq & <- & <-);
     destruct (backendCall_decoded _ _ _ _ _ _ Hreq Hbc) as [<- <-];
     destruct fd as [c|o]; try discriminate; cbn in Huse;
     match goal with
     | |- context [?f payloadLen w] =>
         destruct (f payloadLen w) as [r wf] eqn:Hrun; unfold f in Hrun
     end;
     cbn [fst snd]; revert Hrun;
     enter_handler Hro; past_name Hreq Hsafe; unfold orReturn;
     first [ rewrite (LookupControlFD_ok _ (received payloadLen w) c)
               by (unfold control; now rewrite Ht)
           | rewrite (LookupOpenFD_ok _ (received payloadLen w) o)
               by (unfold opened; now rewrite Ht) ];
     unfold defer; cbv beta iota;
     rewrite ?fd_writable_looked, ?IsSocket_looked;
     try rewrite (IsDir_looked _ c (received payloadLen w))
       by (unfold control; now rewrite Ht);
     rewrite ?Huse; cbn [negb]; unfold return0;
     rewrite ?callB_eq, ?trace_callR; cbv beta iota;
     intros [= <- <-];
     match type of Ht with _ = Some ?g =>
       rewrite (DecRef_restores _ g _ (received payloadLen w));
         [|reflexivity|exact Ht|exact Hrefs]
     end;
     repeat split; simpl; now rewrite <- ?app_assoc|]).
  contradiction.
Qed.

(** ** Handlers that make a node *)


(** ** The mounted flag *)

Lemma serves_keeps_mounted (w w' : World) :
  serves w w' -> mounted w = true -> mounted w' = true.
Proof.
  intros [h request payloadLen r Hin Hrun] Hm.
  destruct Hin as [<- | Hin].
  - injection Hrun as Hrun.
    pose proof (Mount_mounted_flag payloadLen (arrives request w)) as Hflag.
    rewrite Hrun in Hflag. cbn [fst snd] in Hflag.
    change (mounted (arrives request w)) with (mounted w) in Hflag.
    now rewrite Hflag, Hm.
  - destruct (proj2 flags_are_kept_by_every_handler _ _ _ _ _ Hin Hrun)
      as [Hkept _].
    now rewrite Hkept.
Qed.

(** C4: the mounted flag of a connection goes from false to true once
    and stays. A Mount leaves the flag set when it was set and sets it
    exactly when it succeeds. On a connection that is not mounted, a Mount
    with a well-formed absolute path calls the backend with the cleaned
    path and follows its answer: the error of the backend is returned and
    the connection stays unmounted, or the Mount succeeds, the flag is set,
    the root is added to the mount points and the response is in the
    payload. No other handler changes the flag. On a mounted connection a
    Mount with a well-formed absolute path returns EBUSY, records nothing
    but the read of the payload (the backend Mount is not invoked) and
    leaves the flag set. So after a successful Mount, whatever requests
    the connection serves next, the flag is set and every such Mount that
    arrives fails with EBUSY. *)
Theorem Mount_exactly_once :
  (forall payloadLen w,
     mounted (snd (MountHandler payloadLen w))
     = mounted w || is_nil (snd (fst (MountHandler payloadLen w)))) /\
  (forall payloadLen w req,
     CheckedUnmarshal (payloadSlice payloadLen w) = Some req ->
     filepath_IsAbs (MountReq.MountPath req) = true ->
     mounted w = false ->
     let mountPath := path_Clean (MountReq.MountPath req) in
     let answer := Mount impl mountPath (heap w) in
     let res := fst (MountHandler payloadLen w) in
     let w' := snd (MountHandler payloadLen w) in
     heap w' = snd answer /\
     impl_calls (trace w') = impl_calls (trace w) ++ [CallMount mountPath] /\
     match fst answer with
     | inl e =>
         res = (0, Some e) /\ mounted w' = false /\
         mountPoints w' = mountPoints w
     | inr (rootFD, rootIno) =>
         let resp := MountResp.mk rootIno (SupportedMessages impl)
                       (uint32 (MaxMessageSize impl)) in
         res = (uint32 (SizeBytes resp), nil_err) /\ mounted w' = true /\
         mountPoints w' = mountPoints w ++ [rootFD] /\
         take (length (MarshalBytes resp)) (payload w') = MarshalBytes resp
     end) /\
  (forall h payloadLen w r w',
     In h handlersBesideMount ->
     h payloadLen w = Some (r, w') ->
     mounted w' = mounted w) /\
  (forall payloadLen w req,
     CheckedUnmarshal (payloadSlice payloadLen w) = Some req ->
     filepath_IsAbs (MountReq.MountPath req) = true ->
     mounted w = true ->
     MountHandler payloadLen w = ((0, Some EBUSY), received payloadLen w) /\
     mounted (snd (MountHandler payloadLen w)) = true /\
     impl_calls (trace (snd (MountHandler payloadLen w)))
     = impl_calls (trace w)) /\
  (forall payloadLen w n w1,
     mounted w = false ->
     MountHandler payloadLen w = ((n, nil_err), w1) ->
     forall w2,
       rtc serves w1 w2 ->
       mounted w2 = true /\
       forall request payloadLen' req,
         CheckedUnmarshal (payloadSlice payloadLen' (arrives request w2))
         = Some req ->
         filepath_IsAbs (MountReq.MountPath req) = true ->
         MountHandler payloadLen' (arrives request w2)
         = ((0, Some EBUSY), received payloadLen' (arrives request w2))).
Proof.
  split; [exact Mount_mounted_flag | split; [|split; [|split]]].
  - intros payloadLen w req Hreq Habs Hm.
    exact (Mount_follows_backend payloadLen w req Hreq Habs Hm).
  - intros h payloadLen w r w' Hin Hrun.
    exact (proj1 (proj2 flags_are_kept_by_every_handler _ _ _ _ _ Hin Hrun)).
  - intros payloadLen w req Hreq Habs Hm. apply path_Clean_abs in Habs.
    rewrite (Mount_again_busy _ _ _ Hreq Habs Hm). simpl.
    split; [reflexivity | split; [exact Hm|]].
    rewrite impl_calls_app. simpl. apply app_nil_r.
  - intros payloadLen w n w1 Hm Hrun w2 Hlater.
    assert (mounted w1 = true) as Hm1.
    { pose proof (Mount_mounted_flag payloadLen w) as Hflag.
      rewrite Hrun in Hflag. simpl in Hflag. rewrite Hflag, Hm. reflexivity. }
    assert (mounted w2 = true) as Hm2.
    { clear Hrun. induction Hlater as [|x y z Hstep _ IH]; [exact Hm1|].
      apply IH. now apply (serves_keeps_mounted x). }
    split; [exact Hm2|].
    intros request payloadLen' req Hreq Habs. apply path_Clean_abs in Habs.
    now apply (Mount_again_busy _ _ req).
Qed.


End Lisafs.

(** * The handlers on concrete requests *)

Module Scenarios.

Import Sample ReadingSample.

(** MkdirAt on the read-only connection. *)
Lemma readonly_rejects_mutating_witness :
  readonly (conn true mkdirReq) = true /\
  MkdirAtHandler impl (len mkdirReq) (conn true mkdirReq)
  = ((0, Some EROFS), conn true mkdirReq).
Proof.
  split; [reflexivity|].
  apply (readonly_rejects_mutating impl).
  - do 3 right. left. reflexivity.
  - reflexivity.
Defined.

(** The same request on a writable connection reaches the backend. *)
Example MkdirAt_writable :
  let out := MkdirAtHandler impl (len mkdirReq) (conn false mkdirReq) in
  fst out = (260, nil_err) /\
  impl_calls (trace (snd out)) = [CallMkdir 1 493 0 0 "new"].
Proof. vm_compute. split; reflexivity. Qed.

(** Mount on a connection that is not mounted, then Mount again. *)
Lemma Mount_exactly_once_witness :
  let first := MountHandler impl (len mountReq) (unmounted mountReq) in
  mounted (unmounted mountReq) = false /\
  snd (fst first) = nil_err /\
  mounted (snd first) = true /\
  MountHandler impl (len mountReq) (arrives mountReq (snd first))
  = ((0, Some EBUSY),
     received (len mountReq) (arrives mountReq (snd first))).
Proof.
  intros first.
  assert (MountHandler impl (len mountReq) (unmounted mountReq)
          = ((fst (fst first), nil_err), snd first)) as Hrun
    by (vm_compute; reflexivity).
  destruct (proj2 (proj2 (proj2 (proj2
              (Mount_exactly_once impl reading walkStatusSize inodeSize))))
              (len mountReq) (unmounted mountReq) _ _ eq_refl Hrun
              (snd first) (rtc_refl _ _)) as [Hm Hbusy].
  split; [reflexivity|]. split; [vm_compute; reflexivity|].
  split; [exact Hm|].
  apply (Hbusy mountReq (len mountReq) (MountReq.mk "/srv"));
    vm_compute; reflexivity.
Defined.

(** Mount, then Mount again. *)
Example Mount_then_Mount :
  let first := MountHandler impl (len mountReq) (unmounted mountReq) in
  let second := MountHandler impl (len mountReq)
                  (set_payload mountReq (snd first)) in
  snd (fst first) = nil_err /\
  mounted (snd first) = true /\
  mountPoints (snd first) = [1] /\
  fst second = (0, Some EBUSY) /\
  impl_calls (trace (snd second)) = [CallMount "/srv"].
Proof. vm_compute. repeat split; reflexivity. Qed.

(** RenameAt of the mount root, and of hosts to where it is. *)
Lemma RenameAt_root_busy_same_place_noop_witness :
  fst (RenameAtHandler impl 13 (conn false (renameReq 1 3 "x")))
  = (0, Some EBUSY) /\
  fst (RenameAtHandler impl 17 (conn false (renameReq 2 1 "hosts")))
  = (0, nil_err).
Proof.
  split.
  - apply (proj1 (RenameAt_root_busy_same_place_noop impl 13
                    (conn false (renameReq 1 3 "x"))
                    (RenameAtReq.mk 1 3 "x")
                    (mkControlFD 1 Directory "/srv" None [2; 3])
                    (mkControlFD 1 Directory "etc" (Some 1) [])
                    eq_refl eq_refl eq_refl eq_refl eq_refl eq_refl
                    eq_refl eq_refl)).
    reflexivity.
  - apply (proj2 (RenameAt_root_busy_same_place_noop impl 17
                    (conn false (renameReq 2 1 "hosts"))
                    (RenameAtReq.mk 2 1 "hosts")
                    (mkControlFD 1 RegularFile "hosts" (Some 1) [])
                    (mkControlFD 1 Directory "/srv" None [2; 3])
                    eq_refl eq_refl eq_refl eq_refl eq_refl eq_refl
                    eq_refl eq_refl) 1);
      reflexivity.
Defined.

(** A rename that is neither: the backend is asked and the handle moves. *)
Example RenameAt_moves :
  let w' := snd (RenameAtHandler impl 14 (conn false (renameReq 2 3 "h2"))) in
  impl_calls (trace w') = [CallRenameLocked 2 3 "h2"] /\
  fd_parent 2 w' = Some 3 /\
  fd_name 2 w' = "h2" /\
  fd_children 1 w' = [3] /\
  fd_children 3 w' = [2] /\
  FilePathLocked 2 w' = "/srv/etc/h2".
Proof. vm_compute. repeat split; reflexivity. Qed.


(** OpenAt of the file hosts with O_RDONLY, O_TRUNC and a flag that is not
    allowed (0x4000): the backend sees O_TRUNC alone. *)
Example OpenAt_masks_extra_flags :
  let out := OpenAtHandler impl 8 (conn false (openReq 2 (512 + 16384))) in
  fst out = (4, nil_err) /\
  impl_calls (trace (snd out)) = [CallOpen 2 512].
Proof. vm_compute. split; reflexivity. Qed.

(** FSync of 4, 6 and 7, where the sync of 6 fails. *)
Lemma FSync_syncs_all_witness :
  fst (FSyncHandler impl 16 (conn false fsyncReq)) = (0, Some EIO) /\
  impl_calls (trace (snd (FSyncHandler impl 16 (conn false fsyncReq))))
  = [CallSync 4; CallSync 6; CallSync 7].
Proof.
  destruct (FSync_syncs_all impl 16 (conn false fsyncReq)
              (FsyncReq.mk [4; 6; 7]) eq_refl) as (Hres & _ & Hcalls & _).
  split; [exact Hres | exact Hcalls].
Defined.


Example WalkStat_component_on_non_directory :
  let out := WalkStatHandler impl 13 (conn false (walkReq 2 ["a"])) in
  fst out = (0, Some ENOTDIR) /\ impl_calls (trace (snd out)) = [].
Proof. vm_compute. split; reflexivity. Qed.

(** Getdents64 of the open directory 5 with the count -100. *)
Lemma Getdents64_count_and_seek_witness :
  let w := conn false (getdentsReq 5 (2 ^ 32 - 100)) in
  let w' := snd (Getdents64Handler impl 8 w) in
  impl_calls (trace w') = [CallGetdent64 5 100 true] /\
  table w' = table w /\
  fst (Getdents64Handler impl 8 w)
  = (direntsEnd [mkDirent64 1 1 8 "hosts"], nil_err) /\
  take 4 (payload w') = le_bytes 4 1.
Proof.
  intros w w'.
  assert (CheckedUnmarshal (payloadSlice 8 w)
          = Some (Getdents64Req.mk 5 (-100))) as Hreq
    by (vm_compute; reflexivity).
  assert (opened 5 w = Some (mkOpenFD 1 3 Directory true false)) as Ho
    by (vm_compute; reflexivity).
  assert (- 2 ^ 31 <= -100 < 2 ^ 31) as Hcount by lia.
  destruct (proj1 (Getdents64_count_and_seek impl 8 w _ _ Hreq Ho eq_refl
                     Hcount) eq_refl) as (Hcalls & Htable & _ & Hres).
  split; [exact Hcalls|]. split; [exact Htable|]. exact Hres.
Defined.

Example Getdents64_least_count :
  impl_calls (trace (snd (Getdents64Handler impl 8
                            (conn false (getdentsReq 5 (2 ^ 31))))))
  = [CallGetdent64 5 (2 ^ 31) true].
Proof. vm_compute. reflexivity. Qed.

Example Getdents64_on_file :
  let out := Getdents64Handler impl 8 (conn false (getdentsReq 4 100)) in
  fst out = (0, Some ENOTDIR) /\ impl_calls (trace (snd out)) = [].
Proof. vm_compute. split; reflexivity. Qed.

(** The open directory 5 keeps its control handle 3 when 3 has left the
    table: Getdents64 still reaches the backend. *)
Example Getdents64_after_Close :
  let closed := snd (CloseHandler impl 8 (conn false (closeReq [3]))) in
  let out := Getdents64Handler impl 8 (arrives (getdentsReq 5 100) closed) in
  table closed !! 3 = None /\
  snd (fst out) = nil_err /\
  impl_calls (trace (snd out)) = [CallClose 3; CallGetdent64 5 100 false].
Proof. vm_compute. repeat split; reflexivity. Qed.


(** O_RDONLY with a flag that is not allowed goes through on the
    read-only connection. *)
Example OpenAt_readonly_reads :
  let out := OpenAtHandler impl 8 (conn true (openReq 2 16384)) in
  fst out = (4, nil_err) /\ impl_calls (trace (snd out)) = [CallOpen 2 0].
Proof. vm_compute. split; reflexivity. Qed.

(** C2: the claim that every lookup of a descriptor is released before the
    handler returns fails on the code. On the connection above, where
    every handle has one reference: FSync of 4, 6 and 7 returns with two
    references on each of them, PWrite on 4 returns with two references on
    4, and LinkAt of the target 2 into the directory 3 returns with two
    references on 2 (the directory 3, whose release is deferred, is back
    to one); each trace has the successful lookup and no DecRef of that
    descriptor. FAllocate on 4, which defers the release, returns with the
    one reference. *)
Theorem lookup_references_not_released :
  let fsync := FSyncHandler impl 16 (conn false fsyncReq) in
  let pwrite := PWriteHandler impl 20 (conn false pwriteReq) in
  let link := LinkAtHandler impl 17 (conn false linkReq) in
  let fallocate := FAllocateHandler impl 28 (conn false fallocateReq) in
  (forall id, In id [2; 3; 4; 6; 7] -> refcount id (conn false []) = Some 1) /\
  (fst fsync = (0, Some EIO) /\
   forall id, In id [4; 6; 7] ->
     lookups id (trace (snd fsync)) = 1%nat /\
     releases id (trace (snd fsync)) = 0%nat /\
     refcount id (snd fsync) = Some 2) /\
  (fst pwrite = (8, nil_err) /\
   lookups 4 (trace (snd pwrite)) = 1%nat /\
   releases 4 (trace (snd pwrite)) = 0%nat /\
   refcount 4 (snd pwrite) = Some 2) /\
  (snd (fst link) = nil_err /\
   lookups 2 (trace (snd link)) = 1%nat /\
   releases 2 (trace (snd link)) = 0%nat /\
   refcount 2 (snd link) = Some 2 /\
   lookups 3 (trace (snd link)) = 1%nat /\
   releases 3 (trace (snd link)) = 1%nat /\
   refcount 3 (snd link) = Some 1) /\
  (fst fallocate = (0, nil_err) /\
   lookups 4 (trace (snd fallocate)) = 1%nat /\
   releases 4 (trace (snd fallocate)) = 1%nat /\
   refcount 4 (snd fallocate) = Some 1).
Proof.
  cbv zeta. split; [|split; [|split; [|split]]].
  - intros id Hin. simpl in Hin.
    repeat (destruct Hin as [<- | Hin]; [now vm_compute|]). contradiction.
  - split; [now vm_compute|]. intros id Hin. simpl in Hin.
    repeat (destruct Hin as [<- | Hin]; [now vm_compute|]). contradiction.
  - now vm_compute.
  - now vm_compute.
  - now vm_compute.
Qed.

End Scenarios.

(** * The further properties on concrete requests *)

Module Cases.

Import Sample ReadingSample.

(** FStat with an empty payload. *)
Lemma undecodable_request_is_EIO_witness :
  returning (FStatHandler impl reading) 0 (conn false [])
  = Some ((0, Some EIO), received 0 (conn false [])).
Proof.
  eapply (undecodable_request_is_EIO impl reading walkStatusSize inodeSize).
  - right. left. reflexivity.
  - reflexivity.
  - reflexivity.
Defined.

(** MkdirAt of ".." in the root. *)
Lemma unsafe_name_is_EINVAL_witness :
  let w := conn false (mkdirAtReq 1 "..") in
  MkdirAtHandler impl 22 w = ((0, Some EINVAL), received 22 w).
Proof.
  intros w.
  eapply (unsafe_name_is_EINVAL impl) with (nm := "..").
  - right. left. reflexivity.
  - reflexivity.
  - vm_compute. reflexivity.
  - right. right. left. reflexivity.
Defined.

(** SetStat on the descriptor 4, which is an open handle. *)
Lemma failed_lookup_is_returned_witness :
  let w := conn false (setStatReq 4 2) in
  returning (SetStatHandler impl) 44 w
  = Some ((0, Some EBADF), log (EvLookup 4 false) (received 44 w)).
Proof.
  intros w.
  eapply (failed_lookup_is_returned impl reading walkStatusSize inodeSize)
    with (oname := None) (id := 4).
  - right. left. reflexivity.
  - reflexivity.
  - vm_compute. reflexivity.
  - intros nm Hnm. discriminate Hnm.
  - vm_compute. reflexivity.
Defined.

(** Connect to the file hosts. *)
Lemma wrong_kind_is_refused_witness :
  let w := conn false (connectReq 2 1) in
  returning (ConnectHandler impl reading) 8 w
  = Some ((0, Some ENOTSOCK), visited 2 (received 8 w)).
Proof.
  intros w.
  eapply (wrong_kind_is_refused impl reading walkStatusSize inodeSize)
    with (oname := None) (c := hosts).
  - do 8 right. left. reflexivity.
  - reflexivity.
  - vm_compute. reflexivity.
  - intros nm Hnm. discriminate Hnm.
  - vm_compute. reflexivity.
  - simpl. discriminate.
  - simpl. lia.
Defined.

(** RenameAt of hosts into etc. *)
Lemma deferred_references_are_released_witness :
  let w := conn false (renameReq 2 3 "hosts2") in
  exists new,
    trace (snd (RenameAtHandler impl 18 w)) = trace w ++ new /\
    balanced new.
Proof.
  intros w.
  apply (proj1 (deferred_references_are_released impl reading
                  walkStatusSize inodeSize) (RenameAtHandler impl) 18 w).
  do 16 right. left. reflexivity.
Defined.

(** SetStat of hosts with the bit 2 (the link count) in the mask. *)
Lemma SetStat_unsupported_mask_is_EPERM_witness :
  let w := conn false (setStatReq 2 4) in
  SetStatHandler impl 44 w = ((0, Some EPERM), visited 2 (received 44 w)).
Proof.
  intros w.
  eapply (SetStat_unsupported_mask_is_EPERM impl 44 w
            (SetStatReq.mk 2 4 420 0 0 0 0 0) hosts 2).
  - reflexivity.
  - vm_compute. reflexivity.
  - vm_compute. reflexivity.
  - simpl. lia.
  - reflexivity.
  - unfold setStatSupportedBits. simpl. lia.
Defined.

(** SetStat of the mode of hosts. *)
Lemma SetStat_failure_travels_in_response_witness :
  let w := conn false (setStatReq 2 2) in
  fst (SetStatHandler impl 44 w) = (8, nil_err) /\
  impl_calls (trace (snd (SetStatHandler impl 44 w)))
  = [CallSetStat 2 (SetStatReq.mk 2 2 420 0 0 0 0 0)].
Proof.
  intros w.
  assert (CheckedUnmarshal (payloadSlice 44 w)
          = Some (SetStatReq.mk 2 2 420 0 0 0 0 0)) as Hreq
    by (vm_compute; reflexivity).
  assert (control 2 w = Some hosts) as Hc by (vm_compute; reflexivity).
  assert (forall i, Z.testbit 2 i = true -> In i setStatSupportedBits)
    as Hbits.
  { intros i Hi. change 2 with (2 ^ 1) in Hi.
    rewrite Z.pow2_bits_eqb in Hi by lia. apply Z.eqb_eq in Hi.
    subst i. left. reflexivity. }
  destruct (SetStat_failure_travels_in_response impl 44 w _ hosts
              eq_refl Hreq Hc ltac:(simpl; lia) Hbits)
    as (Hres & _ & _ & _ & Htrace).
  split; [exact Hres|]. rewrite Htrace. reflexivity.
Defined.

(** Mount of the relative path srv, on a connection that is mounted. *)
Lemma Mount_relative_path_is_EINVAL_witness :
  let w := conn false (put_str "srv") in
  mounted w = true /\
  MountHandler impl 7 w = ((0, Some EINVAL), received 7 w).
Proof.
  intros w. split; [reflexivity|].
  apply (Mount_relative_path_is_EINVAL impl 7 w (MountReq.mk "srv")).
  - vm_compute. reflexivity.
  - reflexivity.
Defined.

(** FAllocate on the descriptor 7, opened for reading. *)
Lemma wrong_access_mode_is_EBADF_witness :
  let w := conn false (fallocateOn 7) in
  returning (FAllocateHandler impl) 28 w
  = Some ((0, Some EBADF), visited 7 (received 28 w)).
Proof.
  intros w.
  eapply (wrong_access_mode_is_EBADF impl reading)
    with (releasing := true) (o := mkOpenFD 1 2 RegularFile true false).
  - do 2 right. left. reflexivity.
  - reflexivity.
  - vm_compute. reflexivity.
  - vm_compute. reflexivity.
  - simpl. lia.
  - reflexivity.
Defined.

(** RenameAt of etc under hosts, a file. *)
Lemma RenameAt_into_non_directory_witness :
  let w := conn false (renameReq 3 2 "x") in
  fst (RenameAtHandler impl 13 w) = (0, Some ENOTDIR) /\
  heap (snd (RenameAtHandler impl 13 w)) = heap w.
Proof.
  intros w.
  destruct (RenameAt_into_non_directory impl 13 w
              (RenameAtReq.mk 3 2 "x") etc hosts)
    as (Hres & Hheap & _).
  - reflexivity.
  - vm_compute. reflexivity.
  - reflexivity.
  - vm_compute. reflexivity.
  - vm_compute. reflexivity.
  - simpl. discriminate.
  - simpl. lia.
  - simpl. lia.
  - split; [exact Hres | exact Hheap].
Defined.

(** RenameAt of hosts into etc, refused by the backend. *)
Lemma RenameAt_backend_failure_witness :
  let w := conn false (renameReq 2 3 "hosts2") in
  fst (RenameAtHandler refusing 18 w) = (0, Some EPERM) /\
  table (snd (RenameAtHandler refusing 18 w)) = table w.
Proof.
  intros w.
  destruct (RenameAt_backend_failure refusing 18 w
              (RenameAtReq.mk 2 3 "hosts2") hosts etc 1 EPERM [6])
    as (Hres & Htable & _).
  - reflexivity.
  - vm_compute. reflexivity.
  - reflexivity.
  - vm_compute. reflexivity.
  - vm_compute. reflexivity.
  - reflexivity.
  - simpl. lia.
  - simpl. lia.
  - reflexivity.
  - left. simpl. discriminate.
  - reflexivity.
  - split; [exact Hres | exact Htable].
Defined.

(** WalkStat from the root with the path etc, "..". *)
Lemma WalkStat_unsafe_component_is_EINVAL_witness :
  let w := conn false (walkReq 1 ["etc"; ".."]) in
  WalkStatHandler impl 21 w = ((0, Some EINVAL), visited 1 (received 21 w)).
Proof.
  intros w.
  apply (WalkStat_unsafe_component_is_EINVAL impl 21 w
           (WalkReq.mk 1 ["etc"; ".."]) srv 1%nat "..").
  - vm_compute. reflexivity.
  - vm_compute. reflexivity.
  - reflexivity.
  - simpl. lia.
  - reflexivity.
  - right. right. left. reflexivity.
  - intros [H _]. discriminate H.
Defined.

(** Walk from the root with the path "". *)
Lemma Walk_unsafe_component_is_EINVAL_witness :
  let w := conn false (walkReq 1 [""]) in
  WalkHandler impl reading walkStatusSize inodeSize 12 w
  = ((0, Some EINVAL), visited 1 (received 12 w)).
Proof.
  intros w.
  apply (Walk_unsafe_component_is_EINVAL impl reading walkStatusSize
           inodeSize 12 w (WalkReq.mk 1 [""]) srv "").
  - vm_compute. reflexivity.
  - vm_compute. reflexivity.
  - reflexivity.
  - simpl. lia.
  - left. reflexivity.
  - left. reflexivity.
Defined.



(** Close of the descriptor 99, which does not exist. *)
Lemma Close_never_fails_witness :
  let w := conn false (closeReq [99]) in
  CloseHandler impl 8 w = ((0, nil_err), received 8 w).
Proof.
  intros w.
  destruct (Close_never_fails impl 8 w (CloseReq.mk [99]))
    as [Hres Hsame].
  - vm_compute. reflexivity.
  - rewrite (surjective_pairing (CloseHandler impl 8 w)).
    rewrite Hres, Hsame; [reflexivity|].
    intros id [<- | []]. vm_compute. reflexivity.
Defined.

(** FStat of the open descriptor 5. *)
Lemma FStat_on_either_variant_witness :
  let w := conn false (statReq 5) in
  fst (FStatHandler impl reading 4 w) = (256, nil_err) /\
  take 256 (payload (snd (FStatHandler impl reading 4 w)))
  = put_statx (mkStatx 2 0 5 9).
Proof.
  intros w.
  destruct (FStat_on_either_variant impl reading 4 w (StatReq.mk 5)
              (IsOpen (mkOpenFD 1 3 Directory true false)))
    as (_ & _ & Hres).
  - vm_compute. reflexivity.
  - vm_compute. reflexivity.
  - simpl. lia.
  - exact Hres.
Defined.

(** PRead of 2^32 - 2 bytes from the descriptor 4. *)
Lemma short_slice_panics_witness :
  PReadHandler impl reading 16 (conn false (preadReq 4 0 (2 ^ 32 - 2)))
  = None.
Proof.
  eapply (short_slice_panics impl reading)
    with (size := 2) (fd := IsOpen (mkOpenFD 1 2 RegularFile true true)).
  - left. reflexivity.
  - vm_compute. reflexivity.
  - vm_compute. reflexivity.
  - reflexivity.
  - lia.
Defined.

(** PRead of 4 bytes from the descriptor 4. *)
Lemma PRead_response_layout_witness :
  let w := conn false (preadReq 4 0 4) in
  exists res w',
    PReadHandler impl reading 16 w = Some (res, w') /\
    res = (8, nil_err) /\
    take 8 (payload w') = le_bytes 4 4 ++ list_byte_of_string "loca".
Proof.
  intros w.
  destruct (PRead_response_layout impl reading 16 w (PReadReq.mk 4 0 4)
              (mkOpenFD 1 2 RegularFile true true))
    as (res & w' & Hrun & _ & _ & Hres & Hpay).
  - vm_compute. reflexivity.
  - vm_compute. reflexivity.
  - simpl. lia.
  - reflexivity.
  - vm_compute. discriminate.
  - exists res, w'. split; [exact Hrun|]. split; [exact Hres | exact Hpay].
Defined.


(** Flush of the descriptor 4. *)
Lemma backend_answer_is_forwarded_witness :
  let w := conn false (flushReq 4) in
  fst (FlushHandler impl 4 w) = (0, nil_err) /\
  table (snd (FlushHandler impl 4 w)) = table w /\
  trace (snd (FlushHandler impl 4 w))
  = [EvPayloadBuf 4; EvLookup 4 true; EvImpl (CallFlush 4); EvDecRef 4].
Proof.
  intros w.
  destruct (backend_answer_is_forwarded impl reading (FlushHandler impl)
              false (front unnamed FlushReq.FD) isOpen
              (backendCall (fun r => Some (CallFlush (FlushReq.FD r)))
                 (fun r => Flush impl (FlushReq.FD r)))
              4 w None 4
              (IsOpen (mkOpenFD 1 2 RegularFile true true))
              (Some (CallFlush 4)) (Flush impl 4))
    as (Hres & Htable & _ & _ & Htrace).
  - right. left. reflexivity.
  - reflexivity.
  - vm_compute. reflexivity.
  - intros nm Hnm. discriminate Hnm.
  - vm_compute. reflexivity.
  - vm_compute. reflexivity.
  - reflexivity.
  - simpl. lia.
  - split; [exact Hres|]. split; [exact Htable | exact Htrace].
Defined.


End Cases.
